(** * WordMint-AI: order lifecycle, order store and notification client

    A shallow embedding of the server side of the repository
    (shared/schema.ts, server/storage.ts [MemStorage], server/routes/orders.ts,
    server/routes/stripe.ts, server/services/email.ts) and the properties of
    the specification that can be stated over it.

    Conventions of the embedding

    - a JavaScript [number] that holds an identifier, a count, an amount in
      cents or a millisecond timestamp is a [Z] (the range in which doubles
      are exact integers); where the code computes with fractions (the cost
      of a generation) the number is a binary64 [float] with the IEEE 754
      operations; strings are [string] (the ASCII fragment: [length],
      [toLowerCase] and [substring] act on bytes);
    - [Map<number, Order>] is an association list in insertion order, since
      [Array.from(map.values())] and a stable [sort] expose that order;
    - [new Date()] is an explicit timestamp argument [now];
    - a request handler returns the new store, the HTTP response and the list
      of outward calls it issued ([sendEmail], [generateContent], [fetch]);
      [Server.serve] runs each handler to completion before the next starts,
      [Overlap.run] also lets other requests in while a processing request
      awaits its generation;
    - third-party code (Stripe signature verification, zod's e-mail pattern,
      local-time calendar arithmetic, ISO date printing, the SMTP transport)
      is a parameter. *)

From Stdlib Require Import ZArith List String Ascii Bool Lia Sorted.
From Stdlib Require Import DecimalString.
From Stdlib Require DecimalPos.
From Stdlib Require PrimFloat FloatOps SpecFloat Uint63.
Import ListNotations.

Open Scope string_scope.
Open Scope list_scope.
Open Scope Z_scope.

(** String concatenation, JavaScript's [+] on strings. *)
Infix "+++" := String.append (right associativity, at level 60).

Set Implicit Arguments.

(* ================================================================== *)
(** ** JavaScript built-ins used by the server code *)
(* ================================================================== *)

Module JS.

(** [Number.prototype.toString] on an integer. *)
Definition toString (n : Z) : string := NilZero.string_of_int (Z.to_int n).

(** Two decimal digits of [r] (0 <= r < 100). *)
Definition twoDigits (r : Z) : string := toString (r / 10) +++ toString (r mod 10).

(** [(cents / 100).toString()], as in the template literal
    [${order.price / 100}]: the shortest decimal, no trailing zero. *)
Definition hundredthsToString (cents : Z) : string :=
  let a := Z.abs cents in
  let q := a / 100 in
  let r := a mod 100 in
  (if cents <? 0 then "-" else "") +++ toString q +++
  (if r =? 0 then ""
   else if r mod 10 =? 0 then "." +++ toString (r / 10)
   else "." +++ twoDigits r).

(** [(cents / 100).toFixed(2)]. *)
Definition hundredthsToFixed2 (cents : Z) : string :=
  let a := Z.abs cents in
  (if cents <? 0 then "-" else "") +++ toString (a / 100) +++ "." +++ twoDigits (a mod 100).

Definition isDigit (c : ascii) : bool :=
  let n := Z.of_nat (nat_of_ascii c) in (48 <=? n) && (n <=? 57).

Definition digitValue (c : ascii) : Z := Z.of_nat (nat_of_ascii c) - 48.

Definition isWhiteSpace (c : ascii) : bool :=
  let n := Z.of_nat (nat_of_ascii c) in
  (n =? 32) || ((9 <=? n) && (n <=? 13)).

Fixpoint trimStart (s : string) : string :=
  match s with
  | String c r => if isWhiteSpace c then trimStart r else s
  | EmptyString => s
  end.

(** The digits read by [parseInt] after the sign: [acc] is the value so
    far, [seen] tells whether a digit was read. *)
Fixpoint parseDigits (s : string) (acc : Z) (seen : bool) : option Z :=
  match s with
  | String c r =>
      if isDigit c then parseDigits r (10 * acc + digitValue c) true
      else if seen then Some acc else None
  | EmptyString => if seen then Some acc else None
  end.

(** [parseInt(s, 10)]; [None] is [NaN]. *)
Definition parseInt (s : string) : option Z :=
  match trimStart s with
  | String "-" r => option_map Z.opp (parseDigits r 0 false)
  | String "+" r => parseDigits r 0 false
  | t => parseDigits t 0 false
  end.

Definition lowerChar (c : ascii) : ascii :=
  let n := nat_of_ascii c in
  if ((65 <=? n) && (n <=? 90))%nat then ascii_of_nat (n + 32) else c.

Fixpoint toLowerCase (s : string) : string :=
  match s with
  | String c r => String (lowerChar c) (toLowerCase r)
  | EmptyString => EmptyString
  end.

(** [hay.includes(needle)]. *)
Fixpoint includes (needle hay : string) : bool :=
  if prefix needle hay then true
  else match hay with
       | String _ r => includes needle r
       | EmptyString => false
       end.

(** [s.substring(0, n)] for [n >= 0]. *)
Definition substring0 (n : nat) (s : string) : string := substring 0 n s.

(** [s.replace(/c/g, by)]: every occurrence of the character [c]. *)
Fixpoint replaceAll (c : ascii) (by_ : string) (s : string) : string :=
  match s with
  | String d r => (if Ascii.eqb d c then by_ else String d EmptyString) +++ replaceAll c by_ r
  | EmptyString => EmptyString
  end.

Section Arrays.
Variable A : Type.

(** [ToIntegerOrInfinity] followed by the clamping of
    [Array.prototype.slice]. *)
Definition clampIndex (len i : Z) : Z :=
  if i <? 0 then Z.max (len + i) 0 else Z.min i len.

Definition slice (start end_ : Z) (l : list A) : list A :=
  let len := Z.of_nat (List.length l) in
  let k := clampIndex len start in
  let final := clampIndex len end_ in
  firstn (Z.to_nat (final - k)) (skipn (Z.to_nat k) l).

(** [Array.prototype.sort(compare)] is stable, and for a consistent
    comparator its result is the one stable insertion sort computes:
    an element moves behind a later one only when the comparator is
    strictly positive on the pair. *)
Variable compare : A -> A -> Z.

Fixpoint insertSorted (x : A) (l : list A) : list A :=
  match l with
  | [] => [x]
  | y :: r => if 0 <? compare x y then y :: insertSorted x r else x :: y :: r
  end.

Fixpoint sort (l : list A) : list A :=
  match l with
  | [] => []
  | x :: r => insertSorted x (sort r)
  end.

(** [Array.prototype.find]. *)
Definition find (p : A -> bool) (l : list A) : option A := List.find p l.
End Arrays.

(** [Map<number, V>]: keys in insertion order; [set] on a present key
    keeps its position. *)
Section Maps.
Variable V : Type.

Definition Map := list (Z * V).

Fixpoint get (k : Z) (m : Map) : option V :=
  match m with
  | [] => None
  | (k', v) :: r => if k =? k' then Some v else get k r
  end.

Fixpoint set (k : Z) (v : V) (m : Map) : Map :=
  match m with
  | [] => [(k, v)]
  | (k', v') :: r => if k =? k' then (k, v) :: r else (k', v') :: set k v r
  end.

Definition values (m : Map) : list V := map snd m.
End Maps.

(** An integer as the double that holds it (exact below [2^53] in
    absolute value, which token counts are). *)
Definition toDouble (n : Z) : PrimFloat.float :=
  if n <? 0 then PrimFloat.opp (PrimFloat.of_uint63 (Uint63.of_Z (- n)))
  else PrimFloat.of_uint63 (Uint63.of_Z n).

(** [Math.round]: the integer nearest to a finite double, a tie going
    up.  The double is [n * 2^e] for integers [n] and [e], and the rounding
    is done on these exactly.  (Of [NaN] and the infinities, which have no
    integer value, the result is left at [0].) *)
Definition mathRound (x : PrimFloat.float) : Z :=
  match FloatOps.Prim2SF x with
  | SpecFloat.S754_finite negative m e =>
      let n := if negative then Z.neg m else Z.pos m in
      if 0 <=? e then n * 2 ^ e
      else (2 * n + 2 ^ (- e)) / 2 ^ (1 - e)
  | _ => 0
  end.

End JS.

(* ================================================================== *)
(** ** shared/schema.ts *)
(* ================================================================== *)

Module OrderStatus.
Inductive t := PENDING | PROCESSING | COMPLETE | FAILED.

Definition eqb (a b : t) : bool :=
  match a, b with
  | PENDING, PENDING | PROCESSING, PROCESSING
  | COMPLETE, COMPLETE | FAILED, FAILED => true
  | _, _ => false
  end.

(** The string each member stands for. *)
Definition text (a : t) : string :=
  match a with
  | PENDING => "pending"
  | PROCESSING => "processing"
  | COMPLETE => "complete"
  | FAILED => "failed"
  end.
End OrderStatus.

Definition OrderStatusType := OrderStatus.t.

(** A row of the [orders] table.  MemStorage never stores [null] in
    [apiCost], [content] or [stripePaymentIntentId]: an order is created with
    the placeholders [0], the empty string and the empty string. *)
Record Order := {
  id : Z;
  status : OrderStatusType;
  topic : string;
  wordCount : Z;
  price : Z;
  apiCost : Z;
  content : string;
  customerEmail : string;
  stripePaymentIntentId : string;
  createdAt : Z;
  updatedAt : Z
}.

Record InsertOrder := {
  ins_topic : string;
  ins_wordCount : Z;
  ins_price : Z;
  ins_customerEmail : string;
  ins_stripePaymentIntentId : string
}.

(** Every key of [UpdateOrder] is optional; [None] is a key that the
    object literal does not have. *)
Record UpdateOrder := {
  upd_status : option OrderStatusType;
  upd_content : option string;
  upd_apiCost : option Z;
  upd_stripePaymentIntentId : option string
}.

Definition noUpdate : UpdateOrder :=
  {| upd_status := None; upd_content := None; upd_apiCost := None;
     upd_stripePaymentIntentId := None |}.

(** A JSON value of a request body, as far as the handlers look at it. *)
Inductive JsValue :=
| JsUndefined
| JsNumber (n : Z)
| JsString (s : string).

(** The body of [POST /api/orders/create]. *)
Record CreateOrderBody := {
  body_topic : JsValue;
  body_wordCount : JsValue;
  body_customerEmail : JsValue
}.

(* ================================================================== *)
(** ** Values that cross the boundary to third-party code *)
(* ================================================================== *)

(** What a [throw] carries: an [Error] with its message, or anything else. *)
Inductive Exn :=
| ErrorOf (message : string)
| NotAnError.

(** [error instanceof Error ? error.message : "Unknown error"]. *)
Definition messageOf (e : Exn) : string :=
  match e with
  | ErrorOf m => m
  | NotAnError => "Unknown error"
  end.

(** The outcome of a call that may throw (or of an awaited promise that
    may reject). *)
Inductive Try (A : Type) :=
| Returned (a : A)
| Thrown (e : Exn).
Arguments Returned {A} a.
Arguments Thrown {A} e.

Definition tryBind {A B : Type} (c : Try A) (k : A -> Try B) : Try B :=
  match c with
  | Returned a => k a
  | Thrown e => Thrown e
  end.

Notation "x <- c ;; k" := (tryBind c (fun x => k))
  (at level 61, c at next level, right associativity).

(** The Stripe events the webhook distinguishes, after
    [constructEvent] has verified and decoded the payload:
    [session.metadata?.orderId] and [session.payment_intent] of a
    [checkout.session.completed], the [id] of the payment intent of a
    [payment_intent.payment_failed], and every other event type. *)
Inductive StripeEvent :=
| CheckoutSessionCompleted (metadata_orderId : option string) (payment_intent : string)
| PaymentIntentPaymentFailed (paymentIntentId : string)
| OtherEvent (type : string).

Inductive DateFilter := today | week | month | all.

(** Third-party functions the server calls. *)
Class Externals := {
  (** [stripe.webhooks.constructEvent(body, signature, secret)]; it throws
      when the signature does not verify. *)
  constructEvent : string -> option string -> string -> Try StripeEvent;
  (** The pattern behind zod's [z.string().email()]. *)
  isEmail : string -> bool;
  (** The [startDate] that the listing derives from [now] for a date
      filter, by local-time calendar arithmetic ([setHours], [setDate],
      [setMonth]). *)
  filterStartDate : DateFilter -> Z -> Z;
  (** [new Date(ms).toISOString()]. *)
  toISOString : Z -> string
}.

(* ================================================================== *)
(** ** server/config.ts *)
(* ================================================================== *)

Record Config := {
  NODE_ENV : option string;          (* process.env.NODE_ENV *)
  STRIPE_WEBHOOK_SECRET : string;
  PRICE_PER_WORD_CENTS : Z;
  SMTP_HOST : string;
  SMTP_PORT : Z;
  SMTP_USER : string;
  SMTP_PASSWORD : string;
  SMTP_SENDER : string;
  BASE_URL : string
}.

(** Truthiness of a string and of a number. *)
Definition truthyString (s : string) : bool := negb (String.eqb s "").
Definition truthyNumber (n : Z) : bool := negb (n =? 0).

(* ================================================================== *)
(** ** server/storage.ts: MemStorage *)
(* ================================================================== *)

(** The settings object.  A key that a [PATCH] body left out is stored as
    [undefined], which is [None] here. *)
Record ApiKeys := {
  openaiApiKey : option string;
  stripeSecretKey : option string;
  stripeWebhookSecret : option string
}.

Record EmailSettings := {
  smtpHost : option string;
  smtpPort : option string;
  smtpUser : option string;
  smtpPassword : option string;
  senderEmail : option string
}.

Record Pricing := {
  pricePerWord : option Z
}.

Record Settings := {
  apiKeys : option ApiKeys;
  email : option EmailSettings;
  pricing : option Pricing
}.

(** The argument pair [(section, newSettings)] of [updateSettings], for
    the three sections the routes address. *)
Inductive SettingsSection :=
| SectionApiKeys (v : ApiKeys)
| SectionEmail (v : EmailSettings)
| SectionPricing (v : Pricing).

(** The [options] object of [getAllOrders]; [None] is a key left out. *)
Record ListOptions := {
  opt_status : option OrderStatusType;
  opt_page : option Z;
  opt_limit : option Z;
  opt_search : option string;
  opt_dateFilter : option DateFilter
}.

Definition noOptions : ListOptions :=
  {| opt_status := None; opt_page := None; opt_limit := None;
     opt_search := None; opt_dateFilter := None |}.

Record OrderPage := {
  page_orders : list Order;
  page_total : Z
}.

Module MemStorage.

(** The fields of the class that the order and settings methods use
    (the user table is left out). *)
Record t := {
  orders : JS.Map Order;
  settings : Settings;
  orderIdCounter : Z
}.

(** The constructor. *)
Definition new : t := {|
  orders := [];
  orderIdCounter := 1;
  settings := {|
    apiKeys := Some {| openaiApiKey := Some ""; stripeSecretKey := Some "";
                       stripeWebhookSecret := Some "" |};
    email := Some {| smtpHost := Some ""; smtpPort := Some "587";
                     smtpUser := Some ""; smtpPassword := Some "";
                     senderEmail := Some "noreply@contentcraft.com" |};
    pricing := Some {| pricePerWord := Some 5 |}
  |}
|}.

Definition createOrder (this : t) (now : Z) (order : InsertOrder) : t * Order :=
  let id := orderIdCounter this in
  let newOrder := {|
    topic := ins_topic order;
    wordCount := ins_wordCount order;
    price := ins_price order;
    customerEmail := ins_customerEmail order;
    stripePaymentIntentId := ins_stripePaymentIntentId order;
    id := id;
    status := OrderStatus.PENDING;
    apiCost := 0;
    content := "";
    createdAt := now;
    updatedAt := now
  |} in
  ({| orders := JS.set id newOrder (orders this);
      settings := settings this;
      orderIdCounter := id + 1 |},
   newOrder).

Definition getOrder (this : t) (id : Z) : option Order :=
  JS.get id (orders this).

Definition getOrderByPaymentIntent (this : t) (paymentIntentId : string) : option Order :=
  JS.find (fun order => String.eqb (stripePaymentIntentId order) paymentIntentId)
          (JS.values (orders this)).

(** [{ ...order, ...updateData, updatedAt: new Date() }]. *)
Definition applyUpdate (order : Order) (updateData : UpdateOrder) (now : Z) : Order := {|
  id := id order;
  status := match upd_status updateData with Some v => v | None => status order end;
  topic := topic order;
  wordCount := wordCount order;
  price := price order;
  apiCost := match upd_apiCost updateData with Some v => v | None => apiCost order end;
  content := match upd_content updateData with Some v => v | None => content order end;
  customerEmail := customerEmail order;
  stripePaymentIntentId :=
    match upd_stripePaymentIntentId updateData with
    | Some v => v
    | None => stripePaymentIntentId order
    end;
  createdAt := createdAt order;
  updatedAt := now
|}.

Definition updateOrder (this : t) (now : Z) (id : Z) (updateData : UpdateOrder)
  : t * option Order :=
  match JS.get id (orders this) with
  | None => (this, None)
  | Some order =>
      let updatedOrder := applyUpdate order updateData now in
      ({| orders := JS.set id updatedOrder (orders this);
          settings := settings this;
          orderIdCounter := orderIdCounter this |},
       Some updatedOrder)
  end.

(** The search predicate of the listing. *)
Definition matchesSearch (search : string) (order : Order) : bool :=
  let searchLower := JS.toLowerCase search in
  JS.includes searchLower (JS.toLowerCase (customerEmail order))
  || JS.includes search (JS.toString (id order))
  || JS.includes searchLower (JS.toLowerCase (topic order)).

(** [(a, b) => new Date(b.createdAt).getTime() - new Date(a.createdAt).getTime()]. *)
Definition newestFirst (a b : Order) : Z := createdAt b - createdAt a.

Section Listing.
Context {ext : Externals}.

(** [filteredOrders] of [getAllOrders] once the three filters and the
    sort have run. *)
Definition filteredOrders (this : t) (now : Z) (options : ListOptions) : list Order :=
  let search := match opt_search options with Some s => s | None => "" end in
  let dateFilter := match opt_dateFilter options with Some d => d | None => all end in
  let l0 := JS.values (orders this) in
  let l1 := match opt_status options with
            | Some st => filter (fun order => OrderStatus.eqb (status order) st) l0
            | None => l0
            end in
  let l2 := if truthyString search then filter (matchesSearch search) l1 else l1 in
  let l3 := match dateFilter with
            | all => l2
            | d => let startDate := filterStartDate d now in
                   filter (fun order => startDate <=? createdAt order) l2
            end in
  JS.sort newestFirst l3.

Definition getAllOrders (this : t) (now : Z) (options : ListOptions) : OrderPage :=
  let page := match opt_page options with Some p => p | None => 1 end in
  let limit := match opt_limit options with Some l => l | None => 10 end in
  let sorted := filteredOrders this now options in
  let startIndex := (page - 1) * limit in
  let endIndex := startIndex + limit in
  {| page_orders := JS.slice startIndex endIndex sorted;
     page_total := Z.of_nat (List.length sorted) |}.
End Listing.

(** [getSettings] returns [this.settings] itself, not a copy: the caller
    holds an alias of the stored object, and an assignment through the
    alias is a write to the store.  [getSettings] gives the value read
    through the alias, [assignSettings] the store after the caller has
    assigned a new value to the aliased object. *)
Definition getSettings (this : t) : Settings := settings this.

Definition assignSettings (this : t) (v : Settings) : t :=
  {| orders := orders this; settings := v; orderIdCounter := orderIdCounter this |}.

(** [this.settings[section] = { ...this.settings[section], ...newSettings }]:
    the object literal that the routes pass has every key of its section
    (a missing body field is an [undefined] value), so the spread replaces
    every key. *)
Definition updateSettings (this : t) (newSettings : SettingsSection) : t * Settings :=
  let old := settings this in
  let updated :=
    match newSettings with
    | SectionApiKeys v => {| apiKeys := Some v; email := email old; pricing := pricing old |}
    | SectionEmail v => {| apiKeys := apiKeys old; email := Some v; pricing := pricing old |}
    | SectionPricing v => {| apiKeys := apiKeys old; email := email old; pricing := Some v |}
    end in
  (assignSettings this updated, updated).


Record Stats := {
  totalOrders : Z;
  pendingOrders : Z;
  totalRevenue : Z
}.

(** [getRecentOrders(limit = 3)]; [None] is the argument left out. *)
Definition getRecentOrders (this : t) (limit : option Z) : list Order :=
  let limit := match limit with Some l => l | None => 3 end in
  let allOrders := JS.sort newestFirst (JS.values (orders this)) in
  JS.slice 0 limit allOrders.

Definition getStats (this : t) : Stats :=
  let allOrders := JS.values (orders this) in
  let pending :=
    filter (fun order => OrderStatus.eqb (status order) OrderStatus.PENDING
                         || OrderStatus.eqb (status order) OrderStatus.PROCESSING)
           allOrders in
  let revenue := fold_left (fun sum order => sum + price order) allOrders 0 in
  {| totalOrders := Z.of_nat (List.length allOrders);
     pendingOrders := Z.of_nat (List.length pending);
     totalRevenue := revenue |}.
End MemStorage.

(* ================================================================== *)
(** ** server/services/openai.ts *)
(* ================================================================== *)

(** What [generateContent] resolves to. *)
Record GenResult := {
  result_content : string;
  result_cost : Z
}.

(** A generation client, as the order routes see it:
    [generateContent(topic, wordCount)] resolves or rejects. *)
Definition GenerationClient := string -> Z -> Try GenResult.

(** The parts of a chat completion that [generateContent] reads:
    [choices[0].message.content] (possibly [null]) and
    [usage?.prompt_tokens], [usage?.completion_tokens]. *)
Record ChatCompletion := {
  message_content : option string;
  usage : option (Z * Z)
}.

(** The cost of a completion in cents, computed in doubles as the source
    does: [inputCost = (inputTokens / 1000) * 1],
    [outputCost = (outputTokens / 1000) * 3],
    [totalCost = (inputCost + outputCost) * 100] and [Math.round(totalCost)].
    Since the thousandths are not exact in binary, the result can be one
    cent below the exactly rounded value: 75 output tokens cost 22. *)
Definition costInCents (inputTokens outputTokens : Z) : Z :=
  let inputCost :=
    PrimFloat.mul (PrimFloat.div (JS.toDouble inputTokens) (JS.toDouble 1000))
                  (JS.toDouble 1) in
  let outputCost :=
    PrimFloat.mul (PrimFloat.div (JS.toDouble outputTokens) (JS.toDouble 1000))
                  (JS.toDouble 3) in
  let totalCost := PrimFloat.mul (PrimFloat.add inputCost outputCost) (JS.toDouble 100) in
  JS.mathRound totalCost.

(** [generateContent] over the call [openai.chat.completions.create] for
    the prompts built from [(topic, wordCount)]. *)
Definition generateContent (create : string -> Z -> Try ChatCompletion) : GenerationClient :=
  fun topic wordCount =>
    match create topic wordCount with
    | Returned response =>
        let inputTokens := match usage response with Some (i, _) => i | None => 0 end in
        let outputTokens := match usage response with Some (_, o) => o | None => 0 end in
        Returned {|
          result_content := match message_content response with
                            | Some c => c   (* [c || ""] is [c], also when [c] is empty *)
                            | None => ""
                            end;
          result_cost := costInCents inputTokens outputTokens
        |}
    | Thrown e => Thrown (ErrorOf ("Content generation failed: " +++ messageOf e))
    end.

(* ================================================================== *)
(** ** server/services/email.ts *)
(* ================================================================== *)

Inductive EmailTemplate := received | in_progress | completed | failed | payment_failed.

Record EmailData := {
  to : string;
  subject : string;
  template : EmailTemplate;
  data : list (string * JsValue)
}.

Record TransportOptions := {
  host : string;
  port : Z;
  secure : bool;
  auth_user : string;
  auth_pass : string
}.

Record MailOptions := {
  mail_from : string;
  mail_to : string;
  mail_subject : string;
  mail_html : string
}.

(** A nodemailer transport: its [sendMail]. *)
Definition Transport := MailOptions -> Try unit.

Inductive ConsoleLine :=
| ConsoleLog (text : string)
| ConsoleLogData (text : string) (emailData : EmailData)
| ConsoleError (text : string) (e : Exn).

Module Email.
Section Service.
(** [nodemailer.createTransport], and the HTML rendering
    [getEmailContent(template, data)] (a [switch] over the template
    between a fixed header and footer, not reproduced here); both may
    throw as far as [sendEmail] is concerned. *)
Variable createTransport : TransportOptions -> Try Transport.
Variable getEmailContent : EmailTemplate -> list (string * JsValue) -> Try string.
Variable config : Config.

Definition getTransport : Try Transport :=
  createTransport {|
    host := SMTP_HOST config;
    port := SMTP_PORT config;
    secure := SMTP_PORT config =? 465;
    auth_user := SMTP_USER config;
    auth_pass := SMTP_PASSWORD config
  |}.

(** [process.env.NODE_ENV !== 'production']. *)
Definition notProduction : bool :=
  match NODE_ENV config with
  | Some e => negb (String.eqb e "production")
  | None => true
  end.

Definition smtpUnconfigured : bool :=
  negb (truthyString (SMTP_HOST config))
  || negb (truthyString (SMTP_USER config))
  || negb (truthyString (SMTP_PASSWORD config)).

(** The [try] block of [sendEmail]. *)
Definition deliver (emailData : EmailData) : Try unit :=
  transport <- getTransport ;;
  html <- getEmailContent (template emailData) (data emailData) ;;
  transport {| mail_from := SMTP_SENDER config;
               mail_to := to emailData;
               mail_subject := subject emailData;
               mail_html := html |}.

(** [sendEmail]: how the returned promise settles, and what is written
    to the console. *)
Definition sendEmail (emailData : EmailData) : Try unit * list ConsoleLine :=
  if notProduction && smtpUnconfigured then
    (Returned tt,
     [ConsoleLog "Email sending skipped in development mode (SMTP not configured)";
      ConsoleLogData "Would have sent:" emailData])
  else
    match deliver emailData with
    | Returned _ =>
        (Returned tt,
         [ConsoleLog ("Email sent to " +++ to emailData +++ " - Template: "
                      +++ match template emailData with
                          | received => "received"
                          | in_progress => "in-progress"
                          | completed => "completed"
                          | failed => "failed"
                          | payment_failed => "payment-failed"
                          end)])
    | Thrown e =>
        (* catch (error): logged, nothing is thrown again *)
        (Returned tt, [ConsoleError "Error sending email:" e])
    end.
End Service.
End Email.

(* ================================================================== *)
(** ** Responses and outward calls of the route handlers *)
(* ================================================================== *)

Inductive Body :=
| Message (message : string)
| ValidationFailed
| OrderCreated (message : string) (orderId : Z) (checkoutUrl : string)
| Received
| SettingsJson (s : Settings)
| Text (s : string).

Record Response := {
  statusCode : Z;
  body : Body
}.

Definition json (code : Z) (b : Body) : Response := {| statusCode := code; body := b |}.

(** A call that a handler issues to another component. *)
Inductive Call :=
| SendEmail (emailData : EmailData)
| CallGenerateContent (topic : string) (wordCount : Z)
| Fetch (method url : string).

Definition Outcome := (MemStorage.t * Response * list Call)%type.

(* ================================================================== *)
(** ** server/routes/orders.ts *)
(* ================================================================== *)

Definition dquote : string := String (ascii_of_nat 34) EmptyString.
Definition newline : string := String (ascii_of_nat 10) EmptyString.

Module Orders.
Import MemStorage.

Section Routes.
Context {ext : Externals}.
Variable config : Config.

(** [createOrderRequestSchema.safeParse(req.body)]: the three fields
    when the body passes, [None] when [validation.success] is false. *)
Definition createOrderRequestSchema (b : CreateOrderBody) : option (string * Z * string) :=
  match body_topic b, body_wordCount b, body_customerEmail b with
  | JsString topic, JsNumber wordCount, JsString customerEmail =>
      if (3 <=? Z.of_nat (String.length topic))
         && (100 <=? wordCount) && (wordCount <=? 5000)
         && isEmail customerEmail
      then Some (topic, wordCount, customerEmail)
      else None
  | _, _, _ => None
  end.

(** [settings.pricing?.pricePerWord || config.PRICE_PER_WORD_CENTS]. *)
Definition effectivePricePerWord (settings : Settings) : Z :=
  match pricing settings with
  | Some p =>
      match pricePerWord p with
      | Some n => if truthyNumber n then n else PRICE_PER_WORD_CENTS config
      | None => PRICE_PER_WORD_CENTS config
      end
  | None => PRICE_PER_WORD_CENTS config
  end.

(** [POST /api/orders/create]. *)
Definition createOrderRoute (now : Z) (reqBody : CreateOrderBody) (storage : t) : Outcome :=
  match createOrderRequestSchema reqBody with
  | None => (storage, json 400 ValidationFailed, [])
  | Some (topic, wordCount, customerEmail) =>
      let settings := getSettings storage in
      let pricePerWord := effectivePricePerWord settings in
      let price := wordCount * pricePerWord in
      let '(storage', order) :=
        createOrder storage now
          {| ins_topic := topic;
             ins_wordCount := wordCount;
             ins_price := price;
             ins_customerEmail := customerEmail;
             ins_stripePaymentIntentId := "" |} in
      (storage',
       json 200 (OrderCreated "Order created successfully" (id order)
                   ("/api/checkout/" +++ JS.toString (id order))),
       [])
  end.

(** One row of the CSV export. *)
Definition csvRow (order : Order) : string :=
  JS.toString (id order) +++ "," +++
  customerEmail order +++ "," +++
  dquote +++ JS.replaceAll (ascii_of_nat 34) (dquote +++ dquote) (topic order) +++ dquote +++ "," +++
  JS.toString (wordCount order) +++ "," +++
  OrderStatus.text (status order) +++ "," +++
  JS.hundredthsToString (price order) +++ "," +++
  JS.hundredthsToString (apiCost order) +++ "," +++   (* [(apiCost || 0) / 100] *)
  toISOString (createdAt order) +++ newline.

Definition csvHeader : string :=
  "ID,Customer Email,Topic,Word Count,Status,Price,API Cost,Created At" +++ newline.

(** [GET /api/orders/export], behind [isAdmin]. *)
Definition exportRoute (now : Z) (storage : t) : Outcome :=
  let result := getAllOrders storage now
                  {| opt_status := None; opt_page := None; opt_limit := Some 1000;
                     opt_search := None; opt_dateFilter := None |} in
  let csv := fold_left (fun csv order => csv +++ csvRow order) (page_orders result) csvHeader in
  (storage, json 200 (Text csv), []).

Definition apiKeyMask : string := "•••••••••••••••••••••••••••••••".
Definition passwordMask : string := "•••••••••••••".

Definition truthyField (v : option string) : bool :=
  match v with Some s => truthyString s | None => false end.

Definition maskKey (v : option string) : option string :=
  Some (if truthyField v then apiKeyMask else "").

(** [GET /api/settings], behind [isAdmin].  [settings] is the object
    that [storage.getSettings()] returned, that is the stored object:
    the two assignments of the handler go through
    [MemStorage.assignSettings]. *)
Definition getSettingsRoute (storage : t) : Outcome :=
  let settings := getSettings storage in
  let storage1 :=
    match apiKeys settings with
    | Some keys =>
        assignSettings storage
          {| apiKeys := Some {| openaiApiKey := maskKey (openaiApiKey keys);
                                stripeSecretKey := maskKey (stripeSecretKey keys);
                                stripeWebhookSecret := maskKey (stripeWebhookSecret keys) |};
             email := email settings;
             pricing := pricing settings |}
    | None => storage
    end in
  let settings1 := getSettings storage1 in
  let storage2 :=
    match email settings1 with
    | Some e =>
        if truthyField (smtpPassword e) then
          assignSettings storage1
            {| apiKeys := apiKeys settings1;
               email := Some {| smtpHost := smtpHost e; smtpPort := smtpPort e;
                                smtpUser := smtpUser e;
                                smtpPassword := Some passwordMask;
                                senderEmail := senderEmail e |};
               pricing := pricing settings1 |}
        else storage1
    | None => storage1
    end in
  (storage2, json 200 (SettingsJson (getSettings storage2)), []).

(** [PATCH /api/settings/api-keys], [/email] and [/pricing], behind
    [isAdmin]. *)
Definition patchSettingsRoute (newSettings : SettingsSection) (storage : t) : Outcome :=
  let '(storage', _) := updateSettings storage newSettings in
  (storage',
   json 200 (Message match newSettings with
                     | SectionApiKeys _ => "API keys updated successfully"
                     | SectionEmail _ => "Email settings updated successfully"
                     | SectionPricing _ => "Pricing settings updated successfully"
                     end),
   []).

(** [POST /api/orders/:id/process] up to the point where it awaits
    [generateContent]: either it has responded, or the generation call
    for [order] is in flight. *)
Inductive ProcessStart :=
| Responded (r : Response)
| Generating (orderId : Z) (order : Order).

Definition processBegin (now : Z) (idParam : string) (storage : t)
  : t * ProcessStart * list Call :=
  match JS.parseInt idParam with
  | None => (storage, Responded (json 400 (Message "Invalid order ID")), [])
  | Some orderId =>
      match getOrder storage orderId with
      | None => (storage, Responded (json 404 (Message "Order not found")), [])
      | Some order =>
          if negb (OrderStatus.eqb (status order) OrderStatus.PENDING) then
            (storage,
             Responded (json 400 (Message ("Order is already "
                                           +++ OrderStatus.text (status order)))),
             [])
          else
            let storage1 :=
              fst (updateOrder storage now orderId
                     {| upd_status := Some OrderStatus.PROCESSING; upd_content := None;
                        upd_apiCost := None; upd_stripePaymentIntentId := None |}) in
            (storage1,
             Generating orderId order,
             [SendEmail {| to := customerEmail order;
                           subject := "Your content order is being processed";
                           template := in_progress;
                           data := [("orderId", JsNumber (id order));
                                    ("topic", JsString (topic order))] |};
              CallGenerateContent (topic order) (wordCount order)])
      end
  end.

(** The rest of the handler, once [generateContent] has settled. *)
Definition processEnd (now : Z) (orderId : Z) (order : Order) (settled : Try GenResult)
                      (storage : t) : Outcome :=
  match settled with
  | Returned result =>
      let storage2 :=
        fst (updateOrder storage now orderId
               {| upd_status := Some OrderStatus.COMPLETE;
                  upd_content := Some (result_content result);
                  upd_apiCost := Some (result_cost result);
                  upd_stripePaymentIntentId := None |}) in
      (storage2,
       json 200 (Message "Order processed successfully"),
       [SendEmail {| to := customerEmail order;
                     subject := "Your content is ready";
                     template := completed;
                     data := [("orderId", JsNumber (id order));
                              ("topic", JsString (topic order));
                              ("contentPreview",
                               JsString (JS.substring0 100 (result_content result) +++ "..."));
                              ("viewUrl",
                               JsString (BASE_URL config +++ "/order/"
                                         +++ JS.toString (id order)))] |}])
  | Thrown _ =>
      let storage2 :=
        fst (updateOrder storage now orderId
               {| upd_status := Some OrderStatus.FAILED; upd_content := None;
                  upd_apiCost := None; upd_stripePaymentIntentId := None |}) in
      (storage2,
       json 500 (Message "Content generation failed"),
       [SendEmail {| to := customerEmail order;
                     subject := "There was an issue with your content order";
                     template := failed;
                     data := [("orderId", JsNumber (id order));
                              ("topic", JsString (topic order));
                              ("errorMessage",
                               JsString "We couldn't generate your content due to a technical issue. Please contact support.")] |}])
  end.

(** The whole handler, run without another request in between:
    [now] is the time of the first update, [later] the time at which
    the generation has settled. *)
Definition processRoute (now later : Z) (client : GenerationClient) (idParam : string)
                        (storage : t) : Outcome :=
  match processBegin now idParam storage with
  | (storage1, Responded r, calls) => (storage1, r, calls)
  | (storage1, Generating orderId order, calls) =>
      let '(storage2, r, calls') :=
        processEnd later orderId order (client (topic order) (wordCount order)) storage1 in
      (storage2, r, calls ++ calls')
  end.
End Routes.
End Orders.

(* ================================================================== *)
(** ** server/routes/stripe.ts *)
(* ================================================================== *)

Module Stripe.
Import MemStorage.

Section Routes.
Context {ext : Externals}.
Variable config : Config.

(** The [switch (event.type)] of the webhook, and the acknowledgement
    that follows it. *)
Definition handleEvent (now : Z) (event : StripeEvent) (storage : t) : Outcome :=
  match event with
  | CheckoutSessionCompleted metadata_orderId payment_intent =>
      match JS.parseInt (match metadata_orderId with Some s => s | None => "" end) with
      | None => (storage, json 400 (Message "Invalid order ID"), [])
      | Some orderId =>
          match getOrder storage orderId with
          | None => (storage, json 404 (Message "Order not found"), [])
          | Some order =>
              let storage1 :=
                fst (updateOrder storage now orderId
                       {| upd_status := None; upd_content := None; upd_apiCost := None;
                          upd_stripePaymentIntentId := Some payment_intent |}) in
              (storage1,
               json 200 Received,
               [SendEmail {| to := customerEmail order;
                             subject := "Order Received - Your Content is Being Generated";
                             template := received;
                             data := [("orderId", JsNumber (id order));
                                      ("topic", JsString (topic order));
                                      ("wordCount", JsNumber (wordCount order));
                                      ("amount",
                                       JsString (JS.hundredthsToFixed2 (price order)))] |};
                Fetch "POST" (BASE_URL config +++ "/api/orders/"
                              +++ JS.toString orderId +++ "/process")])
          end
      end
  | PaymentIntentPaymentFailed paymentIntentId =>
      match getOrderByPaymentIntent storage paymentIntentId with
      | Some order =>
          let storage1 :=
            fst (updateOrder storage now (id order)
                   {| upd_status := Some OrderStatus.FAILED; upd_content := None;
                      upd_apiCost := None; upd_stripePaymentIntentId := None |}) in
          (storage1,
           json 200 Received,
           [SendEmail {| to := customerEmail order;
                         subject := "Payment Failed for Your Content Order";
                         template := payment_failed;
                         data := [("orderId", JsNumber (id order));
                                  ("topic", JsString (topic order));
                                  ("errorMessage",
                                   JsString "Your payment could not be processed. Please try again or contact support.")] |}])
      | None => (storage, json 200 Received, [])
      end
  | OtherEvent _ => (storage, json 200 Received, [])
  end.

(** [POST /api/webhook]. *)
Definition webhook (now : Z) (reqBody : string) (signature : option string)
                   (storage : t) : Outcome :=
  match constructEvent reqBody signature (STRIPE_WEBHOOK_SECRET config) with
  | Thrown error =>
      (storage, json 400 (Text ("Webhook Error: " +++ messageOf error)), [])
  | Returned event => handleEvent now event storage
  end.
End Routes.
End Stripe.

(* ================================================================== *)
(** ** server/routes.ts: the registered routes, served one after another *)
(* ================================================================== *)

Inductive Request :=
| PostCreateOrder (now : Z) (reqBody : CreateOrderBody)
| PostWebhook (now : Z) (reqBody : string) (signature : option string)
| PostProcess (now later : Z) (client : GenerationClient) (idParam : string)
| GetExport (now : Z)
| GetSettings
| PatchSettings (newSettings : SettingsSection).

Module Server.
Section Serve.
Context {ext : Externals}.
Variable config : Config.

Definition handle (r : Request) (storage : MemStorage.t) : Outcome :=
  match r with
  | PostCreateOrder now reqBody => Orders.createOrderRoute config now reqBody storage
  | PostWebhook now reqBody signature => Stripe.webhook config now reqBody signature storage
  | PostProcess now later client idParam =>
      Orders.processRoute config now later client idParam storage
  | GetExport now => Orders.exportRoute now storage
  | GetSettings => Orders.getSettingsRoute storage
  | PatchSettings newSettings => Orders.patchSettingsRoute newSettings storage
  end.

(** The store after a sequence of requests, and every call issued on
    the way. *)
Fixpoint serve (rs : list Request) (storage : MemStorage.t) : MemStorage.t * list Call :=
  match rs with
  | [] => (storage, [])
  | r :: rest =>
      let '(storage1, _, calls) := handle r storage in
      let '(storage2, calls') := serve rest storage1 in
      (storage2, calls ++ calls')
  end.
End Serve.
End Server.

(* ================================================================== *)
(** ** Vocabulary of the specification *)
(* ================================================================== *)

(** An [OrderReceived] notification attempt is a [sendEmail] call with the
    template ['received']. *)
Definition isOrderReceived (c : Call) : bool :=
  match c with
  | SendEmail e => match template e with received => true | _ => false end
  | _ => false
  end.

Definition orderReceivedAttempts (calls : list Call) : nat :=
  List.length (filter isOrderReceived calls).

(** An invocation of the Generation Client. *)
Definition isGeneration (c : Call) : bool :=
  match c with
  | CallGenerateContent _ _ => true
  | _ => false
  end.

Definition generationInvocations (calls : list Call) : nat :=
  List.length (filter isGeneration calls).

(** A processing trigger for order [orderId]. *)
Definition processTrigger (config : Config) (orderId : Z) : Call :=
  Fetch "POST" (BASE_URL config +++ "/api/orders/" +++ JS.toString orderId +++ "/process").

(** [content] and [apiCost] are absent while they hold the values an order
    is created with, which are also the values the client renders as
    missing ([order.content ? ... : ...], [order.apiCost ? ... : 'N/A']). *)
Definition contentAbsent (o : Order) : Prop := content o = "".
Definition apiCostAbsent (o : Order) : Prop := apiCost o = 0.

Definition bothAbsentOrBothPresent (o : Order) : Prop :=
  (contentAbsent o /\ apiCostAbsent o) \/ (~ contentAbsent o /\ ~ apiCostAbsent o).

(** Every key of the order map is below the id counter and is the [id] of
    the order stored under it. *)
Definition wellFormed (storage : MemStorage.t) : Prop :=
  Forall (fun kv => fst kv < MemStorage.orderIdCounter storage /\ id (snd kv) = fst kv)
         (MemStorage.orders storage).

(** Newest first. *)
Definition notOlder (a b : Order) : Prop := createdAt b <= createdAt a.

(** The options of a plain paginated listing: no filter. *)
Definition pageOptions (page limit : Z) : ListOptions :=
  {| opt_status := None; opt_page := Some page; opt_limit := Some limit;
     opt_search := None; opt_dateFilter := None |}.

(** The updates that the routes apply to an order. *)
Definition recordPayment (paymentRef : string) : UpdateOrder :=
  {| upd_status := None; upd_content := None; upd_apiCost := None;
     upd_stripePaymentIntentId := Some paymentRef |}.

Definition setStatus (st : OrderStatusType) : UpdateOrder :=
  {| upd_status := Some st; upd_content := None; upd_apiCost := None;
     upd_stripePaymentIntentId := None |}.

Definition setGenerated (result : GenResult) : UpdateOrder :=
  {| upd_status := Some OrderStatus.COMPLETE;
     upd_content := Some (result_content result);
     upd_apiCost := Some (result_cost result);
     upd_stripePaymentIntentId := None |}.

(** What one request can do to the order stored under one id: the
    transition system that the routes implement, read off their code.
    [OrderStep config r before after] relates the entry of the order map
    under some id before and after the request [r]. *)
Inductive OrderStep {ext : Externals} (config : Config)
  : Request -> option Order -> option Order -> Prop :=
| StepNone r entry :
    OrderStep config r entry entry
| StepCreated now reqBody o :
    status o = OrderStatus.PENDING -> content o = "" -> apiCost o = 0 ->
    OrderStep config (PostCreateOrder now reqBody) None (Some o)
| StepPaid now reqBody signature orderRef paymentRef o :
    constructEvent reqBody signature (STRIPE_WEBHOOK_SECRET config)
    = Returned (CheckoutSessionCompleted orderRef paymentRef) ->
    OrderStep config (PostWebhook now reqBody signature)
              (Some o) (Some (MemStorage.applyUpdate o (recordPayment paymentRef) now))
| StepPaymentFailed now reqBody signature paymentIntentId o :
    constructEvent reqBody signature (STRIPE_WEBHOOK_SECRET config)
    = Returned (PaymentIntentPaymentFailed paymentIntentId) ->
    OrderStep config (PostWebhook now reqBody signature)
              (Some o) (Some (MemStorage.applyUpdate o (setStatus OrderStatus.FAILED) now))
| StepGenerated now later client idParam o result :
    status o = OrderStatus.PENDING ->
    client (topic o) (wordCount o) = Returned result ->
    OrderStep config (PostProcess now later client idParam)
              (Some o)
              (Some (MemStorage.applyUpdate
                       (MemStorage.applyUpdate o (setStatus OrderStatus.PROCESSING) now)
                       (setGenerated result) later))
| StepGenerationFailed now later client idParam o e :
    status o = OrderStatus.PENDING ->
    client (topic o) (wordCount o) = Thrown e ->
    OrderStep config (PostProcess now later client idParam)
              (Some o)
              (Some (MemStorage.applyUpdate
                       (MemStorage.applyUpdate o (setStatus OrderStatus.PROCESSING) now)
                       (setStatus OrderStatus.FAILED) later)).

(** [content] and [apiCost] of [o] are what a generation requested in [rs]
    returned for the order. *)
Definition generatedBy (rs : list Request) (o : Order) : Prop :=
  exists now later client idParam result,
    In (PostProcess now later client idParam) rs
    /\ client (topic o) (wordCount o) = Returned result
    /\ content o = result_content result
    /\ apiCost o = result_cost result.

(** Every generation requested in [rs] that succeeds returns some text
    and a cost that is not zero. *)
Definition generationsProductive (rs : list Request) : Prop :=
  forall now later client idParam topic_ wordCount_ result,
    In (PostProcess now later client idParam) rs ->
    client topic_ wordCount_ = Returned result ->
    result_content result <> "" /\ result_cost result <> 0.

(** [part] occurs in [whole]; and [search] occurs in [whole] up to letter
    case: some part of [whole] differs from [search] by letter case only. *)
Definition partOf (part whole : string) : Prop :=
  exists before after, whole = before +++ part +++ after.

Definition partOfIgnoringCase (search whole : string) : Prop :=
  exists before part after,
    whole = before +++ part +++ after /\ JS.toLowerCase part = JS.toLowerCase search.




(** The options of a listing that only searches. *)
Definition searchOptions (search : string) : ListOptions :=
  {| opt_status := None; opt_page := None; opt_limit := None;
     opt_search := Some search; opt_dateFilter := None |}.

(** Reading one CSV record (RFC 4180): fields are separated by commas; a
    field that starts with a double quote runs to the closing quote, a
    doubled quote inside it standing for one quote; the record ends at the
    first line feed outside quotes. *)
Module Csv.
Inductive State := FieldStart | Unquoted | Quoted | QuoteSeen.

(** [fields] are the finished fields in reverse, [cur] is the current
    field in reverse. *)
Fixpoint scan (st : State) (cur : list ascii) (fields : list string) (s : string)
  : list string :=
  let emit := string_of_list_ascii (rev cur) :: fields in
  match s with
  | EmptyString => rev emit
  | String c r =>
      let n := nat_of_ascii c in
      match st with
      | FieldStart =>
          if (n =? 34)%nat then scan Quoted cur fields r
          else if (n =? 44)%nat then scan FieldStart [] emit r
          else if (n =? 10)%nat then rev emit
          else scan Unquoted (c :: cur) fields r
      | Unquoted =>
          if (n =? 44)%nat then scan FieldStart [] emit r
          else if (n =? 10)%nat then rev emit
          else scan Unquoted (c :: cur) fields r
      | Quoted =>
          if (n =? 34)%nat then scan QuoteSeen cur fields r
          else scan Quoted (c :: cur) fields r
      | QuoteSeen =>
          if (n =? 34)%nat then scan Quoted (c :: cur) fields r
          else if (n =? 44)%nat then scan FieldStart [] emit r
          else if (n =? 10)%nat then rev emit
          else scan Unquoted (c :: cur) fields r
      end
  end.

Definition parseRecord (s : string) : list string := scan FieldStart [] [] s.


End Csv.

(** The eight values that a row of the export stands for. *)
Definition exportedValues {ext : Externals} (o : Order) : list string :=
  [JS.toString (id o); customerEmail o; topic o; JS.toString (wordCount o);
   OrderStatus.text (status o); JS.hundredthsToString (price o);
   JS.hundredthsToString (apiCost o); toISOString (createdAt o)].

(** A payment has been recorded on the order: the webhook has stored the
    payment reference of a completed checkout.  (An order is created with
    the empty reference.) *)
Definition paymentRecorded (o : Order) : Prop := stripePaymentIntentId o <> "".

(* ================================================================== *)
(** ** Requests that overlap *)
(* ================================================================== *)

(** A handler runs without interruption until it waits for the outside
    world (the methods of [MemStorage] resolve at once, and [sendEmail] and
    [fetch] are not awaited).  The handlers that write to the store do all
    their writing before they wait, except [POST /api/orders/:id/process]:
    it sets the status to [processing], awaits [generateContent], and writes
    the outcome afterwards, from the [orderId] and [order] it holds, without
    reading the store again.  Other requests are served in between.  An [Event] is
    what the server does in one uninterrupted stretch: a whole request, the
    first part of a processing request, or the second part of the [n]-th
    waiting processing request once its generation has settled. *)
Inductive Event :=
| Whole (r : Request)
| ProcessStarts (now : Z) (idParam : string)
| GenerationSettles (later : Z) (n : nat) (settled : Try GenResult).

Module Overlap.
Import MemStorage.

(** The store, and the processing requests that wait for their
    generation, each with the [orderId] and the [order] it has read. *)
Record State := {
  store : MemStorage.t;
  awaiting : list (Z * Order)
}.

Definition initial : State := {| store := MemStorage.new; awaiting := [] |}.

Section Run.
Context {ext : Externals}.
Variable config : Config.

Definition step (e : Event) (st : State) : State * list Call :=
  match e with
  | Whole r =>
      let '(storage', _, calls) := Server.handle config r (store st) in
      ({| store := storage'; awaiting := awaiting st |}, calls)
  | ProcessStarts now idParam =>
      match Orders.processBegin now idParam (store st) with
      | (storage', Orders.Responded _, calls) =>
          ({| store := storage'; awaiting := awaiting st |}, calls)
      | (storage', Orders.Generating orderId order, calls) =>
          ({| store := storage'; awaiting := awaiting st ++ [(orderId, order)] |}, calls)
      end
  | GenerationSettles later n settled =>
      match nth_error (awaiting st) n with
      | None => (st, [])
      | Some (orderId, order) =>
          let '(storage', _, calls) :=
            Orders.processEnd config later orderId order settled (store st) in
          ({| store := storage';
              awaiting := firstn n (awaiting st) ++ skipn (S n) (awaiting st) |},
           calls)
      end
  end.

Fixpoint run (es : list Event) (st : State) : State * list Call :=
  match es with
  | [] => (st, [])
  | e :: rest =>
      let '(st1, calls) := step e st in
      let '(st2, calls') := run rest st1 in
      (st2, calls ++ calls')
  end.

(** The order that [e] marks as failed in [storage] on account of its
    payment: [e] is a webhook delivery whose verified event is a payment
    failure, and [getOrderByPaymentIntent] finds an order for its
    reference. *)
Definition failedByPayment (e : Event) (storage : MemStorage.t) : option Z :=
  match e with
  | Whole (PostWebhook _ reqBody signature) =>
      match constructEvent reqBody signature (STRIPE_WEBHOOK_SECRET config) with
      | Returned (PaymentIntentPaymentFailed paymentIntentId) =>
          option_map id (getOrderByPaymentIntent storage paymentIntentId)
      | _ => None
      end
  | _ => None
  end.

(** No event of [es], run from [st], is a payment failure that is matched
    to the order [orderId]. *)
Fixpoint sparesPayment (orderId : Z) (es : list Event) (st : State) : bool :=
  match es with
  | [] => true
  | e :: rest =>
      match failedByPayment e (store st) with
      | Some hit => negb (hit =? orderId)
      | None => true
      end
      && sparesPayment orderId rest (fst (step e st))
  end.
End Run.

(** Whether a processing request for [orderId] waits for its
    generation. *)
Definition inFlight (orderId : Z) (st : State) : Prop :=
  In orderId (map fst (awaiting st)).

(** What holds of every state that the events reach: the store is well
    formed, no two waiting requests are for the same order, and the order
    of a waiting request is stored with status [processing] or [failed]. *)
Definition steady (st : State) : Prop :=
  wellFormed (store st)
  /\ NoDup (map fst (awaiting st))
  /\ Forall (fun w =>
               exists stored,
                 getOrder (store st) (fst w) = Some stored
                 /\ (status stored = OrderStatus.PROCESSING
                     \/ status stored = OrderStatus.FAILED))
            (awaiting st).

End Overlap.

(* ================================================================== *)
(** ** Fixtures for the concrete scenarios *)
(* ================================================================== *)

Module Sample.

(** The payment-succeeded event for order 1, and the payment-failed
    event for the same payment. *)
Definition paid : StripeEvent := CheckoutSessionCompleted (Some "1") "pi_1".
Definition paymentFailed : StripeEvent := PaymentIntentPaymentFailed "pi_1".

(** Stand-ins for the third-party functions: a signature check that
    accepts a payload when the signature header repeats the secret, and
    reads the payloads ["paid"] and ["failed"] as the two events above;
    an e-mail test that asks for an at sign; no calendar arithmetic; the
    timestamp printed as a number. *)
Definition externals : Externals := {|
  constructEvent := fun reqBody signature secret =>
    match signature with
    | Some sig =>
        if String.eqb sig secret
        then Returned (if String.eqb reqBody "paid" then paid
                       else if String.eqb reqBody "failed" then paymentFailed
                       else OtherEvent reqBody)
        else Thrown (ErrorOf "No signatures found matching the expected signature for payload")
    | None => Thrown (ErrorOf "No stripe-signature header value was provided")
    end;
  isEmail := fun s => JS.includes "@" s;
  filterStartDate := fun _ now => now;
  toISOString := JS.toString
|}.

(** The same with a second customer: the payloads ["paid_2"] and
    ["failed_2"] are the payment of order 2 and its failure. *)
Definition twoCustomers : Externals := {|
  constructEvent := fun reqBody signature secret =>
    match constructEvent (Externals := externals) reqBody signature secret with
    | Returned (OtherEvent type) =>
        Returned (if String.eqb type "paid_2"
                  then CheckoutSessionCompleted (Some "2") "pi_2"
                  else if String.eqb type "failed_2"
                  then PaymentIntentPaymentFailed "pi_2"
                  else OtherEvent type)
    | settled => settled
    end;
  isEmail := isEmail (Externals := externals);
  filterStartDate := filterStartDate (Externals := externals);
  toISOString := toISOString (Externals := externals)
|}.

Definition config : Config := {|
  NODE_ENV := Some "development";
  STRIPE_WEBHOOK_SECRET := "whsec_test";
  PRICE_PER_WORD_CENTS := 5;
  SMTP_HOST := "";
  SMTP_PORT := 587;
  SMTP_USER := "";
  SMTP_PASSWORD := "";
  SMTP_SENDER := "noreply@contentcraft.com";
  BASE_URL := "http://localhost:5000"
|}.

(** The order of the specification's scenarios. *)
Definition solarPanels : CreateOrderBody := {|
  body_topic := JsString "solar panels";
  body_wordCount := JsNumber 500;
  body_customerEmail := JsString "a@b.com"
|}.

Definition solarPanelsDraft : InsertOrder := {|
  ins_topic := "solar panels";
  ins_wordCount := 500;
  ins_price := 2500;
  ins_customerEmail := "a@b.com";
  ins_stripePaymentIntentId := ""
|}.

(** A store that holds that order alone, created at time 1000. *)
Definition oneOrder : MemStorage.t :=
  fst (MemStorage.createOrder MemStorage.new 1000 solarPanelsDraft).

(** The store after the payment of order 1 has been recorded: the order
    is still pending and carries the reference ["pi_1"]. *)
Definition paidOrder : MemStorage.t :=
  fst (fst (Stripe.handleEvent config 2000 paid oneOrder)).


(** A generation that succeeds with the scenario's values. *)
Definition generationOk : GenerationClient :=
  fun _ _ => Returned {| result_content := "..."; result_cost := 120 |}.

(** The store after payment and a successful generation: order 1 is
    complete and carries the payment reference ["pi_1"]. *)
Definition completed : MemStorage.t :=
  let '(s1, _, _) := Stripe.handleEvent config 2000 paid oneOrder in
  let '(s2, _, _) := Orders.processRoute config 3000 4000 generationOk "1" s1 in
  s2.

(** A chat completion without text (a refusal, say) that still reports
    its prompt tokens. *)
Definition emptyCompletion : string -> Z -> Try ChatCompletion :=
  fun _ _ => Returned {| message_content := None; usage := Some (120, 0) |}.

(** [n] orders created at times [1 .. n]. *)
Fixpoint filled (n : nat) : MemStorage.t :=
  match n with
  | O => MemStorage.new
  | S k => fst (MemStorage.createOrder (filled k) (Z.of_nat n) solarPanelsDraft)
  end.

(** Orders whose e-mail address holds a comma: bare, and inside a
    quoted local part (RFC 5322 allows the latter). *)
Definition commaEmailDraft : InsertOrder := {|
  ins_topic := "solar panels";
  ins_wordCount := 500;
  ins_price := 2500;
  ins_customerEmail := "doe,j@example.com";
  ins_stripePaymentIntentId := ""
|}.

Definition quotedEmailDraft : InsertOrder := {|
  ins_topic := "solar panels";
  ins_wordCount := 500;
  ins_price := 2500;
  ins_customerEmail := dquote +++ "doe,j" +++ dquote +++ "@example.com";
  ins_stripePaymentIntentId := ""
|}.

(** A store whose administrator has saved live credentials. *)
Definition withSecrets : MemStorage.t :=
  let '(s1, _, _) :=
    Orders.patchSettingsRoute
      (SectionApiKeys {| openaiApiKey := Some "sk-live-123";
                         stripeSecretKey := Some "sk_live_456";
                         stripeWebhookSecret := Some "whsec_789" |})
      MemStorage.new in
  let '(s2, _, _) :=
    Orders.patchSettingsRoute
      (SectionEmail {| smtpHost := Some "smtp.example.com"; smtpPort := Some "587";
                       smtpUser := Some "mailer"; smtpPassword := Some "hunter2";
                       senderEmail := Some "noreply@contentcraft.com" |})
      s1 in
  s2.

End Sample.

(* ================================================================== *)
(** ** server/routes/orders.ts and server/routes/stripe.ts: the routes
       that only read the store *)
(* ================================================================== *)

(** The answers of these routes. *)
Inductive Reply :=
| ReplyMessage (code : Z) (message : string)
| ReplyOrder (order : Order)
| ReplyRedirect (code : Z) (location : string).

(** The parameters of [stripe.checkout.sessions.create] that depend on the
    order. *)
Record SessionParams := {
  product_name : string;
  product_description : string;
  unit_amount : Z;
  success_url : string;
  cancel_url : string;
  customer_email : string;
  metadata_orderId : string
}.

Module Queries.
Import MemStorage.

(** [GET /api/orders/:id]. *)
Definition getOrderRoute (idParam : string) (storage : t) : Reply :=
  match JS.parseInt idParam with
  | None => ReplyMessage 400 "Invalid order ID"
  | Some orderId =>
      match getOrder storage orderId with
      | None => ReplyMessage 404 "Order not found"
      | Some order => ReplyOrder order
      end
  end.

Section Checkout.
(** [stripe.checkout.sessions.create]: the [url] of the session (possibly
    [null]), or a throw; and the two URLs of the configuration that the
    route uses. *)
Variable createSession : SessionParams -> Try (option string).
Variable STRIPE_SUCCESS_URL : string.
Variable STRIPE_CANCEL_URL : string.

Definition sessionParams (order : Order) : SessionParams := {|
  product_name := "SEO Content: " +++ topic order;
  product_description := JS.toString (wordCount order) +++ " words of SEO optimized content";
  unit_amount := price order;
  success_url := STRIPE_SUCCESS_URL +++ "?order_id=" +++ JS.toString (id order);
  cancel_url := STRIPE_CANCEL_URL;
  customer_email := customerEmail order;
  metadata_orderId := JS.toString (id order)
|}.

(** [GET /api/checkout/:orderId]. *)
Definition checkoutRoute (orderIdParam : string) (storage : t) : Reply :=
  match JS.parseInt orderIdParam with
  | None => ReplyMessage 400 "Invalid order ID"
  | Some orderId =>
      match getOrder storage orderId with
      | None => ReplyMessage 404 "Order not found"
      | Some order =>
          match createSession (sessionParams order) with
          | Returned url =>
              ReplyRedirect 303 (match url with Some u => u | None => "" end)
          | Thrown _ => ReplyMessage 500 "Error creating checkout session"
          end
      end
  end.
End Checkout.

End Queries.

(* ================================================================== *)
(** ** The routes in the order in which they are registered *)
(* ================================================================== *)

Module Router.

Inductive Method := GET | POST | PATCH.

Definition method_eqb (a b : Method) : bool :=
  match a, b with
  | GET, GET | POST, POST | PATCH, PATCH => true
  | _, _ => false
  end.

(** A segment of a route path: literal text, or a named parameter
    ([:id]). *)
Inductive Segment :=
| Lit (text : string)
| Param (name : string).

Inductive RouteName :=
| AuthLogin | AuthLogout | AuthStatus | AuthChangePassword
| OrderCreate | OrderById | OrderList | OrderRecent | OrderExport
| StatsGet | SettingsGet | SettingsApiKeys | SettingsEmail | SettingsPricing
| OrderProcess
| CheckoutGet | WebhookPost | OrderSuccess.

(** [registerRoutes]: [registerAuthRoutes], then [registerOrderRoutes],
    then [registerStripeRoutes], each route in the order of its [app.get],
    [app.post] or [app.patch] call. *)
Definition routes : list (Method * list Segment * RouteName) := [
  (POST, [Lit "api"; Lit "auth"; Lit "login"], AuthLogin);
  (POST, [Lit "api"; Lit "auth"; Lit "logout"], AuthLogout);
  (GET, [Lit "api"; Lit "auth"; Lit "status"], AuthStatus);
  (POST, [Lit "api"; Lit "auth"; Lit "change-password"], AuthChangePassword);
  (POST, [Lit "api"; Lit "orders"; Lit "create"], OrderCreate);
  (GET, [Lit "api"; Lit "orders"; Param "id"], OrderById);
  (GET, [Lit "api"; Lit "orders"], OrderList);
  (GET, [Lit "api"; Lit "orders"; Lit "recent"], OrderRecent);
  (GET, [Lit "api"; Lit "orders"; Lit "export"], OrderExport);
  (GET, [Lit "api"; Lit "stats"], StatsGet);
  (GET, [Lit "api"; Lit "settings"], SettingsGet);
  (PATCH, [Lit "api"; Lit "settings"; Lit "api-keys"], SettingsApiKeys);
  (PATCH, [Lit "api"; Lit "settings"; Lit "email"], SettingsEmail);
  (PATCH, [Lit "api"; Lit "settings"; Lit "pricing"], SettingsPricing);
  (POST, [Lit "api"; Lit "orders"; Param "id"; Lit "process"], OrderProcess);
  (GET, [Lit "api"; Lit "checkout"; Param "orderId"], CheckoutGet);
  (POST, [Lit "api"; Lit "webhook"], WebhookPost);
  (GET, [Lit "order"; Lit "success"], OrderSuccess)
].

(** How Express matches the path of a request against a route path (its
    defaults: letter case is ignored, one trailing slash is allowed, a
    parameter stands for one non-empty segment), and which handler it
    runs: the first registered route of the method that matches, since
    none of the handlers above passes the request on. *)
Fixpoint matchSegments (pattern : list Segment) (segments : list string)
  : option (list (string * string)) :=
  match pattern, segments with
  | [], [] => Some []
  | Lit text :: pattern', s :: segments' =>
      if String.eqb (JS.toLowerCase text) (JS.toLowerCase s)
      then matchSegments pattern' segments'
      else None
  | Param name :: pattern', s :: segments' =>
      if String.eqb s "" then None
      else option_map (cons (name, s)) (matchSegments pattern' segments')
  | _, _ => None
  end.

(** The segments of a path between its slashes; [cur] is the current
    segment in reverse. *)
Fixpoint splitSlash (cur : list ascii) (path : string) : list string :=
  match path with
  | EmptyString => [string_of_list_ascii (rev cur)]
  | String c r =>
      if Ascii.eqb c "/" then string_of_list_ascii (rev cur) :: splitSlash [] r
      else splitSlash (c :: cur) r
  end.

(** The request path without its leading slash and without one trailing
    slash. *)
Definition segmentsOf (path : string) : list string :=
  let all := splitSlash [] path in
  let body := match all with "" :: r => r | _ => all end in
  match rev body with
  | "" :: r => rev r
  | _ => body
  end.

Definition dispatch (method : Method) (path : string)
  : option (RouteName * list (string * string)) :=
  let segments := segmentsOf path in
  let try_ (route : Method * list Segment * RouteName) :=
    let '(m, pattern, name) := route in
    if method_eqb m method
    then option_map (pair name) (matchSegments pattern segments)
    else None in
  fold_right (fun route rest => match try_ route with Some hit => Some hit | None => rest end)
             None routes.

End Router.

(* ================================================================== *)
(** ** server/config.ts: the check of the environment *)
(* ================================================================== *)

Module ConfigCheck.

(** [process.env]. *)
Definition Env := string -> option string.

(** [!process.env[envVar]] is false. *)
Definition present (env : Env) (envVar : string) : bool :=
  match env envVar with
  | Some v => truthyString v
  | None => false
  end.

Definition production (env : Env) : bool :=
  match env "NODE_ENV" with
  | Some v => String.eqb v "production"
  | None => false
  end.

Definition requiredEnvVars (env : Env) : list string :=
  ["NODE_ENV"; "SESSION_SECRET"; "DATABASE_URL"]
  ++ (if production env
      then ["OPENAI_API_KEY"; "STRIPE_SECRET_KEY"; "STRIPE_WEBHOOK_SECRET";
            "SMTP_HOST"; "SMTP_USER"; "SMTP_PASSWORD"]
      else []).

Definition missingMessage (envVar : string) : string :=
  "Missing required environment variable: " +++ envVar.

(** The [for] loop over [requiredEnvVars]: it throws at the first missing
    variable in production and warns otherwise; [warnings] are the lines
    written with [console.warn] so far. *)
Fixpoint check (env : Env) (vars : list string) (warnings : list string)
  : Try (list string) :=
  match vars with
  | [] => Returned warnings
  | envVar :: rest =>
      if present env envVar then check env rest warnings
      else if production env then Thrown (ErrorOf (missingMessage envVar))
      else check env rest (warnings ++ ["WARNING: " +++ missingMessage envVar])
  end.

(** Loading the module: the warnings, or the error thrown. *)
Definition validate (env : Env) : Try (list string) :=
  check env (requiredEnvVars env) [].

End ConfigCheck.

(* ================================================================== *)
(** ** Properties *)
(* ================================================================== *)

Unset Implicit Arguments.

(** *** The order map *)

Section MapFacts.
Variable V : Type.
Implicit Types (m : JS.Map V) (k : Z) (v : V).

Lemma get_set_same m k v : JS.get k (JS.set k v m) = Some v.
Proof.
  induction m as [|[k' v'] m IH]; simpl.
  - now rewrite Z.eqb_refl.
  - destruct (k =? k') eqn:E; simpl; rewrite ?E, ?Z.eqb_refl; auto.
Qed.

Lemma get_set_other m k k' v : k' <> k -> JS.get k' (JS.set k v m) = JS.get k' m.
Proof.
  intros Hne.
  induction m as [|[k0 v0] m IH]; simpl.
  - destruct (k' =? k) eqn:E; [apply Z.eqb_eq in E; contradiction | reflexivity].
  - destruct (k =? k0) eqn:E; simpl.
    + apply Z.eqb_eq in E; subst k0.
      destruct (k' =? k) eqn:E'; [apply Z.eqb_eq in E'; contradiction | reflexivity].
    + destruct (k' =? k0); auto.
Qed.

Lemma get_In m k v : JS.get k m = Some v -> In (k, v) m.
Proof.
  induction m as [|[k0 v0] m IH]; simpl; [discriminate|].
  destruct (k =? k0) eqn:E.
  - intros [= ->]. apply Z.eqb_eq in E; subst; auto.
  - auto.
Qed.

Lemma In_set m k v kv : In kv (JS.set k v m) -> kv = (k, v) \/ In kv m.
Proof.
  induction m as [|[k0 v0] m IH]; simpl.
  - intros [<-|[]]; auto.
  - destruct (k =? k0); simpl; intros [<-|H]; auto.
    destruct (IH H); auto.
Qed.

(** A key that is not in the map is appended. *)
Lemma set_fresh m k v : Forall (fun kv => fst kv <> k) m -> JS.set k v m = m ++ [(k, v)].
Proof.
  induction 1 as [|[k0 v0] m Hk _ IH]; simpl; [reflexivity|].
  simpl in Hk.
  destruct (k =? k0) eqn:E; [apply Z.eqb_eq in E; congruence|].
  now rewrite IH.
Qed.
End MapFacts.

(** *** Notification client *)

(** C9.  The notification send operation never raises to its caller,
    whatever the recipient, the template and the template data, and however
    the transport behaves: the promise that [sendEmail] returns is always
    fulfilled, every failure of the delivery being caught and logged.  When
    the environment is not production and the SMTP host, user or password is
    not configured, the call returns at once without building a transport or
    rendering the message. *)
Theorem sendEmail_never_raises :
  forall createTransport getEmailContent config emailData,
    fst (Email.sendEmail createTransport getEmailContent config emailData) = Returned tt
    /\ (Email.notProduction config = true ->
        Email.smtpUnconfigured config = true ->
        Email.sendEmail createTransport getEmailContent config emailData
        = (Returned tt,
           [ConsoleLog "Email sending skipped in development mode (SMTP not configured)";
            ConsoleLogData "Would have sent:" emailData])).
Proof.
  intros createTransport getEmailContent config emailData.
  unfold Email.sendEmail.
  split.
  - destruct (Email.notProduction config && Email.smtpUnconfigured config); [reflexivity|].
    destruct (Email.deliver createTransport getEmailContent config emailData); reflexivity.
  - intros -> ->. reflexivity.
Qed.

Lemma sendEmail_never_raises_witness :
  let failing : TransportOptions -> Try Transport := fun _ => Thrown (ErrorOf "ECONNREFUSED") in
  let render : EmailTemplate -> list (string * JsValue) -> Try string := fun _ _ => Returned "" in
  let mail := {| to := "a@b.com"; subject := "Your content is ready";
                 template := completed; data := [] |} in
  Email.sendEmail failing render Sample.config mail
  = (Returned tt,
     [ConsoleLog "Email sending skipped in development mode (SMTP not configured)";
      ConsoleLogData "Would have sent:" mail]).
Proof.
  intros failing render mail.
  apply (sendEmail_never_raises failing render Sample.config mail); reflexivity.
Defined.

(** *** Payment webhook *)

(** C6.  A webhook payload whose signature does not verify is answered with
    status 400 and nothing else happens: the response is the same for every
    store (no order is looked up), the store is returned as it was, and no
    call (notification, processing trigger) is issued, so the payload never
    reaches the [switch] over the event type. *)
Theorem bad_signature_rejected :
  forall (ext : Externals) config now reqBody signature error,
    constructEvent reqBody signature (STRIPE_WEBHOOK_SECRET config) = Thrown error ->
    forall storage,
      Stripe.webhook config now reqBody signature storage
      = (storage, json 400 (Text ("Webhook Error: " +++ messageOf error)), []).
Proof.
  intros ext config now reqBody signature error Hbad storage.
  unfold Stripe.webhook. now rewrite Hbad.
Qed.

Lemma bad_signature_rejected_witness :
  Stripe.webhook (ext := Sample.externals) Sample.config 2000 "paid" (Some "forged")
                 Sample.oneOrder
  = (Sample.oneOrder,
     json 400 (Text "Webhook Error: No signatures found matching the expected signature for payload"),
     []).
Proof.
  apply (bad_signature_rejected Sample.externals Sample.config 2000 "paid" (Some "forged")
           (ErrorOf "No signatures found matching the expected signature for payload")).
  reflexivity.
Defined.

(** *** Settings query *)

(** What the handler sends is the stored object after its two
    assignments: response and store cannot differ. *)
Lemma getSettingsRoute_sends_stored storage :
  snd (fst (Orders.getSettingsRoute storage))
  = json 200 (SettingsJson
                (MemStorage.getSettings (fst (fst (Orders.getSettingsRoute storage))))).
Proof. reflexivity. Qed.

(** A stored API key that is set is the mask after one query. *)
Lemma getSettingsRoute_masks_stored_key storage keys :
  apiKeys (MemStorage.getSettings storage) = Some keys ->
  Orders.truthyField (openaiApiKey keys) = true ->
  option_map openaiApiKey
             (apiKeys (MemStorage.getSettings (fst (fst (Orders.getSettingsRoute storage)))))
  = Some (Some Orders.apiKeyMask).
Proof.
  intros Hk Ht. unfold Orders.getSettingsRoute. rewrite Hk. cbn [fst snd].
  match goal with
  | |- context [match email ?s with _ => _ end] => destruct (email s) as [e|]
  end.
  - destruct (Orders.truthyField (smtpPassword e)); simpl; unfold Orders.maskKey;
      now rewrite Ht.
  - simpl. unfold Orders.maskKey. now rewrite Ht.
Qed.

(** C10.  On the in-memory store the settings query does not leave the
    stored settings unchanged: the handler masks the object that
    [getSettings] returned, which is the stored object, so after one query
    of a store holding live credentials the stored API keys and SMTP
    password are the mask strings, and the original values are gone also
    for every later read. *)
Theorem settings_query_overwrites_stored_secrets :
  let '(storage', response, _) := Orders.getSettingsRoute Sample.withSecrets in
  let before := MemStorage.getSettings Sample.withSecrets in
  let after := MemStorage.getSettings storage' in
  option_map openaiApiKey (apiKeys before) = Some (Some "sk-live-123")
  /\ option_map smtpPassword (email before) = Some (Some "hunter2")
  /\ option_map openaiApiKey (apiKeys after) = Some (Some Orders.apiKeyMask)
  /\ option_map stripeSecretKey (apiKeys after) = Some (Some Orders.apiKeyMask)
  /\ option_map stripeWebhookSecret (apiKeys after) = Some (Some Orders.apiKeyMask)
  /\ option_map smtpPassword (email after) = Some (Some Orders.passwordMask)
  /\ storage' <> Sample.withSecrets
  /\ response = json 200 (SettingsJson after).
Proof.
  vm_compute. repeat split; try reflexivity. discriminate.
Qed.

(** *** CSV export *)

Section CsvFacts.
Import Csv.
Implicit Types (f rest : string) (cur : list ascii) (fields : list string).















End CsvFacts.

(** The export writes the customer e-mail as it is stored, without
    quoting or escaping (the topic is quoted and its quotes are doubled).
    The store itself takes any string as an address: were an address with
    a comma stored, its row would read back as nine fields instead of
    eight, and an address with a quoted local part would lose its quotes.
    That the rows of the stored orders read back rests on the validation
    of the creation route, which is the only caller of [createOrder]. *)
Remark export_leaves_email_unescaped :
  let comma := snd (MemStorage.createOrder Sample.oneOrder 2000 Sample.commaEmailDraft) in
  let quoted := snd (MemStorage.createOrder Sample.oneOrder 2000 Sample.quotedEmailDraft) in
  let row := Orders.csvRow (ext := Sample.externals) in
  let values := exportedValues (ext := Sample.externals) in
  row comma = "2,doe,j@example.com," +++ dquote +++ "solar panels" +++ dquote
              +++ ",500,pending,25,0,2000" +++ newline
  /\ Csv.parseRecord (row comma)
     = ["2"; "doe"; "j@example.com"; "solar panels"; "500"; "pending"; "25"; "0"; "2000"]
  /\ Csv.parseRecord (row comma) <> values comma
  /\ Csv.parseRecord (row quoted)
     = ["2"; "doe,j@example.com"; "solar panels"; "500"; "pending"; "25"; "0"; "2000"]
  /\ Csv.parseRecord (row quoted) <> values quoted.
Proof.
  vm_compute. repeat split; try reflexivity; discriminate.
Qed.

(** *** Reading and updating one order *)

Lemma updateOrder_found storage now orderId updateData order :
  MemStorage.getOrder storage orderId = Some order ->
  MemStorage.updateOrder storage now orderId updateData
  = ({| MemStorage.orders :=
          JS.set orderId (MemStorage.applyUpdate order updateData now)
                 (MemStorage.orders storage);
        MemStorage.settings := MemStorage.settings storage;
        MemStorage.orderIdCounter := MemStorage.orderIdCounter storage |},
     Some (MemStorage.applyUpdate order updateData now)).
Proof.
  unfold MemStorage.getOrder, MemStorage.updateOrder. now intros ->.
Qed.

Lemma updateOrder_missing storage now orderId updateData :
  MemStorage.getOrder storage orderId = None ->
  MemStorage.updateOrder storage now orderId updateData = (storage, None).
Proof.
  unfold MemStorage.getOrder, MemStorage.updateOrder. now intros ->.
Qed.

Lemma getOrder_updateOrder_same storage now orderId updateData order :
  MemStorage.getOrder storage orderId = Some order ->
  MemStorage.getOrder (fst (MemStorage.updateOrder storage now orderId updateData)) orderId
  = Some (MemStorage.applyUpdate order updateData now).
Proof.
  intros H. rewrite (updateOrder_found _ _ _ _ _ H). unfold MemStorage.getOrder. simpl.
  apply get_set_same.
Qed.

Lemma getOrder_updateOrder_other storage now orderId updateData other :
  other <> orderId ->
  MemStorage.getOrder (fst (MemStorage.updateOrder storage now orderId updateData)) other
  = MemStorage.getOrder storage other.
Proof.
  intros Hne. unfold MemStorage.updateOrder.
  destruct (JS.get orderId (MemStorage.orders storage)) eqn:E; simpl; [|reflexivity].
  unfold MemStorage.getOrder. simpl. now apply get_set_other.
Qed.

Lemma status_eqb_eq a b : OrderStatus.eqb a b = true <-> a = b.
Proof. destruct a, b; simpl; split; congruence. Qed.

(** *** Order creation *)




(** *** Processing *)

Lemma processBegin_not_pending now idParam orderId order storage :
  JS.parseInt idParam = Some orderId ->
  MemStorage.getOrder storage orderId = Some order ->
  status order <> OrderStatus.PENDING ->
  Orders.processBegin now idParam storage
  = (storage,
     Orders.Responded
       (json 400 (Message ("Order is already " +++ OrderStatus.text (status order)))),
     []).
Proof.
  intros Hid Hget Hst. unfold Orders.processBegin. rewrite Hid, Hget.
  destruct (OrderStatus.eqb (status order) OrderStatus.PENDING) eqn:E; [|reflexivity].
  apply status_eqb_eq in E. contradiction.
Qed.

Lemma processBegin_pending now idParam orderId order storage :
  JS.parseInt idParam = Some orderId ->
  MemStorage.getOrder storage orderId = Some order ->
  status order = OrderStatus.PENDING ->
  exists calls,
    Orders.processBegin now idParam storage
    = (fst (MemStorage.updateOrder storage now orderId
              {| upd_status := Some OrderStatus.PROCESSING; upd_content := None;
                 upd_apiCost := None; upd_stripePaymentIntentId := None |}),
       Orders.Generating orderId order, calls)
    /\ generationInvocations calls = 1%nat.
Proof.
  intros Hid Hget Hst. unfold Orders.processBegin. rewrite Hid, Hget, Hst. simpl.
  eexists. split; reflexivity.
Qed.

Lemma processEnd_settles config now orderId order order1 settled storage :
  MemStorage.getOrder storage orderId = Some order1 ->
  exists storage' r calls order',
    Orders.processEnd config now orderId order settled storage = (storage', r, calls)
    /\ generationInvocations calls = 0%nat
    /\ MemStorage.getOrder storage' orderId = Some order'
    /\ (status order' = OrderStatus.COMPLETE \/ status order' = OrderStatus.FAILED).
Proof.
  intros Hget. unfold Orders.processEnd.
  destruct settled as [result|e].
  - eexists _, _, _, _. split; [reflexivity|]. split; [reflexivity|].
    split; [apply getOrder_updateOrder_same; exact Hget|]. now left.
  - eexists _, _, _, _. split; [reflexivity|]. split; [reflexivity|].
    split; [apply getOrder_updateOrder_same; exact Hget|]. now right.
Qed.

Lemma generationInvocations_app c1 c2 :
  generationInvocations (c1 ++ c2) = (generationInvocations c1 + generationInvocations c2)%nat.
Proof.
  unfold generationInvocations. now rewrite filter_app, length_app.
Qed.

Lemma processRoute_not_pending config now later client idParam orderId order storage :
  JS.parseInt idParam = Some orderId ->
  MemStorage.getOrder storage orderId = Some order ->
  status order <> OrderStatus.PENDING ->
  Orders.processRoute config now later client idParam storage
  = (storage,
     json 400 (Message ("Order is already " +++ OrderStatus.text (status order))),
     []).
Proof.
  intros Hid Hget Hst. unfold Orders.processRoute.
  now rewrite (processBegin_not_pending now _ _ _ _ Hid Hget Hst).
Qed.

Lemma processRoute_pending config now later client idParam orderId order storage :
  JS.parseInt idParam = Some orderId ->
  MemStorage.getOrder storage orderId = Some order ->
  status order = OrderStatus.PENDING ->
  exists storage' r calls order',
    Orders.processRoute config now later client idParam storage = (storage', r, calls)
    /\ generationInvocations calls = 1%nat
    /\ MemStorage.getOrder storage' orderId = Some order'
    /\ (status order' = OrderStatus.COMPLETE \/ status order' = OrderStatus.FAILED).
Proof.
  intros Hid Hget Hst. unfold Orders.processRoute.
  destruct (processBegin_pending now _ _ _ _ Hid Hget Hst) as (calls & -> & Hcalls).
  pose proof (getOrder_updateOrder_same storage now orderId
                {| upd_status := Some OrderStatus.PROCESSING; upd_content := None;
                   upd_apiCost := None; upd_stripePaymentIntentId := None |} order Hget) as H1.
  destruct (processEnd_settles config later orderId order _
              (client (topic order) (wordCount order)) _ H1)
    as (s2 & r & calls' & o' & -> & Hc' & Hget' & Hst').
  exists s2, r, (calls ++ calls'), o'.
  split; [reflexivity|]. split; [|auto].
  rewrite generationInvocations_app. lia.
Qed.

(** The route does not look at the payment.  Its comment reads "Process
    content generation after payment (webhook will call this)", but an
    order that has only been created, whose payment reference is still
    empty, is processed when the route is called for it. *)
Remark process_runs_before_payment :
  let '(s1, r1, c1) :=
    Orders.processRoute Sample.config 3000 4000 Sample.generationOk "1" Sample.oneOrder in
  option_map stripePaymentIntentId (MemStorage.getOrder Sample.oneOrder 1) = Some ""
  /\ option_map status (MemStorage.getOrder Sample.oneOrder 1) = Some OrderStatus.PENDING
  /\ generationInvocations c1 = 1%nat
  /\ option_map status (MemStorage.getOrder s1 1) = Some OrderStatus.COMPLETE.
Proof.
  vm_compute. repeat split; reflexivity.
Qed.

(** C3, as stated, fails.  On an order that is past [pending] a
    processing request has no effect, but it is not treated as a success:
    it is answered with the error status 400. *)
Lemma process_answers_advanced_with_error :
  let '(s2, r2, c2) :=
    Orders.processRoute Sample.config 5000 6000 Sample.generationOk "1" Sample.completed in
  option_map status (MemStorage.getOrder Sample.completed 1) = Some OrderStatus.COMPLETE
  /\ s2 = Sample.completed
  /\ c2 = []
  /\ r2 = json 400 (Message "Order is already complete")
  /\ statusCode r2 <> 200.
Proof.
  vm_compute. repeat split; try reflexivity. discriminate.
Qed.

(** C3, amended.  For every existing order whose status is not [pending]
    (the one status the code has before [processing]), a processing request
    changes nothing in the store, invokes no generation and sends no
    notification, and is answered as an error, with status 400 and "Order
    is already ...".  Consequently, for a pending order on which the
    payment has been recorded, two processing requests in succession invoke
    the Generation Client exactly once: the second one, whether it comes
    after the first has finished or while its generation is still in
    flight, finds the status changed and is rejected without effect. *)
Theorem process_requires_pending :
  forall config now later client idParam orderId order storage,
    JS.parseInt idParam = Some orderId ->
    MemStorage.getOrder storage orderId = Some order ->
    (status order <> OrderStatus.PENDING ->
     Orders.processRoute config now later client idParam storage
     = (storage,
        json 400 (Message ("Order is already " +++ OrderStatus.text (status order))),
        []))
    /\ (status order = OrderStatus.PENDING ->
        paymentRecorded order ->
        forall now2 later2 client2,
          let '(s1, _, c1) := Orders.processRoute config now later client idParam storage in
          let '(s2, r2, c2) := Orders.processRoute config now2 later2 client2 idParam s1 in
          generationInvocations c1 = 1%nat
          /\ generationInvocations (c1 ++ c2) = 1%nat
          /\ s2 = s1 /\ c2 = [] /\ statusCode r2 = 400)
    /\ (status order = OrderStatus.PENDING ->
        paymentRecorded order ->
        forall now2 later2 client2,
          let '(s1, _, c1) := Orders.processBegin now idParam storage in
          Orders.processRoute config now2 later2 client2 idParam s1
          = (s1, json 400 (Message "Order is already processing"), [])).
Proof.
  intros config now later client idParam orderId order storage Hid Hget.
  split; [|split].
  - intros Hst. now apply processRoute_not_pending with (orderId := orderId).
  - intros Hst _ now2 later2 client2.
    destruct (processRoute_pending config now later client _ _ _ _ Hid Hget Hst)
      as (s1 & r1 & c1 & o1 & -> & Hc1 & Hget1 & Hst1).
    rewrite (processRoute_not_pending config now2 later2 client2 _ _ _ _ Hid Hget1)
      by (destruct Hst1 as [-> | ->]; discriminate).
    rewrite app_nil_r. repeat split; auto.
  - intros Hst _ now2 later2 client2.
    destruct (processBegin_pending now _ _ _ _ Hid Hget Hst) as (calls & -> & _).
    pose proof (getOrder_updateOrder_same storage now orderId
                  {| upd_status := Some OrderStatus.PROCESSING; upd_content := None;
                     upd_apiCost := None; upd_stripePaymentIntentId := None |} order Hget) as H1.
    rewrite (processRoute_not_pending config now2 later2 client2 _ _ _ _ Hid H1)
      by (simpl; discriminate).
    reflexivity.
Qed.

Lemma process_requires_pending_witness :
  let '(s1, _, c1) :=
    Orders.processRoute Sample.config 3000 4000 Sample.generationOk "1" Sample.paidOrder in
  let '(s2, r2, c2) :=
    Orders.processRoute Sample.config 5000 6000 Sample.generationOk "1" s1 in
  generationInvocations c1 = 1%nat
  /\ generationInvocations (c1 ++ c2) = 1%nat
  /\ s2 = s1 /\ c2 = [] /\ statusCode r2 = 400.
Proof.
  refine (proj1 (proj2 (process_requires_pending
                          Sample.config 3000 4000 Sample.generationOk "1" 1
                          {| id := 1; status := OrderStatus.PENDING; topic := "solar panels";
                             wordCount := 500; price := 2500; apiCost := 0; content := "";
                             customerEmail := "a@b.com"; stripePaymentIntentId := "pi_1";
                             createdAt := 1000; updatedAt := 2000 |}
                          Sample.paidOrder _ _))
                _ _ 5000 6000 Sample.generationOk).
  - reflexivity.
  - reflexivity.
  - reflexivity.
  - discriminate.
Defined.

(** *** Payment events *)

Lemma orderReceivedAttempts_app c1 c2 :
  orderReceivedAttempts (c1 ++ c2) = (orderReceivedAttempts c1 + orderReceivedAttempts c2)%nat.
Proof.
  unfold orderReceivedAttempts. now rewrite filter_app, length_app.
Qed.

(** What a [checkout.session.completed] event does to the order it names. *)
Lemma handleEvent_checkout config now orderRef paymentRef orderId order storage :
  JS.parseInt orderRef = Some orderId ->
  MemStorage.getOrder storage orderId = Some order ->
  exists storage' calls,
    Stripe.handleEvent config now (CheckoutSessionCompleted (Some orderRef) paymentRef) storage
    = (storage', json 200 Received, calls)
    /\ MemStorage.getOrder storage' orderId
       = Some (MemStorage.applyUpdate order
                 {| upd_status := None; upd_content := None; upd_apiCost := None;
                    upd_stripePaymentIntentId := Some paymentRef |} now)
    /\ orderReceivedAttempts calls = 1%nat
    /\ In (processTrigger config orderId) calls.
Proof.
  intros Hid Hget. unfold Stripe.handleEvent. rewrite Hid, Hget.
  eexists _, _. split; [reflexivity|].
  split; [now apply getOrder_updateOrder_same|].
  split; [reflexivity|]. right. left. reflexivity.
Qed.

(** C1, as stated, fails: the webhook does not look at the status of the
    order.  Delivering the payment-succeeded event for order 1 twice sends
    the order-received e-mail twice, and the second delivery, which finds
    the payment reference already recorded, is not a no-op (it also rewrites
    the order and its [updatedAt]); the same happens when the event reaches
    an order that is already complete. *)
Lemma payment_succeeded_twice_notifies_twice :
  let '(s1, _, c1) := Stripe.handleEvent Sample.config 2000 Sample.paid Sample.oneOrder in
  let '(s2, _, c2) := Stripe.handleEvent Sample.config 3000 Sample.paid s1 in
  let '(s3, _, c3) := Stripe.handleEvent Sample.config 5000 Sample.paid Sample.completed in
  option_map stripePaymentIntentId (MemStorage.getOrder s1 1) = Some "pi_1"
  /\ orderReceivedAttempts c2 = 1%nat
  /\ orderReceivedAttempts (c1 ++ c2) = 2%nat
  /\ s2 <> s1
  /\ option_map status (MemStorage.getOrder Sample.completed 1) = Some OrderStatus.COMPLETE
  /\ orderReceivedAttempts c3 = 1%nat
  /\ s3 <> Sample.completed.
Proof.
  vm_compute. repeat split; try reflexivity; discriminate.
Qed.

(** C1, amended.  For every existing order and every payment-succeeded
    event that names it, whatever the status of the order, each delivery is
    acknowledged with 200, records the payment reference of the event on the
    order and leaves its status and every other field but [updatedAt] as
    they were, makes exactly one order-received notification attempt and
    issues one processing trigger.  Delivering the same event twice
    therefore leaves the order with the same status and the same recorded
    reference as one delivery, and makes one order-received notification
    attempt per delivery, two in all; what a repeated delivery cannot repeat
    is the generation, which the processing route guards by status. *)
Theorem payment_succeeded_per_delivery :
  forall config now now2 orderRef paymentRef orderId order storage,
    JS.parseInt orderRef = Some orderId ->
    MemStorage.getOrder storage orderId = Some order ->
    let event := CheckoutSessionCompleted (Some orderRef) paymentRef in
    let recorded t :=
      {| id := id order; status := status order; topic := topic order;
         wordCount := wordCount order; price := price order; apiCost := apiCost order;
         content := content order; customerEmail := customerEmail order;
         stripePaymentIntentId := paymentRef;
         createdAt := createdAt order; updatedAt := t |} in
    let '(s1, r1, c1) := Stripe.handleEvent config now event storage in
    let '(s2, r2, c2) := Stripe.handleEvent config now2 event s1 in
    r1 = json 200 Received
    /\ MemStorage.getOrder s1 orderId = Some (recorded now)
    /\ orderReceivedAttempts c1 = 1%nat
    /\ In (processTrigger config orderId) c1
    /\ r2 = json 200 Received
    /\ MemStorage.getOrder s2 orderId = Some (recorded now2)
    /\ orderReceivedAttempts c2 = 1%nat
    /\ orderReceivedAttempts (c1 ++ c2) = 2%nat.
Proof.
  intros config now now2 orderRef paymentRef orderId order storage Hid Hget event recorded.
  destruct (handleEvent_checkout config now orderRef paymentRef orderId order storage Hid Hget)
    as (s1 & c1 & E1 & Hget1 & Hn1 & Htrig1).
  fold event in E1. rewrite E1.
  destruct (handleEvent_checkout config now2 orderRef paymentRef orderId _ s1 Hid Hget1)
    as (s2 & c2 & E2 & Hget2 & Hn2 & _).
  fold event in E2. rewrite E2.
  rewrite orderReceivedAttempts_app, Hn1, Hn2.
  repeat split; auto.
Qed.

Lemma payment_succeeded_per_delivery_witness :
  let '(s1, r1, c1) := Stripe.handleEvent Sample.config 2000 Sample.paid Sample.oneOrder in
  let '(s2, r2, c2) := Stripe.handleEvent Sample.config 3000 Sample.paid s1 in
  let recorded t :=
    {| id := 1; status := OrderStatus.PENDING; topic := "solar panels";
       wordCount := 500; price := 2500; apiCost := 0; content := "";
       customerEmail := "a@b.com"; stripePaymentIntentId := "pi_1";
       createdAt := 1000; updatedAt := t |} in
  r1 = json 200 Received
  /\ MemStorage.getOrder s1 1 = Some (recorded 2000)
  /\ orderReceivedAttempts c1 = 1%nat
  /\ In (processTrigger Sample.config 1) c1
  /\ r2 = json 200 Received
  /\ MemStorage.getOrder s2 1 = Some (recorded 3000)
  /\ orderReceivedAttempts c2 = 1%nat
  /\ orderReceivedAttempts (c1 ++ c2) = 2%nat.
Proof.
  apply (payment_succeeded_per_delivery Sample.config 2000 3000 "1" "pi_1" 1
           {| id := 1; status := OrderStatus.PENDING; topic := "solar panels";
              wordCount := 500; price := 2500; apiCost := 0; content := "";
              customerEmail := "a@b.com"; stripePaymentIntentId := "";
              createdAt := 1000; updatedAt := 1000 |} Sample.oneOrder);
    reflexivity.
Defined.

(** *** Listing *)

Section SortFacts.
Implicit Types (l : list Order) (x y : Order).

Lemma Forall_insertSorted (P : Order -> Prop) x l :
  P x -> Forall P l -> Forall P (JS.insertSorted MemStorage.newestFirst x l).
Proof.
  intros Hx Hl. induction Hl as [|y r Hy Hr IH]; simpl.
  - auto.
  - destruct (0 <? MemStorage.newestFirst x y); auto.
Qed.

Lemma insertSorted_sorted x l :
  StronglySorted notOlder l ->
  StronglySorted notOlder (JS.insertSorted MemStorage.newestFirst x l).
Proof.
  induction 1 as [|y r Hr IH Hy]; simpl.
  - repeat constructor.
  - unfold MemStorage.newestFirst at 1.
    destruct (0 <? createdAt y - createdAt x) eqn:E.
    + apply Z.ltb_lt in E. constructor; [exact IH|].
      apply Forall_insertSorted; [unfold notOlder; lia | exact Hy].
    + apply Z.ltb_ge in E. constructor; [now constructor|].
      constructor; [unfold notOlder; lia|].
      eapply Forall_impl; [|exact Hy]. unfold notOlder. intros z Hz. lia.
Qed.

Lemma sort_sorted l : StronglySorted notOlder (JS.sort MemStorage.newestFirst l).
Proof.
  induction l as [|x l IH]; simpl; [constructor | now apply insertSorted_sorted].
Qed.

(** An order that is newer than every other one sorts to the front,
    wherever it was inserted. *)
Lemma sort_newest_last l x :
  Forall (fun y => createdAt y < createdAt x) l ->
  JS.sort MemStorage.newestFirst (l ++ [x]) = x :: JS.sort MemStorage.newestFirst l.
Proof.
  induction 1 as [|y r Hy Hr IH]; simpl; [reflexivity|].
  rewrite IH. simpl. unfold MemStorage.newestFirst at 1.
  destruct (0 <? createdAt x - createdAt y) eqn:E; [reflexivity|].
  apply Z.ltb_ge in E. lia.
Qed.
End SortFacts.

Section SliceFacts.
Variable A : Type.
Variable R : A -> A -> Prop.

Lemma StronglySorted_skipn n (l : list A) :
  StronglySorted R l -> StronglySorted R (skipn n l).
Proof.
  revert l. induction n as [|n IH]; intros l Hl; simpl; [exact Hl|].
  destruct l as [|a l]; [constructor|]. apply IH. now inversion Hl.
Qed.

Lemma StronglySorted_firstn n (l : list A) :
  StronglySorted R l -> StronglySorted R (firstn n l).
Proof.
  revert l. induction n as [|n IH]; intros l Hl; simpl; [constructor|].
  destruct l as [|a l]; [constructor|].
  inversion Hl as [|? ? Hs Hf]; subst.
  constructor; [now apply IH|].
  rewrite Forall_forall in *. intros x Hx. apply Hf.
  rewrite <- (firstn_skipn n l). apply in_or_app. now left.
Qed.

Lemma slice_sorted start end_ (l : list A) :
  StronglySorted R l -> StronglySorted R (JS.slice start end_ l).
Proof.
  intros Hl. unfold JS.slice. now apply StronglySorted_firstn, StronglySorted_skipn.
Qed.

(** The entry at index [i] of the page that starts at [start] and holds
    [limit] entries. *)
Lemma nth_error_slice start limit (l : list A) i a :
  0 <= start -> 0 <= limit ->
  nth_error (JS.slice start (start + limit) l) i = Some a
  <-> Z.of_nat i < limit /\ nth_error l (Z.to_nat start + i) = Some a.
Proof.
  intros Hs Hl. unfold JS.slice, JS.clampIndex.
  destruct (start <? 0) eqn:E1; [apply Z.ltb_lt in E1; lia|].
  destruct (start + limit <? 0) eqn:E2; [apply Z.ltb_lt in E2; lia|].
  rewrite nth_error_firstn, nth_error_skipn.
  set (len := Z.of_nat (List.length l)).
  split.
  - destruct (Nat.ltb_spec i (Z.to_nat (Z.min (start + limit) len - Z.min start len)));
      [|discriminate].
    intros Hn.
    assert (Hlt : (Z.to_nat (Z.min start len) + i < List.length l)%nat)
      by (apply nth_error_Some; congruence).
    assert (Z.min start len = start) as Hk by (subst len; lia).
    rewrite Hk in *. split; [lia | exact Hn].
  - intros [Hi Hn].
    assert (Hlt : (Z.to_nat start + i < List.length l)%nat)
      by (apply nth_error_Some; congruence).
    assert (Z.min start len = start) as Hk by (subst len; lia).
    rewrite Hk.
    destruct (Nat.ltb_spec i (Z.to_nat (Z.min (start + limit) len - start)));
      [exact Hn | subst len; lia].
Qed.
End SliceFacts.

Lemma wellFormed_fresh storage :
  wellFormed storage ->
  Forall (fun kv => fst kv <> MemStorage.orderIdCounter storage) (MemStorage.orders storage).
Proof.
  unfold wellFormed. intros H. eapply Forall_impl; [|exact H].
  intros kv [Hlt _]. lia.
Qed.

Lemma filteredOrders_plain (ext : Externals) storage now page limit :
  MemStorage.filteredOrders storage now (pageOptions page limit)
  = JS.sort MemStorage.newestFirst (JS.values (MemStorage.orders storage)).
Proof. reflexivity. Qed.

Lemma createOrder_values storage now draft :
  wellFormed storage ->
  JS.values (MemStorage.orders (fst (MemStorage.createOrder storage now draft)))
  = JS.values (MemStorage.orders storage) ++ [snd (MemStorage.createOrder storage now draft)].
Proof.
  intros Hwf. simpl. rewrite (set_fresh _ _ _ _ (wellFormed_fresh _ Hwf)).
  unfold JS.values. now rewrite map_app.
Qed.

(** C7, as stated, fails: pages are cut by offset from the newest-first
    list, so a new order pushes every older one down by one place.  In the
    scenario of the specification (15 orders, pages of 10, a 16th order
    inserted between the two requests), order 6 is the last entry of page 1
    before the insertion and the first entry of page 2 after it: it is
    returned twice, and it is no longer on page 1. *)
Lemma insert_between_pages_moves_order :
  let before := Sample.filled 15 in
  let after := fst (MemStorage.createOrder before 16 Sample.solarPanelsDraft) in
  let page storage p :=
    map id (page_orders (MemStorage.getAllOrders (ext := Sample.externals) storage 20
                           (pageOptions p 10))) in
  page before 1 = [15; 14; 13; 12; 11; 10; 9; 8; 7; 6]
  /\ page before 2 = [5; 4; 3; 2; 1]
  /\ page after 1 = [16; 15; 14; 13; 12; 11; 10; 9; 8; 7]
  /\ page after 2 = [6; 5; 4; 3; 2; 1]
  /\ In 6 (page before 1) /\ ~ In 6 (page after 1) /\ In 6 (page after 2).
Proof.
  vm_compute. repeat split; auto 20.
  intros H. repeat (destruct H as [H|H]; [discriminate|]). exact H.
Qed.

(** C7, amended.  Every page of a listing is ordered newest-created-first.
    Pages are cut by offset from that order: inserting an order that is
    newer than every stored one moves each stored order one place down the
    unfiltered listing, so an order stays on its page, one slot later,
    unless it was the last entry of a full page, in which case it becomes
    the first entry of the next page. *)
Theorem listing_newest_first_insert_shifts :
  forall (ext : Externals) storage now draft,
    wellFormed storage ->
    Forall (fun o => createdAt o < now) (JS.values (MemStorage.orders storage)) ->
    let storage' := fst (MemStorage.createOrder storage now draft) in
    (forall s t options,
        StronglySorted notOlder (page_orders (MemStorage.getAllOrders s t options)))
    /\ (forall t t' page limit i o,
          1 <= page -> 1 <= limit ->
          nth_error (page_orders (MemStorage.getAllOrders storage t (pageOptions page limit))) i
          = Some o ->
          if Z.of_nat i + 1 <? limit
          then nth_error (page_orders
                            (MemStorage.getAllOrders storage' t' (pageOptions page limit)))
                         (S i) = Some o
          else nth_error (page_orders
                            (MemStorage.getAllOrders storage' t' (pageOptions (page + 1) limit)))
                         0 = Some o).
Proof.
  intros ext storage now draft Hwf Hnew storage'.
  split.
  - intros s t options. unfold MemStorage.getAllOrders; simpl.
    apply slice_sorted. unfold MemStorage.filteredOrders. apply sort_sorted.
  - intros t t' page limit i o Hp Hl.
    unfold MemStorage.getAllOrders.
    rewrite !filteredOrders_plain. cbn [page_orders opt_page opt_limit pageOptions].
    subst storage'. rewrite (createOrder_values _ _ _ Hwf).
    rewrite sort_newest_last by exact Hnew.
    set (sorted := JS.sort MemStorage.newestFirst (JS.values (MemStorage.orders storage))).
    set (new := snd (MemStorage.createOrder storage now draft)).
    replace ((page + 1 - 1) * limit) with ((page - 1) * limit + limit) by ring.
    set (start := (page - 1) * limit).
    assert (0 <= start) by (subst start; nia).
    rewrite nth_error_slice by lia. intros [Hi Hn].
    destruct (Z.of_nat i + 1 <? limit) eqn:E.
    + apply Z.ltb_lt in E. apply nth_error_slice; [lia | lia |].
      split; [lia|].
      replace (Z.to_nat start + S i)%nat with (S (Z.to_nat start + i)) by lia.
      exact Hn.
    + apply Z.ltb_ge in E. apply nth_error_slice; [lia | lia |].
      split; [lia|].
      replace (Z.to_nat (start + limit) + 0)%nat with (S (Z.to_nat start + i)) by lia.
      exact Hn.
Qed.

Lemma listing_newest_first_insert_shifts_witness :
  nth_error (page_orders
               (MemStorage.getAllOrders (ext := Sample.externals)
                  (fst (MemStorage.createOrder (Sample.filled 15) 16 Sample.solarPanelsDraft))
                  30 (pageOptions 2 10)))
            0
  = Some {| id := 6; status := OrderStatus.PENDING; topic := "solar panels";
            wordCount := 500; price := 2500; apiCost := 0; content := "";
            customerEmail := "a@b.com"; stripePaymentIntentId := "";
            createdAt := 6; updatedAt := 6 |}.
Proof.
  refine (proj2 (listing_newest_first_insert_shifts Sample.externals (Sample.filled 15) 16
                   Sample.solarPanelsDraft _ _) 20 30 1 10 9%nat _ _ _ _).
  - unfold wellFormed. vm_compute. repeat constructor.
  - vm_compute. repeat constructor.
  - lia.
  - lia.
  - reflexivity.
Defined.

(** *** The store under a sequence of requests *)

Lemma Forall_set (V : Type) (P : Z * V -> Prop) (m : JS.Map V) k v :
  Forall P m -> P (k, v) -> Forall P (JS.set k v m).
Proof.
  intros Hm Hkv. induction Hm as [|[k0 v0] m H0 Hm IH]; simpl.
  - auto.
  - destruct (k =? k0); auto.
Qed.

Lemma get_fresh (V : Type) (m : JS.Map V) k :
  Forall (fun kv => fst kv <> k) m -> JS.get k m = None.
Proof.
  induction 1 as [|[k0 v0] m H0 Hm IH]; simpl; [reflexivity|].
  simpl in H0. destruct (k =? k0) eqn:E; [apply Z.eqb_eq in E; congruence | exact IH].
Qed.

Lemma wellFormed_new : wellFormed MemStorage.new.
Proof. constructor. Qed.

Lemma wellFormed_updateOrder storage now orderId updateData :
  wellFormed storage ->
  wellFormed (fst (MemStorage.updateOrder storage now orderId updateData)).
Proof.
  intros Hwf. unfold MemStorage.updateOrder.
  destruct (JS.get orderId (MemStorage.orders storage)) as [order|] eqn:E; simpl; [|exact Hwf].
  unfold wellFormed in *. simpl. apply Forall_set; [exact Hwf|].
  apply get_In in E. rewrite Forall_forall in Hwf. apply Hwf in E. exact E.
Qed.

Lemma wellFormed_createOrder storage now draft :
  wellFormed storage -> wellFormed (fst (MemStorage.createOrder storage now draft)).
Proof.
  unfold wellFormed. simpl. intros Hwf. apply Forall_set.
  - eapply Forall_impl; [|exact Hwf]. simpl. intros kv [Hlt Hid]. split; [lia | exact Hid].
  - simpl. split; [lia | reflexivity].
Qed.

Lemma wellFormed_assignSettings storage v :
  wellFormed storage -> wellFormed (MemStorage.assignSettings storage v).
Proof. intros H. exact H. Qed.

Lemma getOrder_counter storage :
  wellFormed storage ->
  MemStorage.getOrder storage (MemStorage.orderIdCounter storage) = None.
Proof.
  intros Hwf. apply get_fresh, wellFormed_fresh, Hwf.
Qed.

Section Steps.
Context {ext : Externals}.
Variable config : Config.

Lemma getSettingsRoute_orders storage :
  MemStorage.orders (fst (fst (Orders.getSettingsRoute storage))) = MemStorage.orders storage
  /\ MemStorage.orderIdCounter (fst (fst (Orders.getSettingsRoute storage)))
     = MemStorage.orderIdCounter storage.
Proof.
  unfold Orders.getSettingsRoute. simpl.
  destruct (apiKeys (MemStorage.getSettings storage)); simpl;
    match goal with
    | |- context [email ?s] => destruct (email s) as [e|]; simpl
    end;
    try (destruct (Orders.truthyField (smtpPassword e)); simpl); split; reflexivity.
Qed.

Lemma handle_wellFormed r storage :
  wellFormed storage -> wellFormed (fst (fst (Server.handle config r storage))).
Proof.
  intros Hwf. destruct r as [now reqBody | now reqBody signature
                            | now later client idParam | now | | newSettings];
    cbn [Server.handle].
  - unfold Orders.createOrderRoute.
    destruct (Orders.createOrderRequestSchema reqBody) as [[[t w] e]|]; [|exact Hwf].
    now apply wellFormed_createOrder.
  - unfold Stripe.webhook.
    destruct (constructEvent reqBody signature (STRIPE_WEBHOOK_SECRET config)) as [ev|];
      [|exact Hwf].
    unfold Stripe.handleEvent.
    destruct ev as [metadata paymentRef | paymentIntentId | ty]; [| |exact Hwf].
    + destruct (JS.parseInt _) as [orderId|]; [|exact Hwf].
      destruct (MemStorage.getOrder storage orderId); [|exact Hwf].
      now apply wellFormed_updateOrder.
    + destruct (MemStorage.getOrderByPaymentIntent storage paymentIntentId); [|exact Hwf].
      now apply wellFormed_updateOrder.
  - unfold Orders.processRoute, Orders.processBegin.
    destruct (JS.parseInt idParam) as [orderId|]; [|exact Hwf].
    destruct (MemStorage.getOrder storage orderId) as [order|]; [|exact Hwf].
    destruct (negb (OrderStatus.eqb (status order) OrderStatus.PENDING)); [exact Hwf|].
    unfold Orders.processEnd.
    destruct (client (topic order) (wordCount order)); simpl;
      now apply wellFormed_updateOrder, wellFormed_updateOrder.
  - exact Hwf.
  - destruct (getSettingsRoute_orders storage) as [Ho Hc].
    unfold wellFormed in *. now rewrite Ho, Hc.
  - destruct newSettings; exact Hwf.
Qed.

(** Each request moves the order under each id along [OrderStep]. *)
Lemma handle_step r storage orderId :
  wellFormed storage ->
  OrderStep config r
            (MemStorage.getOrder storage orderId)
            (MemStorage.getOrder (fst (fst (Server.handle config r storage))) orderId).
Proof.
  intros Hwf. destruct r as [now reqBody | now reqBody signature
                            | now later client idParam | now | | newSettings];
    cbn [Server.handle].
  - unfold Orders.createOrderRoute.
    destruct (Orders.createOrderRequestSchema reqBody) as [[[t w] e]|]; [|constructor].
    simpl. unfold MemStorage.getOrder at 2. simpl.
    destruct (Z.eq_dec orderId (MemStorage.orderIdCounter storage)) as [->|Hne].
    + rewrite get_set_same, (getOrder_counter _ Hwf). now constructor.
    + rewrite get_set_other by exact Hne. constructor.
  - unfold Stripe.webhook.
    destruct (constructEvent reqBody signature (STRIPE_WEBHOOK_SECRET config)) as [ev|] eqn:Hev;
      [|constructor].
    unfold Stripe.handleEvent.
    destruct ev as [metadata paymentRef | paymentIntentId | ty]; [| |constructor].
    + destruct (JS.parseInt _) as [target|]; [|constructor].
      destruct (MemStorage.getOrder storage target) as [order|] eqn:Hget; [|constructor].
      cbn [fst].
      destruct (Z.eq_dec orderId target) as [->|Hne].
      * rewrite (getOrder_updateOrder_same _ _ _ _ _ Hget), Hget.
        eapply StepPaid. exact Hev.
      * rewrite getOrder_updateOrder_other by exact Hne. constructor.
    + destruct (MemStorage.getOrderByPaymentIntent storage paymentIntentId) as [found|];
        [|constructor].
      cbn [fst].
      destruct (Z.eq_dec orderId (id found)) as [->|Hne].
      * destruct (MemStorage.getOrder storage (id found)) as [order|] eqn:Hget.
        -- rewrite (getOrder_updateOrder_same _ _ _ _ _ Hget).
           eapply StepPaymentFailed. exact Hev.
        -- rewrite updateOrder_missing by exact Hget. cbn [fst]. rewrite Hget. constructor.
      * rewrite getOrder_updateOrder_other by exact Hne. constructor.
  - unfold Orders.processRoute, Orders.processBegin.
    destruct (JS.parseInt idParam) as [target|]; [|constructor].
    destruct (MemStorage.getOrder storage target) as [order|] eqn:Hget; [|constructor].
    destruct (OrderStatus.eqb (status order) OrderStatus.PENDING) eqn:Hst; [|constructor].
    apply status_eqb_eq in Hst. cbn [negb].
    pose proof (getOrder_updateOrder_same storage now target
                  (setStatus OrderStatus.PROCESSING) order Hget) as H1.
    unfold setStatus in H1.
    unfold Orders.processEnd.
    destruct (client (topic order) (wordCount order)) as [result|e] eqn:Hclient; cbn [fst].
    + destruct (Z.eq_dec orderId target) as [->|Hne].
      * rewrite (getOrder_updateOrder_same _ later _ _ _ H1), Hget.
        now apply StepGenerated.
      * rewrite !getOrder_updateOrder_other by exact Hne. constructor.
    + destruct (Z.eq_dec orderId target) as [->|Hne].
      * rewrite (getOrder_updateOrder_same _ later _ _ _ H1), Hget.
        now apply StepGenerationFailed with (e := e).
      * rewrite !getOrder_updateOrder_other by exact Hne. constructor.
  - constructor.
  - unfold MemStorage.getOrder.
    rewrite (proj1 (getSettingsRoute_orders storage)). constructor.
  - destruct newSettings; constructor.
Qed.

Lemma serve_cons r rs storage :
  fst (Server.serve config (r :: rs) storage)
  = fst (Server.serve config rs (fst (fst (Server.handle config r storage)))).
Proof.
  simpl. destruct (Server.handle config r storage) as [[s1 resp] calls]. simpl.
  now destruct (Server.serve config rs s1).
Qed.

Lemma serve_wellFormed rs storage :
  wellFormed storage -> wellFormed (fst (Server.serve config rs storage)).
Proof.
  revert storage. induction rs as [|r rs IH]; intros storage Hwf; [exact Hwf|].
  rewrite serve_cons. apply IH, handle_wellFormed, Hwf.
Qed.

(** Every store reached from the empty one is well formed. *)
Lemma reachable_wellFormed rs :
  wellFormed (fst (Server.serve config rs MemStorage.new)).
Proof. apply serve_wellFormed, wellFormed_new. Qed.
End Steps.

(** *** Requests that overlap *)

Lemma nth_error_cut (A : Type) (l : list A) : forall n a,
  nth_error l n = Some a -> l = firstn n l ++ a :: skipn (S n) l.
Proof.
  induction l as [|x l IH]; intros [|n] a H; simpl in *; try discriminate.
  - now injection H as ->.
  - f_equal. now apply IH.
Qed.

Lemma NoDup_snoc (A : Type) (l : list A) a : NoDup l -> ~ In a l -> NoDup (l ++ [a]).
Proof.
  induction 1 as [|x l Hx Hl IH]; intros Ha; simpl.
  - constructor; [intros [] | constructor].
  - constructor.
    + rewrite in_app_iff. intros [H | [H | []]]; [contradiction | subst; apply Ha; now left].
    + apply IH. intros H. apply Ha. now right.
Qed.

Section OverlapFacts.
Context {ext : Externals}.
Variable config : Config.

Lemma getOrder_after_update storage now target updateData k o :
  MemStorage.getOrder storage k = Some o ->
  MemStorage.getOrder (fst (MemStorage.updateOrder storage now target updateData)) k
  = Some (if k =? target then MemStorage.applyUpdate o updateData now else o).
Proof.
  intros Hget. destruct (Z.eqb_spec k target) as [->|Hne].
  - now apply getOrder_updateOrder_same.
  - now rewrite getOrder_updateOrder_other.
Qed.

(** What a whole request does to the status of an order that is past
    [pending]: nothing, unless it is a payment failure matched to the
    order. *)
Lemma handle_status r storage k o :
  wellFormed storage ->
  MemStorage.getOrder storage k = Some o ->
  status o <> OrderStatus.PENDING ->
  exists o',
    MemStorage.getOrder (fst (fst (Server.handle config r storage))) k = Some o'
    /\ (status o' = status o
        \/ (status o' = OrderStatus.FAILED
            /\ Overlap.failedByPayment config (Whole r) storage = Some k)).
Proof.
  intros Hwf Hget Hst.
  destruct r as [now reqBody | now reqBody signature
                | now later client idParam | now | | newSettings];
    cbn [Server.handle Overlap.failedByPayment].
  - unfold Orders.createOrderRoute.
    destruct (Orders.createOrderRequestSchema reqBody) as [[[t w] e]|]; [|eauto].
    simpl. unfold MemStorage.getOrder at 1. simpl.
    rewrite get_set_other; [eauto|].
    intros ->. rewrite (getOrder_counter _ Hwf) in Hget. discriminate.
  - unfold Stripe.webhook.
    destruct (constructEvent reqBody signature (STRIPE_WEBHOOK_SECRET config)) as [ev|];
      [|eauto].
    unfold Stripe.handleEvent.
    destruct ev as [metadata paymentRef | paymentIntentId | ty]; [| |eauto].
    + destruct (JS.parseInt _) as [target|]; [|eauto].
      destruct (MemStorage.getOrder storage target); [|eauto].
      cbn [fst]. rewrite (getOrder_after_update _ _ _ _ _ _ Hget).
      eexists. split; [reflexivity|]. left. now destruct (k =? target).
    + destruct (MemStorage.getOrderByPaymentIntent storage paymentIntentId) as [found|];
        [|eauto].
      cbn [fst option_map]. rewrite (getOrder_after_update _ _ _ _ _ _ Hget).
      eexists. split; [reflexivity|].
      destruct (Z.eqb_spec k (id found)) as [->|Hne]; [right | left]; auto.
  - unfold Orders.processRoute, Orders.processBegin.
    destruct (JS.parseInt idParam) as [target|]; [|eauto].
    destruct (MemStorage.getOrder storage target) as [order|] eqn:Htarget; [|eauto].
    destruct (OrderStatus.eqb (status order) OrderStatus.PENDING) eqn:E; cbn [negb]; [|eauto].
    apply status_eqb_eq in E.
    assert (Hne : k <> target) by (intros ->; congruence).
    unfold Orders.processEnd.
    destruct (client (topic order) (wordCount order)); cbn [fst];
      rewrite !getOrder_updateOrder_other by exact Hne; eauto.
  - eauto.
  - unfold MemStorage.getOrder. rewrite (proj1 (getSettingsRoute_orders storage)). eauto.
  - destruct newSettings; eauto.
Qed.

(** The first part of a processing request: it answers at once and
    leaves the store, or it sets a pending order to [processing] and
    waits. *)
Lemma processBegin_cases now idParam storage :
  (exists r,
      Orders.processBegin now idParam storage = (storage, Orders.Responded r, []))
  \/ (exists target order calls,
         Orders.processBegin now idParam storage
         = (fst (MemStorage.updateOrder storage now target
                   (setStatus OrderStatus.PROCESSING)),
            Orders.Generating target order, calls)
         /\ MemStorage.getOrder storage target = Some order
         /\ status order = OrderStatus.PENDING).
Proof.
  unfold Orders.processBegin.
  destruct (JS.parseInt idParam) as [target|]; [|eauto].
  destruct (MemStorage.getOrder storage target) as [order|] eqn:Htarget; [|eauto].
  destruct (OrderStatus.eqb (status order) OrderStatus.PENDING) eqn:E; cbn [negb]; [|eauto].
  apply status_eqb_eq in E. right. exists target, order. eexists. eauto.
Qed.

Lemma processEnd_store later target order settled storage :
  fst (fst (Orders.processEnd config later target order settled storage))
  = fst (MemStorage.updateOrder storage later target
           match settled with
           | Returned result => setGenerated result
           | Thrown _ => setStatus OrderStatus.FAILED
           end).
Proof. now destruct settled. Qed.

Lemma step_whole r st :
  fst (Overlap.step config (Whole r) st)
  = {| Overlap.store := fst (fst (Server.handle config r (Overlap.store st)));
       Overlap.awaiting := Overlap.awaiting st |}.
Proof.
  cbn [Overlap.step]. now destruct (Server.handle config r (Overlap.store st)) as [[s1 r1] c1].
Qed.

Lemma step_settles later n settled st target order :
  nth_error (Overlap.awaiting st) n = Some (target, order) ->
  fst (Overlap.step config (GenerationSettles later n settled) st)
  = {| Overlap.store :=
         fst (fst (Orders.processEnd config later target order settled (Overlap.store st)));
       Overlap.awaiting :=
         firstn n (Overlap.awaiting st) ++ skipn (S n) (Overlap.awaiting st) |}.
Proof.
  intros Hn. cbn [Overlap.step]. rewrite Hn.
  now destruct (Orders.processEnd config later target order settled (Overlap.store st))
    as [[s1 r1] c1].
Qed.

Lemma awaiting_status st w :
  Overlap.steady st -> In w (Overlap.awaiting st) ->
  exists stored,
    MemStorage.getOrder (Overlap.store st) (fst w) = Some stored
    /\ (status stored = OrderStatus.PROCESSING \/ status stored = OrderStatus.FAILED).
Proof.
  intros (_ & _ & Hall) Hin. rewrite Forall_forall in Hall. now apply Hall.
Qed.

Lemma step_steady e st : Overlap.steady st -> Overlap.steady (fst (Overlap.step config e st)).
Proof.
  intros Hsteady. pose proof Hsteady as (Hwf & Hnodup & Hall).
  destruct e as [r | now idParam | later n settled].
  - rewrite step_whole. split; [|split]; cbn [Overlap.store Overlap.awaiting].
    + now apply handle_wellFormed.
    + exact Hnodup.
    + apply Forall_forall. intros w Hin.
      destruct (awaiting_status _ _ Hsteady Hin) as (stored & Hget & Hst).
      destruct (handle_status r _ _ _ Hwf Hget) as (o' & Hget' & Hst');
        [destruct Hst as [-> | ->]; discriminate|].
      exists o'. split; [exact Hget'|].
      destruct Hst' as [-> | [-> _]]; auto.
  - cbn [Overlap.step].
    destruct (processBegin_cases now idParam (Overlap.store st))
      as [(r & ->) | (target & order & calls & -> & Htarget & Hpending)]; cbn [fst].
    + exact Hsteady.
    + split; [|split]; cbn [Overlap.store Overlap.awaiting].
      * now apply wellFormed_updateOrder.
      * rewrite map_app. apply NoDup_snoc; [exact Hnodup|].
        cbn [map fst]. intros Hin. apply in_map_iff in Hin as (w & Hw & Hin).
        destruct (awaiting_status _ _ Hsteady Hin) as (stored & Hget & Hst).
        rewrite Hw, Htarget in Hget. injection Hget as <-.
        destruct Hst; congruence.
      * apply Forall_app. split.
        -- apply Forall_forall. intros w Hin.
           destruct (awaiting_status _ _ Hsteady Hin) as (stored & Hget & Hst).
           rewrite (getOrder_after_update _ _ _ _ _ _ Hget).
           eexists. split; [reflexivity|].
           destruct (fst w =? target); [left; reflexivity | exact Hst].
        -- constructor; [|constructor]. cbn [fst].
           rewrite (getOrder_updateOrder_same _ _ _ _ _ Htarget).
           eexists. split; [reflexivity | left; reflexivity].
  - destruct (nth_error (Overlap.awaiting st) n) as [[target order]|] eqn:Hn.
    + rewrite (step_settles _ _ _ _ _ _ Hn).
      pose proof (nth_error_cut _ _ _ _ Hn) as Hcut.
      rewrite Hcut, map_app in Hnodup. cbn [map fst] in Hnodup.
      apply NoDup_remove in Hnodup as [Hnodup Hfresh]. rewrite <- map_app in Hnodup, Hfresh.
      split; [|split]; cbn [Overlap.store Overlap.awaiting].
      * rewrite processEnd_store. now apply wellFormed_updateOrder.
      * exact Hnodup.
      * apply Forall_forall. intros w Hin.
        assert (Hne : fst w <> target).
        { intros <-. apply Hfresh. now apply in_map. }
        assert (Hold : In w (Overlap.awaiting st)).
        { rewrite Hcut. rewrite in_app_iff in *. simpl. tauto. }
        destruct (awaiting_status _ _ Hsteady Hold) as (stored & Hget & Hst).
        exists stored. split; [|exact Hst].
        rewrite processEnd_store. now rewrite getOrder_updateOrder_other.
    + cbn [Overlap.step]. rewrite Hn. exact Hsteady.
Qed.

Lemma run_cons e es st :
  fst (Overlap.run config (e :: es) st)
  = fst (Overlap.run config es (fst (Overlap.step config e st))).
Proof.
  simpl. destruct (Overlap.step config e st) as [st1 calls]. simpl.
  now destruct (Overlap.run config es st1).
Qed.

Lemma run_steady es : forall st,
  Overlap.steady st -> Overlap.steady (fst (Overlap.run config es st)).
Proof.
  induction es as [|e es IH]; intros st Hsteady; [exact Hsteady|].
  rewrite run_cons. apply IH, step_steady, Hsteady.
Qed.

Lemma reachable_steady es : Overlap.steady (fst (Overlap.run config es Overlap.initial)).
Proof.
  apply run_steady. split; [apply wellFormed_new|].
  split; constructor.
Qed.

(** One event and an order that is [failed] with no request waiting on
    it. *)
Lemma step_keeps_failed e st k o :
  Overlap.steady st ->
  MemStorage.getOrder (Overlap.store st) k = Some o ->
  status o = OrderStatus.FAILED ->
  ~ Overlap.inFlight k st ->
  exists o',
    MemStorage.getOrder (Overlap.store (fst (Overlap.step config e st))) k = Some o'
    /\ status o' = OrderStatus.FAILED
    /\ ~ Overlap.inFlight k (fst (Overlap.step config e st)).
Proof.
  intros Hsteady Hget Hst Hfree. pose proof Hsteady as (Hwf & _ & _).
  unfold Overlap.inFlight in *.
  destruct e as [r | now idParam | later n settled].
  - rewrite step_whole. cbn [Overlap.store Overlap.awaiting].
    destruct (handle_status r _ _ _ Hwf Hget) as (o' & Hget' & Hst'); [congruence|].
    exists o'. split; [exact Hget'|]. split; [|exact Hfree].
    destruct Hst' as [-> | [-> _]]; auto.
  - cbn [Overlap.step].
    destruct (processBegin_cases now idParam (Overlap.store st))
      as [(r & ->) | (target & order & calls & -> & Htarget & Hpending)];
      cbn [fst Overlap.store Overlap.awaiting].
    + eauto.
    + assert (Hne : k <> target) by (intros ->; congruence).
      exists o. split; [now rewrite getOrder_updateOrder_other|]. split; [exact Hst|].
      rewrite map_app, in_app_iff. cbn [map fst In]. intros [H | [H | []]]; auto.
  - destruct (nth_error (Overlap.awaiting st) n) as [[target order]|] eqn:Hn.
    + rewrite (step_settles _ _ _ _ _ _ Hn). cbn [Overlap.store Overlap.awaiting].
      pose proof (nth_error_cut _ _ _ _ Hn) as Hcut.
      assert (Hne : k <> target).
      { intros ->. apply Hfree. rewrite Hcut, map_app, in_app_iff. right. now left. }
      exists o. split; [|split; [exact Hst|]].
      * rewrite processEnd_store. now rewrite getOrder_updateOrder_other.
      * intros Hin. apply Hfree. rewrite Hcut. rewrite map_app, in_app_iff in *.
        simpl. tauto.
    + cbn [Overlap.step]. rewrite Hn. eauto.
Qed.

(** One event that is no payment failure matched to the order, and an
    order that is [complete]. *)
Lemma step_keeps_complete e st k o :
  Overlap.steady st ->
  MemStorage.getOrder (Overlap.store st) k = Some o ->
  status o = OrderStatus.COMPLETE ->
  match Overlap.failedByPayment config e (Overlap.store st) with
  | Some hit => negb (hit =? k)
  | None => true
  end = true ->
  exists o',
    MemStorage.getOrder (Overlap.store (fst (Overlap.step config e st))) k = Some o'
    /\ status o' = OrderStatus.COMPLETE.
Proof.
  intros Hsteady Hget Hst Hspared. pose proof Hsteady as (Hwf & _ & _).
  destruct e as [r | now idParam | later n settled].
  - rewrite step_whole. cbn [Overlap.store].
    destruct (handle_status r _ _ _ Hwf Hget) as (o' & Hget' & Hst'); [congruence|].
    exists o'. split; [exact Hget'|].
    destruct Hst' as [-> | [_ Hhit]]; [exact Hst|].
    rewrite Hhit, Z.eqb_refl in Hspared. discriminate.
  - cbn [Overlap.step].
    destruct (processBegin_cases now idParam (Overlap.store st))
      as [(r & ->) | (target & order & calls & -> & Htarget & Hpending)];
      cbn [fst Overlap.store].
    + eauto.
    + assert (Hne : k <> target) by (intros ->; congruence).
      exists o. split; [now rewrite getOrder_updateOrder_other | exact Hst].
  - destruct (nth_error (Overlap.awaiting st) n) as [[target order]|] eqn:Hn.
    + rewrite (step_settles _ _ _ _ _ _ Hn). cbn [Overlap.store].
      assert (Hne : k <> target).
      { intros ->. apply nth_error_In in Hn.
        destruct (awaiting_status _ _ Hsteady Hn) as (stored & Hstored & Hs).
        cbn [fst] in Hstored. rewrite Hget in Hstored. injection Hstored as <-.
        destruct Hs; congruence. }
      exists o. split; [|exact Hst].
      rewrite processEnd_store. now rewrite getOrder_updateOrder_other.
    + cbn [Overlap.step]. rewrite Hn. eauto.
Qed.

Lemma run_keeps_failed es : forall st k o,
  Overlap.steady st ->
  MemStorage.getOrder (Overlap.store st) k = Some o ->
  status o = OrderStatus.FAILED ->
  ~ Overlap.inFlight k st ->
  option_map status (MemStorage.getOrder (Overlap.store (fst (Overlap.run config es st))) k)
  = Some OrderStatus.FAILED.
Proof.
  induction es as [|e es IH]; intros st k o Hsteady Hget Hst Hfree.
  - cbn [Overlap.run fst]. now rewrite Hget, <- Hst.
  - rewrite run_cons.
    destruct (step_keeps_failed e _ _ _ Hsteady Hget Hst Hfree) as (o' & Hget' & Hst' & Hfree').
    exact (IH _ _ _ (step_steady e _ Hsteady) Hget' Hst' Hfree').
Qed.

Lemma run_keeps_complete es : forall st k o,
  Overlap.steady st ->
  MemStorage.getOrder (Overlap.store st) k = Some o ->
  status o = OrderStatus.COMPLETE ->
  Overlap.sparesPayment config k es st = true ->
  option_map status (MemStorage.getOrder (Overlap.store (fst (Overlap.run config es st))) k)
  = Some OrderStatus.COMPLETE.
Proof.
  induction es as [|e es IH]; intros st k o Hsteady Hget Hst Hspared.
  - cbn [Overlap.run fst]. now rewrite Hget, <- Hst.
  - rewrite run_cons. cbn [Overlap.sparesPayment] in Hspared.
    apply andb_prop in Hspared as [Hnow Hlater].
    destruct (step_keeps_complete e _ _ _ Hsteady Hget Hst Hnow) as (o' & Hget' & Hst').
    exact (IH _ _ _ (step_steady e _ Hsteady) Hget' Hst' Hlater).
Qed.
End OverlapFacts.

(** *** Terminal states *)

(** C2, as stated, fails, in both directions.  A payment-failed event for
    the payment of a completed order moves the order from [complete] to
    [failed]: the webhook does not look at the status.  An order that a
    payment failure has set to [failed] while its generation was awaited
    becomes [complete] when the generation succeeds: the processing route
    writes its outcome without reading the status again.  And the store's
    [updateOrder] writes whatever status it is given, also over a terminal
    one. *)
Lemma terminal_status_left :
  let afterEvent :=
    fst (Server.serve (ext := Sample.externals) Sample.config
           [PostWebhook 5000 "failed" (Some "whsec_test")] Sample.completed) in
  let afterUpdate :=
    fst (MemStorage.updateOrder Sample.completed 5000 1 (setStatus OrderStatus.PENDING)) in
  let failedWhileGenerating :=
    fst (Overlap.run (ext := Sample.externals) Sample.config
           [Whole (PostCreateOrder 1000 Sample.solarPanels);
            Whole (PostWebhook 2000 "paid" (Some "whsec_test"));
            ProcessStarts 3000 "1";
            Whole (PostWebhook 3500 "failed" (Some "whsec_test"))]
           Overlap.initial) in
  let afterGeneration :=
    fst (Overlap.run (ext := Sample.externals) Sample.config
           [GenerationSettles 4000 0
              (Returned {| result_content := "..."; result_cost := 120 |})]
           failedWhileGenerating) in
  option_map status (MemStorage.getOrder Sample.completed 1) = Some OrderStatus.COMPLETE
  /\ option_map status (MemStorage.getOrder afterEvent 1) = Some OrderStatus.FAILED
  /\ option_map status (MemStorage.getOrder afterUpdate 1) = Some OrderStatus.PENDING
  /\ option_map status (MemStorage.getOrder (Overlap.store failedWhileGenerating) 1)
     = Some OrderStatus.FAILED
  /\ option_map status (MemStorage.getOrder (Overlap.store afterGeneration) 1)
     = Some OrderStatus.COMPLETE.
Proof.
  vm_compute. repeat split; reflexivity.
Qed.

(** C2, amended.  Take any state that the routes reach from the empty
    store, and any further sequence of requests to the routes (order
    creation, webhook deliveries, processing requests, export, settings
    reads and updates), overlapping in any way at the one point where a
    handler waits, a processing request awaiting its generation.  An order
    whose status is [failed], and for which no processing request awaits
    its generation, keeps that status.  An order whose status is [complete]
    keeps it as long as no payment-failed event arrives that is matched to
    this order.  (The store's own [updateOrder] is not guarded and is not
    among these operations.) *)
Theorem terminal_status_kept :
  forall (ext : Externals) config before es orderId order,
    let st := fst (Overlap.run config before Overlap.initial) in
    MemStorage.getOrder (Overlap.store st) orderId = Some order ->
    (status order = OrderStatus.FAILED ->
     ~ Overlap.inFlight orderId st ->
     option_map status
       (MemStorage.getOrder (Overlap.store (fst (Overlap.run config es st))) orderId)
     = Some OrderStatus.FAILED)
    /\ (status order = OrderStatus.COMPLETE ->
        Overlap.sparesPayment config orderId es st = true ->
        option_map status
          (MemStorage.getOrder (Overlap.store (fst (Overlap.run config es st))) orderId)
        = Some OrderStatus.COMPLETE).
Proof.
  intros ext config before es orderId order st Hget.
  pose proof (reachable_steady config before) as Hsteady. fold st in Hsteady.
  split.
  - intros Hst Hfree. now apply run_keeps_failed with (o := order).
  - intros Hst Hspared. now apply run_keeps_complete with (o := order).
Qed.

Lemma terminal_status_kept_witness :
  let before :=
    [Whole (PostCreateOrder 1000 Sample.solarPanels);
     Whole (PostCreateOrder 1100 Sample.solarPanels);
     Whole (PostWebhook 2000 "paid" (Some "whsec_test"));
     Whole (PostWebhook 2100 "paid_2" (Some "whsec_test"));
     Whole (PostProcess 3000 4000 Sample.generationOk "1")] in
  let es :=
    [ProcessStarts 5000 "2";
     Whole (PostWebhook 5500 "failed_2" (Some "whsec_test"));
     Whole (PostWebhook 6000 "paid" (Some "whsec_test"));
     ProcessStarts 6500 "1";
     GenerationSettles 7000 0 (Returned {| result_content := "..."; result_cost := 120 |})] in
  let st := fst (Overlap.run (ext := Sample.twoCustomers) Sample.config before Overlap.initial) in
  option_map status
    (MemStorage.getOrder
       (Overlap.store (fst (Overlap.run (ext := Sample.twoCustomers) Sample.config es st))) 1)
  = Some OrderStatus.COMPLETE.
Proof.
  intros before es st.
  refine (proj2 (terminal_status_kept Sample.twoCustomers Sample.config before es 1
                   {| id := 1; status := OrderStatus.COMPLETE; topic := "solar panels";
                      wordCount := 500; price := 2500; apiCost := 120; content := "...";
                      customerEmail := "a@b.com"; stripePaymentIntentId := "pi_1";
                      createdAt := 1000; updatedAt := 4000 |} _) _ _);
    reflexivity.
Defined.

(** *** Content and cost *)

(** The cost in doubles: 120 prompt tokens cost 12 cents; 75 completion
    tokens cost 22, since [(75 / 1000) * 3 * 100] falls just short of
    22.5. *)
Example costInCents_in_doubles :
  costInCents 120 0 = 12 /\ costInCents 0 75 = 22 /\ costInCents 1200 800 = 360.
Proof. vm_compute. repeat split; reflexivity. Qed.

Lemma generatedBy_incl rs rs' o :
  incl rs rs' -> generatedBy rs o -> generatedBy rs' o.
Proof.
  intros Hincl (now & later & client & idParam & result & Hin & H).
  exists now, later, client, idParam, result. split; [apply Hincl, Hin | exact H].
Qed.

Lemma generatedBy_same rs o o' :
  topic o' = topic o -> wordCount o' = wordCount o ->
  content o' = content o -> apiCost o' = apiCost o ->
  generatedBy rs o -> generatedBy rs o'.
Proof.
  intros Ht Hw Hc Ha (now & later & client & idParam & result & Hin & Hr & Hc' & Ha').
  exists now, later, client, idParam, result.
  rewrite Ht, Hw, Hc, Ha. auto.
Qed.

Lemma serve_generated (ext : Externals) config rs :
  forall pre storage,
    wellFormed storage ->
    (forall orderId o,
        MemStorage.getOrder storage orderId = Some o ->
        (content o = "" /\ apiCost o = 0) \/ generatedBy pre o) ->
    forall orderId o,
      MemStorage.getOrder (fst (Server.serve config rs storage)) orderId = Some o ->
      (content o = "" /\ apiCost o = 0) \/ generatedBy (pre ++ rs) o.
Proof.
  induction rs as [|r rs IH]; intros pre storage Hwf Hinv orderId o Hget.
  - rewrite app_nil_r. now apply Hinv with (orderId := orderId).
  - rewrite serve_cons in Hget.
    replace (pre ++ r :: rs) with ((pre ++ [r]) ++ rs) by (now rewrite <- app_assoc).
    apply IH with (storage := fst (fst (Server.handle config r storage))) (orderId := orderId);
      [now apply handle_wellFormed | | exact Hget].
    clear orderId o Hget. intros orderId o1 Hget1.
    pose proof (handle_step config r storage orderId Hwf) as Hstep.
    rewrite Hget1 in Hstep.
    assert (Hold : forall o, MemStorage.getOrder storage orderId = Some o ->
                             topic o1 = topic o -> wordCount o1 = wordCount o ->
                             content o1 = content o -> apiCost o1 = apiCost o ->
                             (content o1 = "" /\ apiCost o1 = 0) \/ generatedBy (pre ++ [r]) o1).
    { intros o Hget Ht Hw Hc Ha.
      destruct (Hinv orderId o Hget) as [[Hc0 Ha0] | Hgen].
      - left. split; congruence.
      - right. apply generatedBy_incl with (rs := pre); [apply incl_appl, incl_refl|].
        now apply generatedBy_same with (o := o). }
    inversion Hstep as [ ? ? | ? ? ? Hs Hc Ha | ? ? ? ? ? o Hev Hbefore
                       | ? ? ? ? o Hev Hbefore
                       | ? ? ? ? o result Hs Hres Hbefore
                       | ? ? ? ? o e Hs Hres Hbefore ]; subst.
    + apply Hold with (o := o1); auto.
    + left. auto.
    + apply Hold with (o := o); auto.
    + apply Hold with (o := o); auto.
    + right. exists now, later, client, idParam, result.
      split; [apply in_or_app; right; left; reflexivity|].
      simpl. auto.
    + apply Hold with (o := o); auto.
Qed.

(** C5, as stated, fails: the two fields are written together, but a
    generation can succeed with an empty text and still report a cost.
    When the chat completion carries no text and 120 prompt tokens,
    [generateContent] resolves to the empty content and a cost of 12; the
    order is then complete with [content] as absent as at creation and
    [apiCost] present. *)
Lemma empty_generation_sets_cost_without_content :
  let rs := [PostCreateOrder 1000 Sample.solarPanels;
             PostWebhook 2000 "paid" (Some "whsec_test");
             PostProcess 3000 4000 (generateContent Sample.emptyCompletion) "1"] in
  let final := fst (Server.serve (ext := Sample.externals) Sample.config rs MemStorage.new) in
  exists o,
    MemStorage.getOrder final 1 = Some o
    /\ status o = OrderStatus.COMPLETE
    /\ content o = "" /\ apiCost o = 12
    /\ ~ bothAbsentOrBothPresent o.
Proof.
  eexists. split; [vm_compute; reflexivity|].
  repeat split.
  unfold bothAbsentOrBothPresent, contentAbsent, apiCostAbsent. simpl.
  intros [[_ H] | [H _]]; [discriminate | now apply H].
Qed.

(** C5, amended.  In every store reached from the empty one by requests
    to the routes, each order holds in [content] and [apiCost] either the
    two values it was created with (the empty text and 0) or the text and
    the cost that one successful generation for it returned: the two fields
    are only ever written together, and only when a generation succeeds.
    Hence, as long as every successful generation returns some text and a
    cost that is not zero, the two fields are both absent or both present. *)
Theorem content_and_apiCost_set_together :
  forall (ext : Externals) config rs orderId o,
    MemStorage.getOrder (fst (Server.serve config rs MemStorage.new)) orderId = Some o ->
    ((content o = "" /\ apiCost o = 0) \/ generatedBy rs o)
    /\ (generationsProductive rs -> bothAbsentOrBothPresent o).
Proof.
  intros ext config rs orderId o Hget.
  assert (H : (content o = "" /\ apiCost o = 0) \/ generatedBy ([] ++ rs) o).
  { apply serve_generated with (ext := ext) (config := config) (storage := MemStorage.new)
                               (orderId := orderId);
      [apply wellFormed_new | | exact Hget].
    intros k v Hk. discriminate Hk. }
  simpl in H. split; [exact H|].
  intros Hprod. destruct H as [[Hc Ha] | (now & later & client & idParam & result & Hin & Hr & Hc & Ha)].
  - left. split; assumption.
  - right. destruct (Hprod _ _ _ _ _ _ _ Hin Hr) as [Hc' Ha'].
    unfold contentAbsent, apiCostAbsent. split; congruence.
Qed.

Lemma content_and_apiCost_set_together_witness :
  let rs := [PostCreateOrder 1000 Sample.solarPanels;
             PostWebhook 2000 "paid" (Some "whsec_test");
             PostProcess 3000 4000 Sample.generationOk "1"] in
  let o := {| id := 1; status := OrderStatus.COMPLETE; topic := "solar panels";
              wordCount := 500; price := 2500; apiCost := 120; content := "...";
              customerEmail := "a@b.com"; stripePaymentIntentId := "pi_1";
              createdAt := 1000; updatedAt := 4000 |} in
  ((content o = "" /\ apiCost o = 0) \/ generatedBy rs o)
  /\ (generationsProductive rs -> bothAbsentOrBothPresent o).
Proof.
  intros rs o.
  apply (content_and_apiCost_set_together Sample.externals Sample.config rs 1 o).
  reflexivity.
Defined.

(* ================================================================== *)
(** ** Further properties of the code *)
(* ================================================================== *)

(** *** Printing and reading an id *)

Lemma parseDigits_acc d : forall acc,
  JS.parseDigits (NilEmpty.string_of_uint d) (Zpos acc) true
  = Some (Zpos (Pos.of_uint_acc d acc)).
Proof.
  induction d; intros acc; cbn [NilEmpty.string_of_uint JS.parseDigits Pos.of_uint_acc];
    try reflexivity;
    match goal with
    | |- context [JS.isDigit ?c] =>
        change (JS.isDigit c) with true; cbv iota;
        rewrite <- IHd; f_equal;
        let v := eval vm_compute in (JS.digitValue c) in
        change (JS.digitValue c) with v;
        lia
    end.
Qed.

Lemma parseDigits_uint d : forall seen,
  JS.parseDigits (NilEmpty.string_of_uint d) 0 seen
  = match d with
    | Decimal.Nil => if seen then Some 0 else None
    | _ => Some (Z.of_N (Pos.of_uint d))
    end.
Proof.
  induction d; intros seen; cbn [NilEmpty.string_of_uint JS.parseDigits Pos.of_uint];
    try reflexivity.
  - change (JS.isDigit "0") with true. cbv iota.
    change (10 * 0 + JS.digitValue "0") with 0. rewrite IHd.
    destruct d; reflexivity.
  - change (JS.isDigit "1") with true; cbv iota. apply (parseDigits_acc d 1).
  - change (JS.isDigit "2") with true; cbv iota. apply (parseDigits_acc d 2).
  - change (JS.isDigit "3") with true; cbv iota. apply (parseDigits_acc d 3).
  - change (JS.isDigit "4") with true; cbv iota. apply (parseDigits_acc d 4).
  - change (JS.isDigit "5") with true; cbv iota. apply (parseDigits_acc d 5).
  - change (JS.isDigit "6") with true; cbv iota. apply (parseDigits_acc d 6).
  - change (JS.isDigit "7") with true; cbv iota. apply (parseDigits_acc d 7).
  - change (JS.isDigit "8") with true; cbv iota. apply (parseDigits_acc d 8).
  - change (JS.isDigit "9") with true; cbv iota. apply (parseDigits_acc d 9).
Qed.

Lemma parseInt_positive p :
  JS.parseInt (NilEmpty.string_of_uint (Pos.to_uint p)) = Some (Zpos p).
Proof.
  pose proof (DecimalPos.Unsigned.of_to p) as Hof.
  pose proof (DecimalPos.Unsigned.to_uint_nonnil p) as Hnil.
  pose proof (parseDigits_uint (Pos.to_uint p) false) as Hd.
  destruct (Pos.to_uint p) as [|d|d|d|d|d|d|d|d|d|d]; [congruence| ..];
    unfold JS.parseInt; cbn [NilEmpty.string_of_uint JS.trimStart] in *;
    match goal with
    | |- context [JS.isWhiteSpace ?c] => change (JS.isWhiteSpace c) with false; cbv iota
    end;
    rewrite Hd, Hof; reflexivity.
Qed.

Lemma parseInt_toString n : JS.parseInt (JS.toString n) = Some n.
Proof.
  unfold JS.toString. destruct n as [|p|p]; cbn [Z.to_int NilZero.string_of_int].
  - reflexivity.
  - pose proof (DecimalPos.Unsigned.to_uint_nonnil p) as Hnil.
    pose proof (parseInt_positive p) as H.
    unfold NilZero.string_of_uint. destruct (Pos.to_uint p); [congruence | exact H ..].
  - pose proof (DecimalPos.Unsigned.to_uint_nonnil p) as Hnil.
    pose proof (DecimalPos.Unsigned.of_to p) as Hof.
    pose proof (parseDigits_uint (Pos.to_uint p) false) as Hd.
    unfold JS.parseInt. cbn [JS.trimStart].
    change (JS.isWhiteSpace "-") with false. cbv iota.
    unfold NilZero.string_of_uint.
    destruct (Pos.to_uint p); [congruence| ..]; rewrite Hd, Hof; reflexivity.
Qed.

(** *** The order store *)

(** X1.  In a store whose keys are below the id counter, [createOrder]
    returns an order under the counter's value as a new id, [getOrder] finds
    exactly that order under it, every other id reads as before, the
    settings are untouched and the counter moves on by one. *)
Theorem createOrder_then_getOrder :
  forall storage now draft,
    wellFormed storage ->
    let '(storage', order) := MemStorage.createOrder storage now draft in
    id order = MemStorage.orderIdCounter storage
    /\ MemStorage.getOrder storage (id order) = None
    /\ MemStorage.getOrder storage' (id order) = Some order
    /\ (forall other, other <> id order ->
                      MemStorage.getOrder storage' other = MemStorage.getOrder storage other)
    /\ MemStorage.orderIdCounter storage' = id order + 1
    /\ MemStorage.getSettings storage' = MemStorage.getSettings storage
    /\ status order = OrderStatus.PENDING /\ content order = "" /\ apiCost order = 0
    /\ createdAt order = now /\ updatedAt order = now.
Proof.
  intros storage now draft Hwf. simpl.
  split; [reflexivity|]. split; [now apply getOrder_counter|].
  split; [unfold MemStorage.getOrder; simpl; apply get_set_same|].
  split; [|repeat split].
  intros other Hne. unfold MemStorage.getOrder. simpl. now apply get_set_other.
Qed.

Lemma createOrder_then_getOrder_witness :
  let '(storage', order) :=
    MemStorage.createOrder Sample.oneOrder 2000 Sample.solarPanelsDraft in
  id order = 2
  /\ MemStorage.getOrder Sample.oneOrder (id order) = None
  /\ MemStorage.getOrder storage' (id order) = Some order
  /\ (forall other, other <> id order ->
                    MemStorage.getOrder storage' other
                    = MemStorage.getOrder Sample.oneOrder other)
  /\ MemStorage.orderIdCounter storage' = id order + 1
  /\ MemStorage.getSettings storage' = MemStorage.getSettings Sample.oneOrder
  /\ status order = OrderStatus.PENDING /\ content order = "" /\ apiCost order = 0
  /\ createdAt order = 2000 /\ updatedAt order = 2000.
Proof.
  apply (createOrder_then_getOrder Sample.oneOrder 2000 Sample.solarPanelsDraft).
  unfold wellFormed. vm_compute. repeat constructor.
Defined.

Lemma keys_set_present (V : Type) (m : JS.Map V) k v v0 :
  JS.get k m = Some v0 -> map fst (JS.set k v m) = map fst m.
Proof.
  induction m as [|[k1 v1] m IH]; simpl; [discriminate|].
  destruct (k =? k1) eqn:E.
  - apply Z.eqb_eq in E. subst. reflexivity.
  - intros H. simpl. now rewrite IH.
Qed.

Lemma keys_updateOrder storage now orderId updateData :
  map fst (MemStorage.orders (fst (MemStorage.updateOrder storage now orderId updateData)))
  = map fst (MemStorage.orders storage)
  /\ MemStorage.orderIdCounter (fst (MemStorage.updateOrder storage now orderId updateData))
     = MemStorage.orderIdCounter storage
  /\ MemStorage.settings (fst (MemStorage.updateOrder storage now orderId updateData))
     = MemStorage.settings storage.
Proof.
  unfold MemStorage.updateOrder.
  destruct (JS.get orderId (MemStorage.orders storage)) as [o|] eqn:E; simpl; [|auto].
  split; [|auto]. now apply keys_set_present with (v0 := o).
Qed.

(** The keys and the counter after one request: as before, or one key
    more, the old value of the counter. *)
Lemma handle_keys (ext : Externals) config r storage :
  wellFormed storage ->
  let storage' := fst (fst (Server.handle config r storage)) in
  (map fst (MemStorage.orders storage') = map fst (MemStorage.orders storage)
   /\ MemStorage.orderIdCounter storage' = MemStorage.orderIdCounter storage)
  \/ (map fst (MemStorage.orders storage')
      = map fst (MemStorage.orders storage) ++ [MemStorage.orderIdCounter storage]
      /\ MemStorage.orderIdCounter storage' = MemStorage.orderIdCounter storage + 1).
Proof.
  intros Hwf.
  destruct r as [now reqBody | now reqBody signature
                | now later client idParam | now | | newSettings];
    cbn [Server.handle].
  - unfold Orders.createOrderRoute.
    destruct (Orders.createOrderRequestSchema reqBody) as [[[t w] e]|]; [|left; auto].
    right. cbn. split; [|reflexivity].
    rewrite (set_fresh _ _ _ _ (wellFormed_fresh _ Hwf)). rewrite map_app. reflexivity.
  - left. unfold Stripe.webhook.
    destruct (constructEvent reqBody signature (STRIPE_WEBHOOK_SECRET config)) as [ev|];
      [|auto].
    unfold Stripe.handleEvent.
    destruct ev as [metadata paymentRef | paymentIntentId | ty]; [| |auto].
    + destruct (JS.parseInt _) as [orderId|]; [|auto].
      destruct (MemStorage.getOrder storage orderId); [|auto].
      cbn [fst]. split; apply keys_updateOrder.
    + destruct (MemStorage.getOrderByPaymentIntent storage paymentIntentId); [|auto].
      cbn [fst]. split; apply keys_updateOrder.
  - left. unfold Orders.processRoute, Orders.processBegin.
    destruct (JS.parseInt idParam) as [orderId|]; [|auto].
    destruct (MemStorage.getOrder storage orderId) as [order|]; [|auto].
    destruct (negb (OrderStatus.eqb (status order) OrderStatus.PENDING)); [auto|].
    unfold Orders.processEnd.
    destruct (client (topic order) (wordCount order)); cbn [fst];
      (split;
       [ etransitivity; [apply keys_updateOrder | apply keys_updateOrder]
       | etransitivity; [apply keys_updateOrder | apply keys_updateOrder] ]).
  - left. auto.
  - left. destruct (getSettingsRoute_orders storage) as [Ho Hc]. now rewrite Ho, Hc.
  - left. destruct newSettings; auto.
Qed.

Lemma get_In_keys (V : Type) (m : JS.Map V) k :
  JS.get k m <> None <-> In k (map fst m).
Proof.
  induction m as [|[k1 v1] m IH]; simpl.
  - split; [congruence | tauto].
  - destruct (k =? k1) eqn:E.
    + apply Z.eqb_eq in E. subst. split; [auto | congruence].
    + apply Z.eqb_neq in E. rewrite IH. split; [auto | intros [H|H]; [congruence | exact H]].
Qed.

(** X2.  Order ids are consecutive.  In every store reached from the
    empty one by requests to the routes, the keys of the order map are
    1, 2, ..., n in this order, where n + 1 is the id counter; so an id is
    found exactly when it lies between 1 and the number of orders created,
    and no order is ever removed or renumbered. *)
Theorem order_ids_consecutive :
  forall (ext : Externals) config rs,
    let storage := fst (Server.serve config rs MemStorage.new) in
    exists n : nat,
      MemStorage.orderIdCounter storage = Z.of_nat n + 1
      /\ map fst (MemStorage.orders storage) = map Z.of_nat (seq 1 n)
      /\ forall orderId,
          MemStorage.getOrder storage orderId <> None <-> 1 <= orderId <= Z.of_nat n.
Proof.
  intros ext config rs.
  assert (H : forall rs storage (n : nat),
             wellFormed storage ->
             MemStorage.orderIdCounter storage = Z.of_nat n + 1 ->
             map fst (MemStorage.orders storage) = map Z.of_nat (seq 1 n) ->
             exists n' : nat,
               MemStorage.orderIdCounter (fst (Server.serve config rs storage))
               = Z.of_nat n' + 1
               /\ map fst (MemStorage.orders (fst (Server.serve config rs storage)))
                  = map Z.of_nat (seq 1 n')).
  { clear rs. induction rs as [|r rs IH]; intros storage n Hwf Hc Hk.
    - exists n. auto.
    - rewrite serve_cons.
      pose proof (handle_wellFormed config r storage Hwf) as Hwf1.
      destruct (handle_keys ext config r storage Hwf) as [[Hk1 Hc1] | [Hk1 Hc1]].
      + apply (IH _ n Hwf1); congruence.
      + apply (IH _ (S n) Hwf1).
        * rewrite Hc1, Hc. lia.
        * rewrite Hk1, Hk, Hc, seq_S, map_app. simpl. do 3 f_equal. lia. }
  destruct (H rs MemStorage.new 0%nat wellFormed_new eq_refl eq_refl) as (n & Hc & Hk).
  exists n. split; [exact Hc|]. split; [exact Hk|].
  intros orderId. unfold MemStorage.getOrder. rewrite get_In_keys, Hk, in_map_iff.
  split.
  - intros (i & <- & Hi). apply in_seq in Hi. lia.
  - intros Hr. exists (Z.to_nat orderId). split; [lia|]. apply in_seq. lia.
Qed.

(** X3.  What a request never changes.  Under every sequence of requests
    to the routes an order stays in the store, under its id, with the
    topic, word count, price, customer e-mail and creation time it was
    created with: in particular the price is not computed again when the
    pricing settings change, and [updatedAt] never goes back in favour of
    [createdAt]. *)
Theorem order_core_fields_kept :
  forall (ext : Externals) config rs storage orderId order,
    wellFormed storage ->
    MemStorage.getOrder storage orderId = Some order ->
    exists order',
      MemStorage.getOrder (fst (Server.serve config rs storage)) orderId = Some order'
      /\ id order' = id order
      /\ topic order' = topic order
      /\ wordCount order' = wordCount order
      /\ price order' = price order
      /\ customerEmail order' = customerEmail order
      /\ createdAt order' = createdAt order.
Proof.
  intros ext config rs.
  induction rs as [|r rs IH]; intros storage orderId order Hwf Hget.
  - exists order. repeat split; auto.
  - rewrite serve_cons.
    pose proof (handle_step config r storage orderId Hwf) as Hstep.
    pose proof (handle_wellFormed config r storage Hwf) as Hwf1.
    set (storage1 := fst (fst (Server.handle config r storage))) in *.
    rewrite Hget in Hstep.
    assert (Hnext : exists order1,
               MemStorage.getOrder storage1 orderId = Some order1
               /\ id order1 = id order /\ topic order1 = topic order
               /\ wordCount order1 = wordCount order /\ price order1 = price order
               /\ customerEmail order1 = customerEmail order
               /\ createdAt order1 = createdAt order).
    { remember (MemStorage.getOrder storage1 orderId) as after eqn:Hafter.
      clear Hafter.
      inversion Hstep; subst; eexists; (split; [reflexivity | repeat split]). }
    destruct Hnext as (order1 & Hget1 & E1 & E2 & E3 & E4 & E5 & E6).
    destruct (IH storage1 orderId order1 Hwf1 Hget1)
      as (order' & Hget' & F1 & F2 & F3 & F4 & F5 & F6).
    exists order'. repeat split; congruence.
Qed.

Lemma order_core_fields_kept_witness :
  exists order',
    MemStorage.getOrder
      (fst (Server.serve (ext := Sample.externals) Sample.config
              [PatchSettings (SectionPricing {| pricePerWord := Some 9 |});
               PostWebhook 2000 "paid" (Some "whsec_test");
               PostProcess 3000 4000 Sample.generationOk "1"]
              Sample.oneOrder)) 1
    = Some order'
    /\ id order' = 1
    /\ topic order' = "solar panels"
    /\ wordCount order' = 500
    /\ price order' = 2500
    /\ customerEmail order' = "a@b.com"
    /\ createdAt order' = 1000.
Proof.
  apply (order_core_fields_kept Sample.externals Sample.config
           [PatchSettings (SectionPricing {| pricePerWord := Some 9 |});
            PostWebhook 2000 "paid" (Some "whsec_test");
            PostProcess 3000 4000 Sample.generationOk "1"]
           Sample.oneOrder 1
           {| id := 1; status := OrderStatus.PENDING; topic := "solar panels";
              wordCount := 500; price := 2500; apiCost := 0; content := "";
              customerEmail := "a@b.com"; stripePaymentIntentId := "";
              createdAt := 1000; updatedAt := 1000 |}).
  - unfold wellFormed. vm_compute. repeat constructor.
  - reflexivity.
Defined.

(** X4.  [updateOrder] on an id that is not stored returns [undefined]
    and the store as it was.  On a stored id it returns the stored order
    with the given fields replaced and [updatedAt] set to the current time,
    stores it under the same id at the same place of the map, and leaves
    every other order, the settings and the id counter alone. *)
Theorem updateOrder_touches_its_target_only :
  forall storage now orderId updateData,
    let '(storage', result) := MemStorage.updateOrder storage now orderId updateData in
    match MemStorage.getOrder storage orderId with
    | None => storage' = storage /\ result = None
    | Some order =>
        result = Some (MemStorage.applyUpdate order updateData now)
        /\ MemStorage.getOrder storage' orderId = result
        /\ (forall other, other <> orderId ->
                          MemStorage.getOrder storage' other
                          = MemStorage.getOrder storage other)
        /\ map fst (MemStorage.orders storage') = map fst (MemStorage.orders storage)
        /\ MemStorage.getSettings storage' = MemStorage.getSettings storage
        /\ MemStorage.orderIdCounter storage' = MemStorage.orderIdCounter storage
    end.
Proof.
  intros storage now orderId updateData.
  destruct (MemStorage.getOrder storage orderId) as [order|] eqn:Hget.
  - rewrite (updateOrder_found _ now _ updateData _ Hget).
    split; [reflexivity|].
    split; [unfold MemStorage.getOrder; simpl; apply get_set_same|].
    split; [intros other Hne; unfold MemStorage.getOrder; simpl; now apply get_set_other|].
    split; [simpl; now apply keys_set_present with (v0 := order)|].
    split; reflexivity.
  - rewrite (updateOrder_missing _ now _ updateData Hget). auto.
Qed.

(** *** Payment references *)

Lemma find_reference_after_update (m : JS.Map Order) orderId (o v : Order) p :
  JS.get orderId m = Some o ->
  (forall k o', In (k, o') m -> k <> orderId -> stripePaymentIntentId o' <> p) ->
  stripePaymentIntentId v = p ->
  JS.find (fun order => String.eqb (stripePaymentIntentId order) p)
          (JS.values (JS.set orderId v m)) = Some v.
Proof.
  intros Hget Hothers Hv.
  induction m as [|[k1 v1] m IH]; simpl in *; [discriminate|].
  destruct (orderId =? k1) eqn:E.
  - simpl. unfold JS.find. simpl. now rewrite Hv, String.eqb_refl.
  - apply Z.eqb_neq in E. unfold JS.find in *. simpl.
    assert (stripePaymentIntentId v1 <> p) as Hne by (apply (Hothers k1); auto).
    apply String.eqb_neq in Hne. rewrite Hne.
    apply IH; [exact Hget|]. intros k o' Hin. apply Hothers. now right.
Qed.

Lemma find_reference_none (l : list Order) p :
  Forall (fun o => stripePaymentIntentId o <> p) l ->
  JS.find (fun order => String.eqb (stripePaymentIntentId order) p) l = None.
Proof.
  unfold JS.find. induction 1 as [|o l Ho Hl IH]; simpl; [reflexivity|].
  apply String.eqb_neq in Ho. now rewrite Ho.
Qed.

(** X5.  Recording a payment and finding the order by it.  When no other
    order holds the payment reference, the payment-succeeded event makes the
    order the one that [getOrderByPaymentIntent] returns for the reference,
    and a payment-failed event for the reference then sets the status of
    exactly this order to [failed], whatever its status was, sends one
    payment-failed e-mail to its customer and is acknowledged with 200;
    every other order reads as before. *)
Theorem payment_failure_finds_recorded_order :
  forall config now now' orderRef p orderId order storage,
    wellFormed storage ->
    JS.parseInt orderRef = Some orderId ->
    MemStorage.getOrder storage orderId = Some order ->
    (forall k o', In (k, o') (MemStorage.orders storage) -> k <> orderId ->
                  stripePaymentIntentId o' <> p) ->
    let '(s1, _, _) :=
      Stripe.handleEvent config now (CheckoutSessionCompleted (Some orderRef) p) storage in
    let '(s2, r2, c2) := Stripe.handleEvent config now' (PaymentIntentPaymentFailed p) s1 in
    let paid := MemStorage.applyUpdate order (recordPayment p) now in
    MemStorage.getOrderByPaymentIntent s1 p = Some paid
    /\ r2 = json 200 Received
    /\ MemStorage.getOrder s2 orderId
       = Some (MemStorage.applyUpdate paid (setStatus OrderStatus.FAILED) now')
    /\ (forall other, other <> orderId ->
                      MemStorage.getOrder s2 other = MemStorage.getOrder storage other)
    /\ exists mail, c2 = [SendEmail mail]
                    /\ to mail = customerEmail order /\ template mail = payment_failed.
Proof.
  intros config now now' orderRef p orderId order storage Hwf Hid Hget Hothers.
  unfold Stripe.handleEvent at 1. rewrite Hid, Hget.
  set (paid := MemStorage.applyUpdate order (recordPayment p) now).
  set (s1 := fst (MemStorage.updateOrder storage now orderId _)).
  assert (Hget1 : MemStorage.getOrder s1 orderId = Some paid)
    by (apply getOrder_updateOrder_same; exact Hget).
  assert (Hfind : MemStorage.getOrderByPaymentIntent s1 p = Some paid).
  { subst s1. rewrite (updateOrder_found _ _ _ _ _ Hget). cbn [fst].
    unfold MemStorage.getOrderByPaymentIntent. cbn [MemStorage.orders].
    apply find_reference_after_update with (o := order); auto. }
  assert (Hkey : id order = orderId).
  { unfold wellFormed in Hwf. rewrite Forall_forall in Hwf.
    apply get_In in Hget. apply Hwf in Hget. tauto. }
  unfold Stripe.handleEvent. rewrite Hfind.
  change (id paid) with (id order). rewrite Hkey.
  split; [reflexivity|]. split; [reflexivity|].
  split; [now apply getOrder_updateOrder_same|].
  split.
  - intros other Hne. rewrite getOrder_updateOrder_other by exact Hne.
    subst s1. now apply getOrder_updateOrder_other.
  - eexists. split; [reflexivity|]. split; reflexivity.
Qed.

Lemma payment_failure_finds_recorded_order_witness :
  let '(s1, _, _) := Stripe.handleEvent Sample.config 2000 Sample.paid Sample.oneOrder in
  let '(s2, r2, c2) := Stripe.handleEvent Sample.config 3000 Sample.paymentFailed s1 in
  let paid :=
    {| id := 1; status := OrderStatus.PENDING; topic := "solar panels";
       wordCount := 500; price := 2500; apiCost := 0; content := "";
       customerEmail := "a@b.com"; stripePaymentIntentId := "pi_1";
       createdAt := 1000; updatedAt := 2000 |} in
  MemStorage.getOrderByPaymentIntent s1 "pi_1" = Some paid
  /\ r2 = json 200 Received
  /\ MemStorage.getOrder s2 1
     = Some (MemStorage.applyUpdate paid (setStatus OrderStatus.FAILED) 3000)
  /\ (forall other, other <> 1 ->
                    MemStorage.getOrder s2 other = MemStorage.getOrder Sample.oneOrder other)
  /\ exists mail, c2 = [SendEmail mail]
                  /\ to mail = "a@b.com" /\ template mail = payment_failed.
Proof.
  apply (payment_failure_finds_recorded_order Sample.config 2000 3000 "1" "pi_1" 1
           {| id := 1; status := OrderStatus.PENDING; topic := "solar panels";
              wordCount := 500; price := 2500; apiCost := 0; content := "";
              customerEmail := "a@b.com"; stripePaymentIntentId := "";
              createdAt := 1000; updatedAt := 1000 |} Sample.oneOrder).
  - unfold wellFormed. vm_compute. repeat constructor.
  - reflexivity.
  - reflexivity.
  - intros k o' [H|[]] Hne. injection H as <- <-. now contradiction Hne.
Defined.

(** X6.  A payment-failed event is matched to an order only through a
    payment reference that a completed checkout has recorded.  When no
    stored order holds the reference of the event (as for every order that
    has not completed its checkout: those hold the empty reference), the
    event is acknowledged with 200 and nothing else happens: no status
    changes and no e-mail is sent. *)
Theorem payment_failure_without_record_is_dropped :
  forall config now p storage,
    Forall (fun o => stripePaymentIntentId o <> p)
           (JS.values (MemStorage.orders storage)) ->
    Stripe.handleEvent config now (PaymentIntentPaymentFailed p) storage
    = (storage, json 200 Received, []).
Proof.
  intros config now p storage Hnone. unfold Stripe.handleEvent.
  unfold MemStorage.getOrderByPaymentIntent. now rewrite find_reference_none.
Qed.

Lemma payment_failure_without_record_is_dropped_witness :
  Stripe.handleEvent Sample.config 2000 (PaymentIntentPaymentFailed "pi_1") Sample.oneOrder
  = (Sample.oneOrder, json 200 Received, []).
Proof.
  apply (payment_failure_without_record_is_dropped Sample.config 2000 "pi_1" Sample.oneOrder).
  repeat constructor. discriminate.
Defined.

(** X7.  How the webhook answers a verified event.  A payment-succeeded
    event whose order metadata does not read as a number is answered 400
    "Invalid order ID", and one whose order id is not stored is answered 404
    "Order not found"; in both cases the store is unchanged and no call is
    issued.  Every other event is acknowledged with 200, and an event of
    any other type than the two the webhook handles is ignored besides. *)
Theorem webhook_answers :
  forall config now event storage,
    let '(storage', response, calls) := Stripe.handleEvent config now event storage in
    let unreadable :=
      exists metadata p,
        event = CheckoutSessionCompleted metadata p
        /\ JS.parseInt (match metadata with Some s => s | None => "" end) = None in
    let unknown :=
      exists metadata p orderId,
        event = CheckoutSessionCompleted metadata p
        /\ JS.parseInt (match metadata with Some s => s | None => "" end) = Some orderId
        /\ MemStorage.getOrder storage orderId = None in
    (unreadable ->
     storage' = storage /\ response = json 400 (Message "Invalid order ID") /\ calls = [])
    /\ (unknown ->
        storage' = storage /\ response = json 404 (Message "Order not found") /\ calls = [])
    /\ (~ unreadable -> ~ unknown -> response = json 200 Received)
    /\ (forall type, event = OtherEvent type ->
                     storage' = storage /\ response = json 200 Received /\ calls = []).
Proof.
  intros config now event storage. unfold Stripe.handleEvent.
  destruct event as [metadata p | p | type].
  - destruct (JS.parseInt _) as [orderId|] eqn:Hid.
    + destruct (MemStorage.getOrder storage orderId) eqn:Hget; cbv zeta.
      * split; [intros (m & q & [= <- <-] & Hbad); congruence|].
        split; [intros (m & q & k & [= <- <-] & Hk & Hnone); congruence|].
        split; [reflexivity | discriminate].
      * split; [intros (m & q & [= <- <-] & Hbad); congruence|].
        split; [auto|]. split; [|discriminate].
        intros _ Hknown. exfalso. apply Hknown. exists metadata, p, orderId. auto.
    + cbv zeta. split; [auto|].
      split; [intros (m & q & k & [= <- <-] & Hk & Hnone); congruence|].
      split; [|discriminate].
      intros Hbad _. exfalso. apply Hbad. exists metadata, p. auto.
  - destruct (MemStorage.getOrderByPaymentIntent storage p); cbv zeta;
      (split; [intros (m & q & [=] & _)|];
       split; [intros (m & q & k & [=] & _)|];
       split; [reflexivity | discriminate]).
  - cbv zeta. split; [intros (m & q & [=] & _)|].
    split; [intros (m & q & k & [=] & _)|].
    split; [reflexivity | auto].
Qed.

(** *** Statistics *)

Lemma values_set_map (A : Type) (f : Order -> A) (m : JS.Map Order) k (o v : Order) :
  JS.get k m = Some o -> f v = f o ->
  map f (JS.values (JS.set k v m)) = map f (JS.values m).
Proof.
  intros Hget Hf. induction m as [|[k1 v1] m IH]; simpl in *; [discriminate|].
  destruct (k =? k1) eqn:E.
  - injection Hget as ->. simpl. now rewrite Hf.
  - simpl. f_equal. now apply IH.
Qed.

Lemma prices_updateOrder storage now orderId updateData :
  map price (JS.values (MemStorage.orders
                          (fst (MemStorage.updateOrder storage now orderId updateData))))
  = map price (JS.values (MemStorage.orders storage)).
Proof.
  unfold MemStorage.updateOrder.
  destruct (JS.get orderId (MemStorage.orders storage)) as [o|] eqn:E; simpl; [|reflexivity].
  now apply values_set_map with (o := o).
Qed.

(** The prices in the store after one request: as before, or with the
    price of the order just created at the end. *)
Lemma handle_prices (ext : Externals) config r storage :
  wellFormed storage ->
  let storage' := fst (fst (Server.handle config r storage)) in
  (map price (JS.values (MemStorage.orders storage'))
   = map price (JS.values (MemStorage.orders storage))
   /\ MemStorage.getOrder storage' (MemStorage.orderIdCounter storage) = None)
  \/ (exists created,
         JS.values (MemStorage.orders storage')
         = JS.values (MemStorage.orders storage) ++ [created]
         /\ MemStorage.getOrder storage' (MemStorage.orderIdCounter storage) = Some created
         /\ status created = OrderStatus.PENDING).
Proof.
  intros Hwf storage'.
  assert (Hsame : map fst (MemStorage.orders storage') = map fst (MemStorage.orders storage) ->
                  MemStorage.getOrder storage' (MemStorage.orderIdCounter storage) = None).
  { intros Hk. pose proof (getOrder_counter _ Hwf) as Hnone.
    unfold MemStorage.getOrder in *.
    destruct (JS.get _ (MemStorage.orders storage')) eqn:E; [|reflexivity].
    exfalso. assert (Hin : JS.get (MemStorage.orderIdCounter storage)
                                  (MemStorage.orders storage) <> None).
    { apply get_In_keys. rewrite <- Hk. apply get_In_keys. congruence. }
    contradiction. }
  subst storage'.
  destruct r as [now reqBody | now reqBody signature
                | now later client idParam | now | | newSettings];
    cbn [Server.handle] in *.
  - unfold Orders.createOrderRoute in *.
    destruct (Orders.createOrderRequestSchema reqBody) as [[[t w] e]|]; [|left; auto].
    right. eexists. cbn.
    rewrite (set_fresh _ _ _ _ (wellFormed_fresh _ Hwf)).
    unfold JS.values. rewrite map_app. split; [reflexivity|].
    split; [|reflexivity].
    unfold MemStorage.getOrder. cbn.
    rewrite <- (set_fresh _ _ _ _ (wellFormed_fresh _ Hwf)). apply get_set_same.
  - left. unfold Stripe.webhook in *.
    destruct (constructEvent reqBody signature (STRIPE_WEBHOOK_SECRET config)) as [ev|];
      [|auto].
    unfold Stripe.handleEvent in *.
    destruct ev as [metadata paymentRef | paymentIntentId | ty]; [| |auto].
    + destruct (JS.parseInt _) as [orderId|]; [|auto].
      destruct (MemStorage.getOrder storage orderId); [|auto].
      cbn [fst] in *. split; [apply prices_updateOrder | apply Hsame, keys_updateOrder].
    + destruct (MemStorage.getOrderByPaymentIntent storage paymentIntentId); [|auto].
      cbn [fst] in *. split; [apply prices_updateOrder | apply Hsame, keys_updateOrder].
  - left. unfold Orders.processRoute, Orders.processBegin in *.
    destruct (JS.parseInt idParam) as [orderId|]; [|auto].
    destruct (MemStorage.getOrder storage orderId) as [order|]; [|auto].
    destruct (negb (OrderStatus.eqb (status order) OrderStatus.PENDING)); [auto|].
    unfold Orders.processEnd in *.
    destruct (client (topic order) (wordCount order)); cbn [fst] in *;
      (split;
       [ etransitivity; [apply prices_updateOrder | apply prices_updateOrder]
       | apply Hsame; etransitivity; [apply keys_updateOrder | apply keys_updateOrder] ]).
  - left. auto.
  - left. destruct (getSettingsRoute_orders storage) as [Ho Hc].
    split; [now rewrite Ho | apply Hsame; now rewrite Ho].
  - left. destruct newSettings; auto.
Qed.

Lemma revenue_as_sum (l : list Order) (a : Z) :
  fold_left (fun sum order => sum + price order) l a = fold_left Z.add (map price l) a.
Proof.
  revert a. induction l as [|o l IH]; intros a; simpl; [reflexivity | apply IH].
Qed.

(** X8.  The statistics follow the creation of orders and nothing else.
    A request that creates no order leaves [totalOrders] and [totalRevenue]
    as they were, whatever it does to the status of an order (a failed
    payment or a failed generation does not reduce the revenue); a request
    that creates an order adds one to [totalOrders] and to [pendingOrders]
    and the price of the order to [totalRevenue].  At all times
    [0 <= pendingOrders <= totalOrders]. *)
Theorem stats_follow_creations :
  forall (ext : Externals) config r storage,
    wellFormed storage ->
    let storage' := fst (fst (Server.handle config r storage)) in
    let before := MemStorage.getStats storage in
    let after := MemStorage.getStats storage' in
    match MemStorage.getOrder storage' (MemStorage.orderIdCounter storage) with
    | None =>
        MemStorage.totalOrders after = MemStorage.totalOrders before
        /\ MemStorage.totalRevenue after = MemStorage.totalRevenue before
    | Some created =>
        MemStorage.totalOrders after = MemStorage.totalOrders before + 1
        /\ MemStorage.pendingOrders after = MemStorage.pendingOrders before + 1
        /\ MemStorage.totalRevenue after = MemStorage.totalRevenue before + price created
    end
    /\ 0 <= MemStorage.pendingOrders after <= MemStorage.totalOrders after.
Proof.
  intros ext config r storage Hwf storage' before after.
  split.
  - destruct (handle_prices ext config r storage Hwf) as [[Hp Hnone] | (created & Hv & Hsome & Hst)];
      fold storage' in Hp || fold storage' in Hv.
    + fold storage' in Hnone. rewrite Hnone. subst before after.
      unfold MemStorage.getStats. cbn [MemStorage.totalOrders MemStorage.totalRevenue].
      rewrite !revenue_as_sum, Hp. split; [|reflexivity].
      rewrite <- (length_map price (JS.values (MemStorage.orders storage'))), Hp.
      now rewrite length_map.
    + fold storage' in Hsome. rewrite Hsome. subst before after.
      unfold MemStorage.getStats.
      cbn [MemStorage.totalOrders MemStorage.totalRevenue MemStorage.pendingOrders].
      rewrite Hv, filter_app, !length_app, !revenue_as_sum, map_app, fold_left_app.
      cbn [filter map fold_left List.length]. rewrite Hst. cbn [OrderStatus.eqb orb List.length].
      repeat split; lia.
  - subst after. unfold MemStorage.getStats.
    cbn [MemStorage.totalOrders MemStorage.pendingOrders].
    pose proof (filter_length_le
                  (fun order => OrderStatus.eqb (status order) OrderStatus.PENDING
                                || OrderStatus.eqb (status order) OrderStatus.PROCESSING)
                  (JS.values (MemStorage.orders storage'))).
    lia.
Qed.

Lemma stats_follow_creations_witness :
  let storage' :=
    fst (fst (Server.handle (ext := Sample.externals) Sample.config
                (PostCreateOrder 2000 Sample.solarPanels) Sample.completed)) in
  let before := MemStorage.getStats Sample.completed in
  let after := MemStorage.getStats storage' in
  match MemStorage.getOrder storage' (MemStorage.orderIdCounter Sample.completed) with
  | None =>
      MemStorage.totalOrders after = MemStorage.totalOrders before
      /\ MemStorage.totalRevenue after = MemStorage.totalRevenue before
  | Some created =>
      MemStorage.totalOrders after = MemStorage.totalOrders before + 1
      /\ MemStorage.pendingOrders after = MemStorage.pendingOrders before + 1
      /\ MemStorage.totalRevenue after = MemStorage.totalRevenue before + price created
  end
  /\ 0 <= MemStorage.pendingOrders after <= MemStorage.totalOrders after.
Proof.
  apply (stats_follow_creations Sample.externals Sample.config
           (PostCreateOrder 2000 Sample.solarPanels) Sample.completed).
  unfold wellFormed. vm_compute. repeat constructor.
Defined.

(** *** Listing, continued *)

Lemma In_insertSorted (x y : Order) l :
  In y (JS.insertSorted MemStorage.newestFirst x l) <-> y = x \/ In y l.
Proof.
  induction l as [|z l IH]; simpl.
  - intuition.
  - destruct (0 <? MemStorage.newestFirst x z); simpl; [rewrite IH|]; intuition.
Qed.

Lemma In_sort (y : Order) l : In y (JS.sort MemStorage.newestFirst l) <-> In y l.
Proof.
  induction l as [|x l IH]; simpl; [tauto|].
  rewrite In_insertSorted, IH. intuition.
Qed.

Lemma length_insertSorted (x : Order) l :
  List.length (JS.insertSorted MemStorage.newestFirst x l) = S (List.length l).
Proof.
  induction l as [|z l IH]; simpl; [reflexivity|].
  destruct (0 <? MemStorage.newestFirst x z); simpl; [now rewrite IH | reflexivity].
Qed.

Lemma length_sort (l : list Order) :
  List.length (JS.sort MemStorage.newestFirst l) = List.length l.
Proof.
  induction l as [|x l IH]; simpl; [reflexivity|]. now rewrite length_insertSorted, IH.
Qed.

Lemma In_slice (A : Type) start end_ (l : list A) x : In x (JS.slice start end_ l) -> In x l.
Proof.
  unfold JS.slice. intros H.
  rewrite <- (firstn_skipn (Z.to_nat (JS.clampIndex (Z.of_nat (List.length l)) start)) l).
  apply in_or_app. right.
  set (l' := skipn _ l) in *.
  rewrite <- (firstn_skipn (Z.to_nat (JS.clampIndex (Z.of_nat (List.length l)) end_
                                      - JS.clampIndex (Z.of_nat (List.length l)) start)) l').
  apply in_or_app. now left.
Qed.

Lemma clampIndex_bounds len i : 0 <= len -> 0 <= JS.clampIndex len i <= len.
Proof.
  unfold JS.clampIndex. destruct (i <? 0) eqn:E; [apply Z.ltb_lt in E | apply Z.ltb_ge in E]; lia.
Qed.

Lemma length_slice (A : Type) start end_ (l : list A) :
  Z.of_nat (List.length (JS.slice start end_ l))
  = Z.max 0 (JS.clampIndex (Z.of_nat (List.length l)) end_
             - JS.clampIndex (Z.of_nat (List.length l)) start).
Proof.
  unfold JS.slice. rewrite length_firstn, length_skipn.
  pose proof (clampIndex_bounds (Z.of_nat (List.length l)) start ltac:(lia)).
  pose proof (clampIndex_bounds (Z.of_nat (List.length l)) end_ ltac:(lia)).
  generalize dependent (JS.clampIndex (Z.of_nat (List.length l)) start).
  generalize dependent (JS.clampIndex (Z.of_nat (List.length l)) end_).
  intros. lia.
Qed.

(** X9.  [getRecentOrders(limit)] is the first page of the unfiltered
    listing for the page size [limit]: newest first, with
    [min(limit, n)] of the [n] stored orders for [limit >= 0].  Without an
    argument the limit is 3.  A negative limit does not give an empty list:
    it drops the [-limit] oldest orders. *)
Theorem recent_orders_are_first_page :
  forall (ext : Externals) storage now limit,
    let n := Z.of_nat (List.length (MemStorage.orders storage)) in
    MemStorage.getRecentOrders storage (Some limit)
    = page_orders (MemStorage.getAllOrders storage now (pageOptions 1 limit))
    /\ MemStorage.getRecentOrders storage None = MemStorage.getRecentOrders storage (Some 3)
    /\ StronglySorted notOlder (MemStorage.getRecentOrders storage (Some limit))
    /\ (forall o, In o (MemStorage.getRecentOrders storage (Some limit)) ->
                  In o (JS.values (MemStorage.orders storage)))
    /\ Z.of_nat (List.length (MemStorage.getRecentOrders storage (Some limit)))
       = if limit <? 0 then Z.max (n + limit) 0 else Z.min limit n.
Proof.
  intros ext storage now limit n.
  split; [reflexivity|]. split; [reflexivity|].
  unfold MemStorage.getRecentOrders.
  split; [apply slice_sorted, sort_sorted|].
  split; [intros o Ho; apply In_slice in Ho; now apply (proj1 (In_sort _ _)) in Ho|].
  rewrite length_slice, length_sort. unfold JS.values. rewrite length_map. fold n.
  unfold JS.clampIndex. cbn [Z.ltb Z.compare].
  destruct (limit <? 0) eqn:E; [apply Z.ltb_lt in E | apply Z.ltb_ge in E]; subst n; lia.
Qed.

Lemma filteredOrders_In_iff (ext : Externals) storage now options o :
  In o (MemStorage.filteredOrders storage now options)
  <-> In o (JS.values (MemStorage.orders storage))
      /\ (forall st, opt_status options = Some st -> status o = st)
      /\ (forall s, opt_search options = Some s -> s <> "" ->
                    MemStorage.matchesSearch s o = true)
      /\ (forall d, opt_dateFilter options = Some d -> d <> all ->
                    filterStartDate d now <= createdAt o).
Proof.
  unfold MemStorage.filteredOrders. rewrite In_sort.
  destruct options as [st pg lim se df]; cbn [opt_status opt_search opt_dateFilter].
  destruct st as [st0|];
    (destruct se as [s|];
     [unfold truthyString; destruct (String.eqb s "") eqn:Es; cbn [negb] | cbn]);
    destruct df as [[| | |]|];
    rewrite ?filter_In, ?Z.leb_le, ?status_eqb_eq;
    (split;
     [ intros H; decompose [and] H; repeat split; auto; intros;
       try discriminate;
       repeat match goal with
              | E : Some _ = Some _ |- _ => injection E as <-
              end;
       auto; try (apply String.eqb_eq in Es; congruence); try congruence
     | intros (H0 & H1 & H2 & H3); repeat split; auto;
       try (apply H1; reflexivity);
       try (apply H2; [reflexivity | intros ->; discriminate Es]);
       try (apply H3; [reflexivity | discriminate]) ]).
Qed.

(** X10.  What a listing returns.  An order is among the filtered orders
    exactly when it is stored and passes each filter that is set: its
    status is the requested one, the (non-empty) search text matches it, its
    creation time is not before the start date of the date filter.  Every
    order on a page is among them, and [total] is their number, whatever the
    page and the page size. *)
Theorem listing_returns_matching_orders :
  forall (ext : Externals) storage now options o,
    (In o (MemStorage.filteredOrders storage now options)
     <-> In o (JS.values (MemStorage.orders storage))
         /\ (forall st, opt_status options = Some st -> status o = st)
         /\ (forall s, opt_search options = Some s -> s <> "" ->
                       MemStorage.matchesSearch s o = true)
         /\ (forall d, opt_dateFilter options = Some d -> d <> all ->
                       filterStartDate d now <= createdAt o))
    /\ (In o (page_orders (MemStorage.getAllOrders storage now options)) ->
        In o (MemStorage.filteredOrders storage now options))
    /\ page_total (MemStorage.getAllOrders storage now options)
       = Z.of_nat (List.length (MemStorage.filteredOrders storage now options))
    /\ Z.of_nat (List.length (page_orders (MemStorage.getAllOrders storage now options)))
       <= page_total (MemStorage.getAllOrders storage now options).
Proof.
  intros ext storage now options o.
  split; [apply filteredOrders_In_iff|].
  split; [unfold MemStorage.getAllOrders; cbn [page_orders]; apply In_slice|].
  split; [reflexivity|].
  unfold MemStorage.getAllOrders. cbn [page_orders page_total].
  rewrite length_slice.
  set (len := Z.of_nat (List.length (MemStorage.filteredOrders storage now options))).
  assert (0 <= len) by (subst len; lia).
  match goal with
  | |- context [JS.clampIndex len ?e - JS.clampIndex len ?b] =>
      pose proof (clampIndex_bounds len e ltac:(assumption));
      pose proof (clampIndex_bounds len b ltac:(assumption))
  end.
  lia.
Qed.

(** X11.  Pages cut the listing without gap or overlap.  For a page size
    [limit >= 1], the order at place [i] of the filtered, newest-first list
    is the entry [i mod limit] of page [i / limit + 1]; entry [j] of page
    [page >= 1] is the order at place [(page - 1) * limit + j] of that list;
    and the page has [min(limit, total - (page - 1) * limit)] entries, or
    none when it starts past the end. *)
Theorem pages_partition_listing :
  forall (ext : Externals) storage now st se df limit,
    1 <= limit ->
    let options page :=
      {| opt_status := st; opt_page := Some page; opt_limit := Some limit;
         opt_search := se; opt_dateFilter := df |} in
    let listed := MemStorage.filteredOrders storage now (options 1) in
    (forall (i : nat) o,
        nth_error listed i = Some o
        <-> nth_error (page_orders (MemStorage.getAllOrders storage now
                                      (options (Z.of_nat i / limit + 1))))
                      (Z.to_nat (Z.of_nat i mod limit)) = Some o)
    /\ (forall page (j : nat) o,
          1 <= page ->
          nth_error (page_orders (MemStorage.getAllOrders storage now (options page))) j
          = Some o ->
          Z.of_nat j < limit
          /\ nth_error listed (Z.to_nat ((page - 1) * limit) + j) = Some o)
    /\ (forall page,
          1 <= page ->
          Z.of_nat (List.length (page_orders (MemStorage.getAllOrders storage now
                                                (options page))))
          = Z.max 0 (Z.min limit (Z.of_nat (List.length listed) - (page - 1) * limit))).
Proof.
  intros ext storage now st se df limit Hl options listed.
  assert (Hsame : forall page, MemStorage.filteredOrders storage now (options page) = listed)
    by reflexivity.
  split; [|split].
  - intros i o. unfold MemStorage.getAllOrders.
    cbn [page_orders opt_page opt_limit options]. rewrite Hsame.
    replace (Z.of_nat i / limit + 1 - 1) with (Z.of_nat i / limit) by lia.
    pose proof (Z.div_mod (Z.of_nat i) limit ltac:(lia)) as Hdm.
    pose proof (Z.mod_pos_bound (Z.of_nat i) limit ltac:(lia)) as Hmod.
    pose proof (Z.div_pos (Z.of_nat i) limit ltac:(lia) ltac:(lia)) as Hdiv.
    rewrite nth_error_slice by nia.
    replace (Z.to_nat (Z.of_nat i / limit * limit) + Z.to_nat (Z.of_nat i mod limit))%nat
      with i by nia.
    split; [intros H; split; [lia | exact H] | tauto].
  - intros page j o Hp. unfold MemStorage.getAllOrders.
    cbn [page_orders opt_page opt_limit options]. rewrite Hsame.
    rewrite nth_error_slice by nia. tauto.
  - intros page Hp. unfold MemStorage.getAllOrders.
    cbn [page_orders opt_page opt_limit options]. rewrite Hsame.
    rewrite length_slice. set (len := Z.of_nat (List.length listed)).
    assert (0 <= (page - 1) * limit) by nia.
    unfold JS.clampIndex.
    destruct ((page - 1) * limit <? 0) eqn:E1; [apply Z.ltb_lt in E1; lia|].
    destruct ((page - 1) * limit + limit <? 0) eqn:E2; [apply Z.ltb_lt in E2; lia|].
    subst len. lia.
Qed.

Lemma pages_partition_listing_witness :
  let options page :=
    {| opt_status := None; opt_page := Some page; opt_limit := Some 10;
       opt_search := None; opt_dateFilter := None |} in
  Z.of_nat (List.length (page_orders
                           (MemStorage.getAllOrders (ext := Sample.externals)
                              (Sample.filled 15) 20 (options 2))))
  = Z.max 0 (Z.min 10 (Z.of_nat (List.length
                                   (MemStorage.filteredOrders (ext := Sample.externals)
                                      (Sample.filled 15) 20 (options 1)))
                       - (2 - 1) * 10)).
Proof.
  refine (proj2 (proj2 (pages_partition_listing Sample.externals (Sample.filled 15) 20
                          None None None 10 _)) 2 _); lia.
Defined.

(** *** Search *)

Lemma prefix_append needle rest : prefix needle (needle +++ rest) = true.
Proof.
  induction needle as [|c needle IH]; simpl; [now destruct rest|].
  destruct (ascii_dec c c); [exact IH | congruence].
Qed.

Lemma includes_middle needle before after :
  JS.includes needle (before +++ needle +++ after) = true.
Proof.
  induction before as [|c before IH].
  - cbn [String.append]. destruct (needle +++ after) eqn:E; cbn [JS.includes];
      rewrite <- E, prefix_append; reflexivity.
  - cbn [String.append JS.includes]. rewrite IH. now destruct (prefix _ _).
Qed.

Lemma toLowerCase_append a b :
  JS.toLowerCase (a +++ b) = JS.toLowerCase a +++ JS.toLowerCase b.
Proof.
  induction a as [|c a IH]; simpl; [reflexivity | now rewrite IH].
Qed.

Lemma prefix_split needle hay :
  prefix needle hay = true -> exists rest, hay = needle +++ rest.
Proof.
  revert hay. induction needle as [|c needle IH]; intros hay H.
  - exists hay. reflexivity.
  - destruct hay as [|d hay]; simpl in H; [discriminate|].
    destruct (ascii_dec c d) as [<-|]; [|discriminate].
    destruct (IH hay H) as [rest ->]. exists rest. reflexivity.
Qed.

Lemma includes_iff needle hay :
  JS.includes needle hay = true <-> partOf needle hay.
Proof.
  split.
  - induction hay as [|c hay IH]; cbn [JS.includes]; intros H.
    + destruct (prefix needle "") eqn:E; [|discriminate].
      destruct (prefix_split _ _ E) as [rest Hrest]. exists "", rest. exact Hrest.
    + destruct (prefix needle (String c hay)) eqn:E.
      * destruct (prefix_split _ _ E) as [rest Hrest]. exists "", rest. exact Hrest.
      * destruct (IH H) as (before & after & ->). exists (String c before), after. reflexivity.
  - intros (before & after & ->). apply includes_middle.
Qed.

Lemma toLowerCase_split s : forall x y,
  JS.toLowerCase s = x +++ y ->
  exists a b, s = a +++ b /\ JS.toLowerCase a = x /\ JS.toLowerCase b = y.
Proof.
  induction s as [|c s IH]; intros x y H.
  - destruct x; [|discriminate]. exists "", "". simpl in *. auto.
  - destruct x as [|d x].
    + exists "", (String c s). simpl in *. auto.
    + simpl in H. injection H as Hd Hrest.
      destruct (IH x y Hrest) as (a & b & -> & Ha & Hb).
      exists (String c a), b. simpl. rewrite Hd, Ha. auto.
Qed.

Lemma includes_lower_iff search whole :
  JS.includes (JS.toLowerCase search) (JS.toLowerCase whole) = true
  <-> partOfIgnoringCase search whole.
Proof.
  rewrite includes_iff. split.
  - intros (x & z & H).
    destruct (toLowerCase_split _ _ _ H) as (before & rest & -> & _ & Hrest).
    destruct (toLowerCase_split _ _ _ Hrest) as (part & after & -> & Hpart & _).
    exists before, part, after. auto.
  - intros (before & part & after & -> & Hcase).
    exists (JS.toLowerCase before), (JS.toLowerCase after).
    now rewrite !toLowerCase_append, Hcase.
Qed.

(** X12.  The search of the listing is a substring match that ignores
    letter case on the customer e-mail and on the topic, and an exact
    substring match on the decimal id.  An order matches a search text
    exactly when the text equals, up to letter case, some part of its
    e-mail or of its topic, or is a part of its id as printed; a listing
    with a search text that is not empty returns exactly the stored orders
    that match, and one with the empty search text returns every stored
    order. *)
Theorem search_matches_parts :
  forall (ext : Externals) storage now o search,
    (MemStorage.matchesSearch search o = true
     <-> partOfIgnoringCase search (customerEmail o)
         \/ partOf search (JS.toString (id o))
         \/ partOfIgnoringCase search (topic o))
    /\ (search <> "" ->
        (In o (MemStorage.filteredOrders storage now (searchOptions search))
         <-> In o (JS.values (MemStorage.orders storage))
             /\ MemStorage.matchesSearch search o = true))
    /\ (In o (MemStorage.filteredOrders storage now (searchOptions ""))
        <-> In o (JS.values (MemStorage.orders storage))).
Proof.
  intros ext storage now o search. split; [|split].
  - unfold MemStorage.matchesSearch.
    rewrite !orb_true_iff, !includes_lower_iff, includes_iff. tauto.
  - intros Hne. rewrite filteredOrders_In_iff.
    cbn [searchOptions opt_status opt_search opt_dateFilter]. split.
    + intros (Hin & _ & Hs & _). split; [exact Hin | now apply Hs].
    + intros [Hin Hm]. split; [exact Hin|]. split; [discriminate|].
      split; [|discriminate]. now intros s [= <-] _.
  - rewrite filteredOrders_In_iff.
    cbn [searchOptions opt_status opt_search opt_dateFilter]. split.
    + tauto.
    + intros Hin. split; [exact Hin|]. split; [discriminate|].
      split; [|discriminate]. intros s [= <-] Hne. now contradiction Hne.
Qed.

(** *** Checkout *)

(** X13.  The checkout session names its order.  For a stored order the
    checkout route asks Stripe for a session that charges the stored price
    to the stored customer e-mail and carries the order id as metadata; the
    payment-succeeded event that brings this metadata back records the
    payment on the same order and on no other, and issues the processing
    trigger for that id.  The route answers with a redirect (303) to the
    URL of the session, or with 500 when Stripe fails. *)
Theorem checkout_session_names_its_order :
  forall createSession successUrl cancelUrl config now orderId order paymentRef storage,
    wellFormed storage ->
    MemStorage.getOrder storage orderId = Some order ->
    let params := Queries.sessionParams successUrl cancelUrl order in
    Queries.checkoutRoute createSession successUrl cancelUrl (JS.toString orderId) storage
    = match createSession params with
      | Returned url => ReplyRedirect 303 (match url with Some u => u | None => "" end)
      | Thrown _ => ReplyMessage 500 "Error creating checkout session"
      end
    /\ unit_amount params = price order
    /\ customer_email params = customerEmail order
    /\ JS.parseInt (metadata_orderId params) = Some orderId
    /\ let '(storage', response, calls) :=
         Stripe.handleEvent config now
           (CheckoutSessionCompleted (Some (metadata_orderId params)) paymentRef) storage in
       response = json 200 Received
       /\ MemStorage.getOrder storage' orderId
          = Some (MemStorage.applyUpdate order (recordPayment paymentRef) now)
       /\ (forall other, other <> orderId ->
                         MemStorage.getOrder storage' other = MemStorage.getOrder storage other)
       /\ In (processTrigger config orderId) calls.
Proof.
  intros createSession successUrl cancelUrl config now orderId order paymentRef storage
         Hwf Hget params.
  assert (Hkey : id order = orderId).
  { unfold wellFormed in Hwf. rewrite Forall_forall in Hwf.
    pose proof (get_In _ _ _ _ Hget) as Hin. apply Hwf in Hin. tauto. }
  split.
  { unfold Queries.checkoutRoute. now rewrite parseInt_toString, Hget. }
  split; [reflexivity|]. split; [reflexivity|].
  assert (Hparse : JS.parseInt (metadata_orderId params) = Some orderId).
  { subst params. cbn [metadata_orderId Queries.sessionParams].
    now rewrite Hkey, parseInt_toString. }
  split; [exact Hparse|].
  unfold Stripe.handleEvent. rewrite Hparse, Hget.
  split; [reflexivity|].
  split; [now apply getOrder_updateOrder_same|].
  split; [intros other Hne; now apply getOrder_updateOrder_other|].
  right. left. reflexivity.
Qed.

Lemma checkout_session_names_its_order_witness :
  let order := {| id := 1; status := OrderStatus.PENDING; topic := "solar panels";
                  wordCount := 500; price := 2500; apiCost := 0; content := "";
                  customerEmail := "a@b.com"; stripePaymentIntentId := "";
                  createdAt := 1000; updatedAt := 1000 |} in
  let createSession : SessionParams -> Try (option string) :=
    fun _ => Returned (Some "https://checkout.stripe.com/c/pay/cs_test_1") in
  let params := Queries.sessionParams "http://localhost:5000/order/success"
                                      "http://localhost:5000/checkout" order in
  Queries.checkoutRoute createSession "http://localhost:5000/order/success"
                        "http://localhost:5000/checkout" (JS.toString 1) Sample.oneOrder
  = match createSession params with
    | Returned url => ReplyRedirect 303 (match url with Some u => u | None => "" end)
    | Thrown _ => ReplyMessage 500 "Error creating checkout session"
    end
  /\ unit_amount params = price order
  /\ customer_email params = customerEmail order
  /\ JS.parseInt (metadata_orderId params) = Some 1
  /\ let '(storage', response, calls) :=
       Stripe.handleEvent Sample.config 2000
         (CheckoutSessionCompleted (Some (metadata_orderId params)) "pi_1") Sample.oneOrder in
     response = json 200 Received
     /\ MemStorage.getOrder storage' 1
        = Some (MemStorage.applyUpdate order (recordPayment "pi_1") 2000)
     /\ (forall other, other <> 1 ->
                       MemStorage.getOrder storage' other
                       = MemStorage.getOrder Sample.oneOrder other)
     /\ In (processTrigger Sample.config 1) calls.
Proof.
  intros order createSession params.
  apply (checkout_session_names_its_order createSession
           "http://localhost:5000/order/success" "http://localhost:5000/checkout"
           Sample.config 2000 1 order "pi_1" Sample.oneOrder).
  - unfold wellFormed. vm_compute. repeat constructor.
  - reflexivity.
Defined.

(** *** Processing, continued *)

Lemma length_substring0 n s : (String.length (JS.substring0 n s) <= n)%nat.
Proof.
  unfold JS.substring0. revert s. induction n as [|n IH]; intros s.
  - destruct s; simpl; lia.
  - destruct s as [|c s]; simpl; [lia|]. specialize (IH s). lia.
Qed.

Lemma length_append a b : String.length (a +++ b) = (String.length a + String.length b)%nat.
Proof. induction a as [|c a IH]; simpl; [reflexivity | now rewrite IH]. Qed.

(** X14.  A processing request on a pending order whose generation
    succeeds.  The order ends [complete] with the generated text and cost,
    every other field but [updatedAt] as before, and every other order
    untouched; the answer is 200; the calls are, in this order, the
    in-progress e-mail, the generation for the topic and word count of the
    order, and the completed e-mail, both e-mails to the customer of the
    order; and the preview in the completed e-mail is at most 103
    characters long, however long the text. *)
Theorem process_success_effects :
  forall config now later client idParam orderId order result storage,
    JS.parseInt idParam = Some orderId ->
    MemStorage.getOrder storage orderId = Some order ->
    status order = OrderStatus.PENDING ->
    client (topic order) (wordCount order) = Returned result ->
    let '(storage', response, calls) :=
      Orders.processRoute config now later client idParam storage in
    response = json 200 (Message "Order processed successfully")
    /\ MemStorage.getOrder storage' orderId
       = Some {| id := id order; status := OrderStatus.COMPLETE; topic := topic order;
                 wordCount := wordCount order; price := price order;
                 apiCost := result_cost result; content := result_content result;
                 customerEmail := customerEmail order;
                 stripePaymentIntentId := stripePaymentIntentId order;
                 createdAt := createdAt order; updatedAt := later |}
    /\ (forall other, other <> orderId ->
                      MemStorage.getOrder storage' other = MemStorage.getOrder storage other)
    /\ exists started finished preview,
        calls = [SendEmail started;
                 CallGenerateContent (topic order) (wordCount order);
                 SendEmail finished]
        /\ template started = in_progress /\ to started = customerEmail order
        /\ template finished = completed /\ to finished = customerEmail order
        /\ In ("contentPreview", JsString preview) (data finished)
        /\ (String.length preview <= 103)%nat.
Proof.
  intros config now later client idParam orderId order result storage Hid Hget Hst Hres.
  unfold Orders.processRoute, Orders.processBegin. rewrite Hid, Hget, Hst. cbn [OrderStatus.eqb negb].
  rewrite Hres. unfold Orders.processEnd.
  pose proof (getOrder_updateOrder_same storage now orderId
                (setStatus OrderStatus.PROCESSING) order Hget) as H1.
  unfold setStatus in H1.
  split; [reflexivity|].
  split; [rewrite (getOrder_updateOrder_same _ later _ _ _ H1); reflexivity|].
  split; [intros other Hne; now rewrite !getOrder_updateOrder_other by exact Hne|].
  eexists _, _, _. split; [reflexivity|]. cbn [template to data].
  repeat split; [right; right; left; reflexivity|].
  rewrite length_append. pose proof (length_substring0 100 (result_content result)).
  simpl. lia.
Qed.

Lemma process_success_effects_witness :
  let '(storage', response, calls) :=
    Orders.processRoute Sample.config 3000 4000 Sample.generationOk "1" Sample.oneOrder in
  response = json 200 (Message "Order processed successfully")
  /\ MemStorage.getOrder storage' 1
     = Some {| id := 1; status := OrderStatus.COMPLETE; topic := "solar panels";
               wordCount := 500; price := 2500; apiCost := 120; content := "...";
               customerEmail := "a@b.com"; stripePaymentIntentId := "";
               createdAt := 1000; updatedAt := 4000 |}
  /\ (forall other, other <> 1 ->
                    MemStorage.getOrder storage' other
                    = MemStorage.getOrder Sample.oneOrder other)
  /\ exists started finished preview,
      calls = [SendEmail started; CallGenerateContent "solar panels" 500; SendEmail finished]
      /\ template started = in_progress /\ to started = "a@b.com"
      /\ template finished = completed /\ to finished = "a@b.com"
      /\ In ("contentPreview", JsString preview) (data finished)
      /\ (String.length preview <= 103)%nat.
Proof.
  apply (process_success_effects Sample.config 3000 4000 Sample.generationOk "1" 1
           {| id := 1; status := OrderStatus.PENDING; topic := "solar panels";
              wordCount := 500; price := 2500; apiCost := 0; content := "";
              customerEmail := "a@b.com"; stripePaymentIntentId := "";
              createdAt := 1000; updatedAt := 1000 |}
           {| result_content := "..."; result_cost := 120 |} Sample.oneOrder);
    reflexivity.
Defined.

(** X15.  A processing request on a pending order whose generation fails.
    The order ends [failed] with its content, cost and every other field
    but [updatedAt] as before; the answer is 500 "Content generation
    failed"; the customer gets the in-progress e-mail and then the failure
    e-mail; and nothing of this depends on the error: the answer, the store
    and the e-mails are the same for every error the generation may throw,
    so the provider's message reaches neither the caller nor the
    customer. *)
Theorem process_failure_hides_error :
  forall config now later client idParam orderId order e storage,
    JS.parseInt idParam = Some orderId ->
    MemStorage.getOrder storage orderId = Some order ->
    status order = OrderStatus.PENDING ->
    client (topic order) (wordCount order) = Thrown e ->
    Orders.processRoute config now later client idParam storage
    = Orders.processRoute config now later (fun _ _ => Thrown NotAnError) idParam storage
    /\ let '(storage', response, calls) :=
         Orders.processRoute config now later client idParam storage in
       response = json 500 (Message "Content generation failed")
       /\ MemStorage.getOrder storage' orderId
          = Some {| id := id order; status := OrderStatus.FAILED; topic := topic order;
                    wordCount := wordCount order; price := price order;
                    apiCost := apiCost order; content := content order;
                    customerEmail := customerEmail order;
                    stripePaymentIntentId := stripePaymentIntentId order;
                    createdAt := createdAt order; updatedAt := later |}
       /\ exists started sorry,
           calls = [SendEmail started;
                    CallGenerateContent (topic order) (wordCount order);
                    SendEmail sorry]
           /\ template started = in_progress /\ to started = customerEmail order
           /\ template sorry = failed /\ to sorry = customerEmail order.
Proof.
  intros config now later client idParam orderId order e storage Hid Hget Hst Hres.
  unfold Orders.processRoute, Orders.processBegin. rewrite Hid, Hget, Hst. cbn [OrderStatus.eqb negb].
  rewrite Hres. unfold Orders.processEnd.
  pose proof (getOrder_updateOrder_same storage now orderId
                (setStatus OrderStatus.PROCESSING) order Hget) as H1.
  unfold setStatus in H1.
  split; [reflexivity|]. split; [reflexivity|].
  split; [rewrite (getOrder_updateOrder_same _ later _ _ _ H1); reflexivity|].
  eexists _, _. split; [reflexivity|]. repeat split.
Qed.

Lemma process_failure_hides_error_witness :
  let client : GenerationClient :=
    fun _ _ => Thrown (ErrorOf "Content generation failed: 429 quota exceeded") in
  Orders.processRoute Sample.config 3000 4000 client "1" Sample.oneOrder
  = Orders.processRoute Sample.config 3000 4000 (fun _ _ => Thrown NotAnError) "1"
                        Sample.oneOrder.
Proof.
  intros client.
  apply (process_failure_hides_error Sample.config 3000 4000 client "1" 1
           {| id := 1; status := OrderStatus.PENDING; topic := "solar panels";
              wordCount := 500; price := 2500; apiCost := 0; content := "";
              customerEmail := "a@b.com"; stripePaymentIntentId := "";
              createdAt := 1000; updatedAt := 1000 |}
           (ErrorOf "Content generation failed: 429 quota exceeded") Sample.oneOrder);
    reflexivity.
Defined.

(** *** Settings, continued *)

(** X16.  What the settings query shows and how it repeats.  Each API key
    in the answer is the mask or the empty text, and the SMTP password is
    the mask or a value that is not set (empty or missing): no stored
    secret is sent.  Pricing, the other e-mail settings and the orders are
    neither masked nor changed.  A second query gives the same answer as
    the first and changes nothing more. *)
Theorem settings_query_shows_no_secret :
  forall storage,
    let '(storage', response, calls) := Orders.getSettingsRoute storage in
    response = json 200 (SettingsJson (MemStorage.getSettings storage'))
    /\ (forall keys, apiKeys (MemStorage.getSettings storage') = Some keys ->
          (openaiApiKey keys = Some Orders.apiKeyMask \/ openaiApiKey keys = Some "")
          /\ (stripeSecretKey keys = Some Orders.apiKeyMask \/ stripeSecretKey keys = Some "")
          /\ (stripeWebhookSecret keys = Some Orders.apiKeyMask
              \/ stripeWebhookSecret keys = Some ""))
    /\ (forall e, email (MemStorage.getSettings storage') = Some e ->
          smtpPassword e = Some Orders.passwordMask
          \/ Orders.truthyField (smtpPassword e) = false)
    /\ pricing (MemStorage.getSettings storage') = pricing (MemStorage.getSettings storage)
    /\ option_map (fun e => (smtpHost e, smtpPort e, smtpUser e, senderEmail e))
                  (email (MemStorage.getSettings storage'))
       = option_map (fun e => (smtpHost e, smtpPort e, smtpUser e, senderEmail e))
                    (email (MemStorage.getSettings storage))
    /\ MemStorage.orders storage' = MemStorage.orders storage
    /\ Orders.getSettingsRoute storage' = (storage', response, calls).
Proof.
  intros [ords [keys mail pr] counter].
  unfold Orders.getSettingsRoute, MemStorage.getSettings, MemStorage.assignSettings,
    Orders.maskKey.
  cbn [MemStorage.settings MemStorage.orders MemStorage.orderIdCounter apiKeys email pricing].
  destruct keys as [[k1 k2 k3]|]; destruct mail as [[h po u pw se]|];
    cbn [MemStorage.settings MemStorage.orders MemStorage.orderIdCounter apiKeys email pricing
         openaiApiKey stripeSecretKey stripeWebhookSecret smtpPassword smtpHost smtpPort
         smtpUser senderEmail];
    try (destruct (Orders.truthyField k1) eqn:E1);
    try (destruct (Orders.truthyField k2) eqn:E2);
    try (destruct (Orders.truthyField k3) eqn:E3);
    try (destruct (Orders.truthyField pw) eqn:E4);
    cbn [MemStorage.settings MemStorage.orders MemStorage.orderIdCounter apiKeys email pricing
         openaiApiKey stripeSecretKey stripeWebhookSecret smtpPassword smtpHost smtpPort
         smtpUser senderEmail];
    change (Orders.truthyField (Some Orders.apiKeyMask)) with true;
    change (Orders.truthyField (Some Orders.passwordMask)) with true;
    change (Orders.truthyField (Some "")) with false;
    rewrite ?E4; cbv iota;
    (split; [reflexivity|]);
    (split; [intros keys' [= <-]; cbn; auto|]);
    (split; [intros e' [= <-]; cbn; auto|]);
    repeat split; try discriminate.
Qed.

(** X17.  A change of the price applies to later orders only.  The pricing
    update replaces the pricing section and leaves the API keys, the e-mail
    settings and every stored order (with its price) alone; an order that
    is created afterwards is priced with the new price per word, when that
    is not zero. *)
Theorem pricing_change_applies_to_later_orders :
  forall (ext : Externals) config now n reqBody topic_ wordCount_ email_ storage,
    n <> 0 ->
    Orders.createOrderRequestSchema reqBody = Some (topic_, wordCount_, email_) ->
    let '(s1, r1, _) :=
      Orders.patchSettingsRoute (SectionPricing {| pricePerWord := Some n |}) storage in
    let '(s2, _, _) := Orders.createOrderRoute config now reqBody s1 in
    r1 = json 200 (Message "Pricing settings updated successfully")
    /\ MemStorage.orders s1 = MemStorage.orders storage
    /\ apiKeys (MemStorage.getSettings s1) = apiKeys (MemStorage.getSettings storage)
    /\ email (MemStorage.getSettings s1) = email (MemStorage.getSettings storage)
    /\ pricing (MemStorage.getSettings s1) = Some {| pricePerWord := Some n |}
    /\ exists created,
        MemStorage.getOrder s2 (MemStorage.orderIdCounter storage) = Some created
        /\ price created = wordCount_ * n
        /\ wordCount created = wordCount_.
Proof.
  intros ext config now n reqBody topic_ wordCount_ email_ storage Hn Hvalid.
  cbn [Orders.patchSettingsRoute MemStorage.updateSettings].
  unfold Orders.createOrderRoute. rewrite Hvalid.
  cbn. unfold truthyNumber.
  destruct (n =? 0) eqn:E; [apply Z.eqb_eq in E; contradiction|]. cbn.
  repeat split.
  eexists. split; [unfold MemStorage.getOrder; cbn; apply get_set_same|].
  split; reflexivity.
Qed.

Lemma pricing_change_applies_to_later_orders_witness :
  let '(s1, r1, _) :=
    Orders.patchSettingsRoute (SectionPricing {| pricePerWord := Some 9 |})
                              Sample.oneOrder in
  let '(s2, _, _) :=
    Orders.createOrderRoute (ext := Sample.externals) Sample.config 2000 Sample.solarPanels s1 in
  r1 = json 200 (Message "Pricing settings updated successfully")
  /\ MemStorage.orders s1 = MemStorage.orders Sample.oneOrder
  /\ apiKeys (MemStorage.getSettings s1) = apiKeys (MemStorage.getSettings Sample.oneOrder)
  /\ email (MemStorage.getSettings s1) = email (MemStorage.getSettings Sample.oneOrder)
  /\ pricing (MemStorage.getSettings s1) = Some {| pricePerWord := Some 9 |}
  /\ exists created,
      MemStorage.getOrder s2 (MemStorage.orderIdCounter Sample.oneOrder) = Some created
      /\ price created = 500 * 9
      /\ wordCount created = 500.
Proof.
  apply (pricing_change_applies_to_later_orders Sample.externals Sample.config 2000 9
           Sample.solarPanels "solar panels" 500 "a@b.com" Sample.oneOrder);
    [lia | reflexivity].
Defined.

(** *** Route registration *)

(** X18.  The recent-orders route and the export route are never reached.
    [GET /api/orders/:id] is registered before [GET /api/orders/recent] and
    [GET /api/orders/export] and matches every path that these match, so
    for no request path does the dispatch select one of the two; the paths
    [/api/orders/recent] and [/api/orders/export] go to the order query
    with the id ["recent"] or ["export"], which answers 400 "Invalid order
    ID" whatever the store holds and whoever asks. *)
Theorem recent_and_export_routes_shadowed :
  forall path params storage,
    Router.dispatch Router.GET path <> Some (Router.OrderRecent, params)
    /\ Router.dispatch Router.GET path <> Some (Router.OrderExport, params)
    /\ Router.dispatch Router.GET "/api/orders/recent"
       = Some (Router.OrderById, [("id", "recent")])
    /\ Router.dispatch Router.GET "/api/orders/export"
       = Some (Router.OrderById, [("id", "export")])
    /\ Queries.getOrderRoute "recent" storage = ReplyMessage 400 "Invalid order ID"
    /\ Queries.getOrderRoute "export" storage = ReplyMessage 400 "Invalid order ID".
Proof.
  intros path params storage.
  assert (H : forall name,
             name = Router.OrderRecent \/ name = Router.OrderExport ->
             Router.dispatch Router.GET path <> Some (name, params)).
  { intros name Hname. unfold Router.dispatch.
    generalize (Router.segmentsOf path). intros segments.
    destruct segments as [|a [|b [|c [|d rest]]]];
      cbn [fold_right Router.routes Router.method_eqb Router.matchSegments option_map
           JS.toLowerCase JS.lowerChar];
      repeat match goal with
             | |- context [if ?b then _ else _] => destruct b eqn:?
             end;
      cbn [option_map];
      try (destruct Hname as [-> | ->]; discriminate);
      try match goal with
          | E : String.eqb ?s "" = true |- _ =>
              apply String.eqb_eq in E; subst; discriminate
          end. }
  split; [apply H; now left|]. split; [apply H; now right|].
  repeat split.
Qed.

(** *** Order creation, continued *)

(** X19.  The creation route accepts a body exactly when [topic] is a
    string of at least three characters, [wordCount] a number between 100
    and 5000 and [customerEmail] a string that the e-mail pattern accepts.
    Every other body, with a field missing or of another type or out of
    these bounds, is answered 400 "Validation failed", creates nothing and
    leaves the store as it was; an accepted body is answered 200 with the
    new id and the checkout URL for it. *)
Theorem createOrder_accepts_exactly_valid_bodies :
  forall (ext : Externals) config now reqBody storage,
    let '(storage', response, calls) :=
      Orders.createOrderRoute config now reqBody storage in
    calls = []
    /\ ((exists topic_ wordCount_ email_,
            reqBody = {| body_topic := JsString topic_;
                         body_wordCount := JsNumber wordCount_;
                         body_customerEmail := JsString email_ |}
            /\ 3 <= Z.of_nat (String.length topic_)
            /\ 100 <= wordCount_ <= 5000
            /\ isEmail email_ = true)
        <-> statusCode response = 200)
    /\ (statusCode response <> 200 ->
        storage' = storage /\ response = json 400 ValidationFailed)
    /\ (statusCode response = 200 ->
        response = json 200 (OrderCreated "Order created successfully"
                               (MemStorage.orderIdCounter storage)
                               ("/api/checkout/"
                                +++ JS.toString (MemStorage.orderIdCounter storage)))
        /\ JS.parseInt (JS.toString (MemStorage.orderIdCounter storage))
           = Some (MemStorage.orderIdCounter storage)
        /\ MemStorage.getOrder storage' (MemStorage.orderIdCounter storage) <> None).
Proof.
  intros ext config now [t w e] storage.
  unfold Orders.createOrderRoute, Orders.createOrderRequestSchema.
  cbn [body_topic body_wordCount body_customerEmail].
  destruct t as [|tn|ts]; destruct w as [|wn|ws]; destruct e as [|en|es];
    try (cbn; split; [reflexivity|];
         split; [split; [intros (?&?&?&[=]&_) | discriminate]|];
         split; [auto | discriminate]).
  destruct ((3 <=? Z.of_nat (String.length ts)) && (100 <=? wn) && (wn <=? 5000) && isEmail es)
    eqn:E.
  - apply andb_prop in E as [E He]. apply andb_prop in E as [E Hhi].
    apply andb_prop in E as [Hlen Hlo]. apply Z.leb_le in Hlen, Hlo, Hhi.
    cbn. split; [reflexivity|].
    split; [split; [reflexivity | intros _; exists ts, wn, es; auto]|].
    split; [intros H; now contradiction H|].
    intros _. split; [reflexivity|]. split; [apply parseInt_toString|].
    unfold MemStorage.getOrder. cbn. rewrite get_set_same. discriminate.
  - cbn. split; [reflexivity|].
    split; [split; [|discriminate]|split; [auto | discriminate]].
    intros (t' & w' & e' & [= -> -> ->] & Hlen & [Hlo Hhi] & He).
    apply Z.leb_le in Hlen, Hlo, Hhi. rewrite Hlen, Hlo, Hhi, He in E. discriminate.
Qed.

(** *** The check of the environment *)

Lemma check_production env vars warnings :
  ConfigCheck.production env = true ->
  ConfigCheck.check env vars warnings
  = match List.find (fun v => negb (ConfigCheck.present env v)) vars with
    | Some v => Thrown (ErrorOf (ConfigCheck.missingMessage v))
    | None => Returned warnings
    end.
Proof.
  intros Hp. induction vars as [|v vars IH]; simpl; [reflexivity|].
  destruct (ConfigCheck.present env v); simpl; [exact IH | now rewrite Hp].
Qed.

Lemma check_development env vars : forall warnings,
  ConfigCheck.production env = false ->
  ConfigCheck.check env vars warnings
  = Returned (warnings
              ++ map (fun v => "WARNING: " +++ ConfigCheck.missingMessage v)
                     (filter (fun v => negb (ConfigCheck.present env v)) vars)).
Proof.
  induction vars as [|v vars IH]; intros warnings Hp; simpl.
  - now rewrite app_nil_r.
  - destruct (ConfigCheck.present env v); simpl; [now apply IH|].
    rewrite Hp, IH by exact Hp. now rewrite <- app_assoc.
Qed.

(** X20.  Loading the configuration.  In production the load throws at the
    first variable, in the order SESSION_SECRET, DATABASE_URL,
    OPENAI_API_KEY, STRIPE_SECRET_KEY, STRIPE_WEBHOOK_SECRET, SMTP_HOST,
    SMTP_USER, SMTP_PASSWORD, that is missing or empty, naming it, and
    succeeds without a warning when none is; so a production process that
    has started has its SMTP host, user and password set.  Outside
    production the load never throws: it warns once for each of NODE_ENV,
    SESSION_SECRET and DATABASE_URL that is missing or empty, and does not
    look at the others. *)
Theorem config_load_checks_environment :
  forall env,
    let production_only :=
      ["SESSION_SECRET"; "DATABASE_URL"; "OPENAI_API_KEY"; "STRIPE_SECRET_KEY";
       "STRIPE_WEBHOOK_SECRET"; "SMTP_HOST"; "SMTP_USER"; "SMTP_PASSWORD"] in
    (ConfigCheck.production env = true ->
     ConfigCheck.validate env
     = match List.find (fun v => negb (ConfigCheck.present env v)) production_only with
       | Some v => Thrown (ErrorOf ("Missing required environment variable: " +++ v))
       | None => Returned []
       end
     /\ (forall warnings,
           ConfigCheck.validate env = Returned warnings ->
           warnings = []
           /\ ConfigCheck.present env "SMTP_HOST" = true
           /\ ConfigCheck.present env "SMTP_USER" = true
           /\ ConfigCheck.present env "SMTP_PASSWORD" = true))
    /\ (ConfigCheck.production env = false ->
        ConfigCheck.validate env
        = Returned
            (map (fun v => "WARNING: Missing required environment variable: " +++ v)
                 (filter (fun v => negb (ConfigCheck.present env v))
                         ["NODE_ENV"; "SESSION_SECRET"; "DATABASE_URL"]))).
Proof.
  intros env production_only. split.
  - intros Hp.
    assert (Hnode : ConfigCheck.present env "NODE_ENV" = true).
    { unfold ConfigCheck.production, ConfigCheck.present in *.
      destruct (env "NODE_ENV") as [v|]; [|discriminate].
      apply String.eqb_eq in Hp. now subst. }
    assert (Hv : ConfigCheck.validate env
                 = match List.find (fun v => negb (ConfigCheck.present env v)) production_only with
                   | Some v => Thrown (ErrorOf ("Missing required environment variable: " +++ v))
                   | None => Returned []
                   end).
    { unfold ConfigCheck.validate, ConfigCheck.requiredEnvVars. rewrite Hp.
      rewrite check_production by exact Hp.
      cbn [app List.find]. rewrite Hnode. cbn [negb]. reflexivity. }
    split; [exact Hv|].
    intros warnings Hw. rewrite Hv in Hw.
    destruct (List.find _ production_only) as [v|] eqn:Hfind; [discriminate|].
    injection Hw as <-. split; [reflexivity|].
    pose proof (find_none _ _ Hfind) as Hall.
    repeat split;
      match goal with
      | |- ConfigCheck.present env ?v = true =>
          specialize (Hall v ltac:(subst production_only; simpl; tauto));
          now apply negb_false_iff in Hall
      end.
  - intros Hp. unfold ConfigCheck.validate, ConfigCheck.requiredEnvVars. rewrite Hp.
    rewrite check_development by exact Hp. rewrite app_nil_r. reflexivity.
Qed.

Lemma config_load_checks_environment_witness :
  let env : ConfigCheck.Env :=
    fun v => if String.eqb v "NODE_ENV" then Some "production"
             else if String.eqb v "SESSION_SECRET" then Some "s3cret"
             else None in
  ConfigCheck.validate env
  = Thrown (ErrorOf "Missing required environment variable: DATABASE_URL").
Proof.
  intros env.
  refine (proj1 (proj1 (config_load_checks_environment env) _)).
  reflexivity.
Defined.

(** *** CSV export, continued *)

Section ExportFacts.
Context {ext : Externals}.
Variable config : Config.







End ExportFacts.


